(** * VISION-VOICE: gesture engine, calibration sequencer and audio pipeline

    A shallow embedding of [src/App.tsx].  JavaScript numbers that carry
    pixel coordinates, orientation angles and audio-clock seconds are
    modelled as exact rationals ([Q]); millisecond timestamps
    ([Date.now()], [setTimeout] delays) as integers ([Z]).  NaN and the
    infinities are outside the model. *)

From Stdlib Require Import ZArith NArith QArith Qabs Qminmax Lqa Lia.
From Stdlib Require Import List Bool String.
From Stdlib.Strings Require Import Byte.
From stdpp Require Import gmap.
Import ListNotations.

(** ** JavaScript number comparisons on [Q] *)

Definition Qgtb (a b : Q) : bool := negb (Qle_bool a b).
Definition Qltb (a b : Q) : bool := Qgtb b a.

(** ** Gesture classification ([analyzeGesture], App.tsx 125-141) *)

Record Point := { x : Q; y : Q }.

Inductive Gesture := SWIPE_RIGHT | SWIPE_LEFT | SWIPE_DOWN | SWIPE_UP.

(** [points[0]] and [points[points.length - 1]]; the default is never
    reached once the length guard has passed. *)
Definition origin : Point := {| x := 0; y := 0 |}.
Definition first_point (points : list Point) : Point := hd origin points.
Definition last_point (points : list Point) : Point := List.last points origin.

Definition net_dx (points : list Point) : Q :=
  (x (last_point points) - x (first_point points))%Q.
Definition net_dy (points : list Point) : Q :=
  (y (last_point points) - y (first_point points))%Q.

(** The two branch conditions, on the displacement magnitudes. *)
Definition horizontal_swipe (absDx absDy : Q) : bool :=
  Qgtb absDx 80 && Qgtb absDx (absDy * 1.5).
Definition vertical_swipe (absDx absDy : Q) : bool :=
  Qgtb absDy 80 && Qgtb absDy (absDx * 1.5).

Definition analyzeGesture (points : list Point) : option Gesture :=
  if (length points <? 5)%nat then None
  else
    let start := first_point points in
    let end_ := last_point points in
    let dx := (x end_ - x start)%Q in
    let dy := (y end_ - y start)%Q in
    let absDx := Qabs dx in
    let absDy := Qabs dy in
    if horizontal_swipe absDx absDy then
      Some (if Qgtb dx 0 then SWIPE_RIGHT else SWIPE_LEFT)
    else if vertical_swipe absDx absDy then
      Some (if Qgtb dy 0 then SWIPE_DOWN else SWIPE_UP)
    else None.

(** ** Base64 ([encode], [decode], App.tsx 101-112) *)

Local Open Scope N_scope.

(** JavaScript strings are sequences of UTF-16 code units. *)
Definition code_unit := N.

Definition base64_char (i : N) : N :=
  if i <? 26 then 65 + i
  else if i <? 52 then 97 + (i - 26)
  else if i <? 62 then 48 + (i - 52)
  else if i =? 62 then 43
  else 47.

Definition base64_value (c : N) : option N :=
  if (65 <=? c) && (c <=? 90) then Some (c - 65)
  else if (97 <=? c) && (c <=? 122) then Some (c - 97 + 26)
  else if (48 <=? c) && (c <=? 57) then Some (c - 48 + 52)
  else if c =? 43 then Some 62
  else if c =? 47 then Some 63
  else None.

Definition pad_char : N := 61.

Fixpoint base64_encode (data : list N) : list N :=
  match data with
  | a :: b :: c :: rest =>
      base64_char (a / 4)
      :: base64_char ((a mod 4) * 16 + b / 16)
      :: base64_char ((b mod 16) * 4 + c / 64)
      :: base64_char (c mod 64)
      :: base64_encode rest
  | [a; b] =>
      [base64_char (a / 4); base64_char ((a mod 4) * 16 + b / 16);
       base64_char ((b mod 16) * 4); pad_char]
  | [a] =>
      [base64_char (a / 4); base64_char ((a mod 4) * 16); pad_char; pad_char]
  | [] => []
  end.

Definition btoa (s : list N) : option (list N) :=
  if forallb (fun c => c <=? 255) s then Some (base64_encode s) else None.

Definition is_ascii_whitespace (c : N) : bool :=
  (c =? 9) || (c =? 10) || (c =? 12) || (c =? 13) || (c =? 32).

Definition strip_padding (data : list N) : list N :=
  if (N.of_nat (length data) mod 4 =? 0) then
    match rev data with
    | c1 :: c2 :: r =>
        if c1 =? pad_char
        then (if c2 =? pad_char then rev r else rev (c2 :: r))
        else data
    | [c1] => if c1 =? pad_char then [] else data
    | [] => data
    end
  else data.

Fixpoint base64_values (data : list N) : option (list N) :=
  match data with
  | [] => Some []
  | c :: rest =>
      match base64_value c, base64_values rest with
      | Some v, Some vs => Some (v :: vs)
      | _, _ => None
      end
  end.

Fixpoint base64_decode (v : list N) : list N :=
  match v with
  | s1 :: s2 :: s3 :: s4 :: rest =>
      (s1 * 4 + s2 / 16) :: ((s2 mod 16) * 16 + s3 / 4)
      :: ((s3 mod 4) * 64 + s4) :: base64_decode rest
  | [s1; s2; s3] => [s1 * 4 + s2 / 16; (s2 mod 16) * 16 + s3 / 4]
  | [s1; s2] => [s1 * 4 + s2 / 16]
  | _ => []
  end.

Definition atob (s : list N) : option (list N) :=
  let data := strip_padding (List.filter (fun c => negb (is_ascii_whitespace c)) s) in
  if N.of_nat (length data) mod 4 =? 1 then None
  else option_map base64_decode (base64_values data).

Definition to_uint8 (n : N) : byte :=
  match Byte.of_N (n mod 256) with Some b => b | None => x00 end.

Definition encode (bytes : list byte) : option (list N) :=
  btoa (map Byte.to_N bytes).

Definition decode (base64 : list N) : option (list byte) :=
  option_map (map to_uint8) (atob base64).



Local Close Scope N_scope.

(** ** Application state *)

Local Open Scope Z_scope.

Inductive AppPhase := INIT | LANGUAGE_PICKER | CALIBRATION | READY.
Inductive VoiceStatus := idle | connecting | listening | speaking | voice_error.
Inductive SessionMode := VISION | NAV | MAPS.
Inductive HapticType := light | medium | heavy | double | success.

Record Orientation := { alpha : Q; beta : Q; gamma : Q }.

(** A [DeviceOrientationEvent]: each angle is a number or [null]. *)
Record OrientationEvent := {
  ev_alpha : option Q;
  ev_beta : option Q;
  ev_gamma : option Q
}.

(** What is handed to [speakText]: a string literal, a UI string looked up
    by key ([t(key)]) or a number converted with [toString]. *)
Inductive Utterance :=
  | Literal (text : string)
  | T (key : string)
  | Num (n : Z).

(** *** Browser objects *)

Inductive ContextState := running | closed.
Record AudioContext := { sampleRate : Z; ctxState : ContextState }.

(** An [AudioBufferSourceNode] once [start(when)] has been called. *)
Record SourceNode := { startAt : Q; duration : Q; stopped : bool }.

Inductive TrackKind := audio_track | video_track.
Inductive TrackState := live | ended.
Record MediaTrack := { kind : TrackKind; readyState : TrackState }.

(** A live session; [micStream] is the stream its [onopen] callback
    closes over. *)
Record LiveSession := { sessionMode : SessionMode; micStream : positive; isOpen : bool }.

(** The callbacks handed to [setTimeout].  A callback created in a render
    closes over that render's [useState] values: the hold timer over
    [isAnalyzing]; the tap timer over [isGuidanceActive] and, through
    [describeLocation], over [isAnalyzing]. *)
Inductive TimerCallback :=
  | HoldTimer (isAnalyzing : bool)
  | TapTimer (isGuidanceActive isAnalyzing : bool)
  | CalibrationIntroTimer
  | CalibrationDoneTimer.

Record Timer := { deadline : Z; callback : TimerCallback }.

(** The callbacks handed to [setInterval]; [count] is the local variable
    of [triggerCountdownDescription]. *)
Inductive Interval :=
  | FrameSampler
  | Countdown (count : Z).

(** [utterance.onend] of the utterance being spoken. *)
Inductive SpeechCallback := ArmCalibrationIntro.

(** The observable calls the application makes, in order. *)
Inductive Effect :=
  | Speak (u : Utterance)
  | Haptic (h : HapticType)
  | SourceStop (id : positive)
  | SourceStart (id : positive) (at_time : Q)
  | SessionClose (id : positive)
  | ContextClose (id : positive)
  | TrackStop (id : positive)
  | GetUserMedia (k : TrackKind)
  | NewAudioContext (id : positive) (rate : Z)
  | LiveConnect (m : SessionMode)
  | SendRealtimeInput (session : positive) (mimeType : string)
  | GetCurrentPosition
  | GenerateContent (withImage : bool).

(** What the environment decides: which teardown calls throw, and whether
    camera, microphone and the remote connection are granted. *)
Record Env := {
  throws : positive -> bool;
  cameraGranted : bool;
  micGranted : bool;
  connectOk : bool
}.

(** The interaction-mode flags ([useState]); the refs that mirror them
    ([visionActiveRef], [isNavModeRef], [isMapsModeRef]) are read through
    the same fields. *)
Record Modes := {
  visionActive : bool;
  isNavMode : bool;
  isMapsMode : bool;
  isBlank : bool;
  isGuidanceActive : bool
}.

(** The remaining [useState] values; [isMicHeldRef] and [isSpeakingRef]
    mirror [isMicHeld] and [isSpeaking]. *)
Record Status := {
  appState : AppPhase;
  calibrationStep : nat;
  voiceStatus : VoiceStatus;
  isSpeaking : bool;
  isMicHeld : bool;
  isAnalyzing : bool;
  countdown : option Z;
  gestureTrail : list Point
}.

(** The audio session: the three session refs, the playback cursor and
    the module-level [activeSources] set (in insertion order). *)
Record AudioRefs := {
  currentSessionRef : option positive;
  audioContextInRef : option positive;
  audioContextOutRef : option positive;
  nextStartTimeRef : Q;
  activeSources : list positive
}.

(** The refs of the gesture engine. *)
Record GestureRefs := {
  tapCountRef : nat;
  tapTimerRef : option positive;
  pointsRef : list Point;
  holdTimerRef : option positive
}.

(** The refs of the calibration sequencer. *)
Record CalibRefs := {
  initialOrientation : option Orientation;
  lastPromptTime : Z
}.

(** The camera side: [videoRef.current.srcObject], the frame-sampler
    interval and the countdown flag. *)
Record VisionRefs := {
  srcObject : option positive;
  frameIntervalRef : option positive;
  isCountingDownRef : bool
}.

(** The browser: clock, timers, the objects handed out by the Web APIs,
    the pending speech-end callback and the trace of observable effects. *)
Record Browser := {
  clock : Z;
  fresh : positive;
  timers : list (positive * Timer);
  intervals : list (positive * Interval);
  contexts : gmap positive AudioContext;
  sources : gmap positive SourceNode;
  sessions : gmap positive LiveSession;
  tracks : gmap positive MediaTrack;
  speechOnEnd : option SpeechCallback;
  effects : list Effect;
  env : Env
}.

Record App := {
  modes : Modes;
  status : Status;
  audio : AudioRefs;
  gesture : GestureRefs;
  calib : CalibRefs;
  vision : VisionRefs;
  browser : Browser
}.

(** Field updates, one per field. *)
Definition set_visionActive (v : bool) (r : Modes) : Modes :=
  {| visionActive := v; isNavMode := isNavMode r; isMapsMode := isMapsMode r; isBlank := isBlank r; isGuidanceActive := isGuidanceActive r |}.
Definition set_isNavMode (v : bool) (r : Modes) : Modes :=
  {| visionActive := visionActive r; isNavMode := v; isMapsMode := isMapsMode r; isBlank := isBlank r; isGuidanceActive := isGuidanceActive r |}.
Definition set_isMapsMode (v : bool) (r : Modes) : Modes :=
  {| visionActive := visionActive r; isNavMode := isNavMode r; isMapsMode := v; isBlank := isBlank r; isGuidanceActive := isGuidanceActive r |}.
Definition set_isBlank (v : bool) (r : Modes) : Modes :=
  {| visionActive := visionActive r; isNavMode := isNavMode r; isMapsMode := isMapsMode r; isBlank := v; isGuidanceActive := isGuidanceActive r |}.
Definition set_isGuidanceActive (v : bool) (r : Modes) : Modes :=
  {| visionActive := visionActive r; isNavMode := isNavMode r; isMapsMode := isMapsMode r; isBlank := isBlank r; isGuidanceActive := v |}.

Definition set_appState (v : AppPhase) (r : Status) : Status :=
  {| appState := v; calibrationStep := calibrationStep r; voiceStatus := voiceStatus r; isSpeaking := isSpeaking r; isMicHeld := isMicHeld r; isAnalyzing := isAnalyzing r; countdown := countdown r; gestureTrail := gestureTrail r |}.
Definition set_calibrationStep (v : nat) (r : Status) : Status :=
  {| appState := appState r; calibrationStep := v; voiceStatus := voiceStatus r; isSpeaking := isSpeaking r; isMicHeld := isMicHeld r; isAnalyzing := isAnalyzing r; countdown := countdown r; gestureTrail := gestureTrail r |}.
Definition set_voiceStatus (v : VoiceStatus) (r : Status) : Status :=
  {| appState := appState r; calibrationStep := calibrationStep r; voiceStatus := v; isSpeaking := isSpeaking r; isMicHeld := isMicHeld r; isAnalyzing := isAnalyzing r; countdown := countdown r; gestureTrail := gestureTrail r |}.
Definition set_isSpeaking (v : bool) (r : Status) : Status :=
  {| appState := appState r; calibrationStep := calibrationStep r; voiceStatus := voiceStatus r; isSpeaking := v; isMicHeld := isMicHeld r; isAnalyzing := isAnalyzing r; countdown := countdown r; gestureTrail := gestureTrail r |}.
Definition set_isMicHeld (v : bool) (r : Status) : Status :=
  {| appState := appState r; calibrationStep := calibrationStep r; voiceStatus := voiceStatus r; isSpeaking := isSpeaking r; isMicHeld := v; isAnalyzing := isAnalyzing r; countdown := countdown r; gestureTrail := gestureTrail r |}.
Definition set_isAnalyzing (v : bool) (r : Status) : Status :=
  {| appState := appState r; calibrationStep := calibrationStep r; voiceStatus := voiceStatus r; isSpeaking := isSpeaking r; isMicHeld := isMicHeld r; isAnalyzing := v; countdown := countdown r; gestureTrail := gestureTrail r |}.
Definition set_countdown (v : option Z) (r : Status) : Status :=
  {| appState := appState r; calibrationStep := calibrationStep r; voiceStatus := voiceStatus r; isSpeaking := isSpeaking r; isMicHeld := isMicHeld r; isAnalyzing := isAnalyzing r; countdown := v; gestureTrail := gestureTrail r |}.
Definition set_gestureTrail (v : list Point) (r : Status) : Status :=
  {| appState := appState r; calibrationStep := calibrationStep r; voiceStatus := voiceStatus r; isSpeaking := isSpeaking r; isMicHeld := isMicHeld r; isAnalyzing := isAnalyzing r; countdown := countdown r; gestureTrail := v |}.

Definition set_currentSessionRef (v : option positive) (r : AudioRefs) : AudioRefs :=
  {| currentSessionRef := v; audioContextInRef := audioContextInRef r; audioContextOutRef := audioContextOutRef r; nextStartTimeRef := nextStartTimeRef r; activeSources := activeSources r |}.
Definition set_audioContextInRef (v : option positive) (r : AudioRefs) : AudioRefs :=
  {| currentSessionRef := currentSessionRef r; audioContextInRef := v; audioContextOutRef := audioContextOutRef r; nextStartTimeRef := nextStartTimeRef r; activeSources := activeSources r |}.
Definition set_audioContextOutRef (v : option positive) (r : AudioRefs) : AudioRefs :=
  {| currentSessionRef := currentSessionRef r; audioContextInRef := audioContextInRef r; audioContextOutRef := v; nextStartTimeRef := nextStartTimeRef r; activeSources := activeSources r |}.
Definition set_nextStartTimeRef (v : Q) (r : AudioRefs) : AudioRefs :=
  {| currentSessionRef := currentSessionRef r; audioContextInRef := audioContextInRef r; audioContextOutRef := audioContextOutRef r; nextStartTimeRef := v; activeSources := activeSources r |}.
Definition set_activeSources (v : list positive) (r : AudioRefs) : AudioRefs :=
  {| currentSessionRef := currentSessionRef r; audioContextInRef := audioContextInRef r; audioContextOutRef := audioContextOutRef r; nextStartTimeRef := nextStartTimeRef r; activeSources := v |}.

Definition set_tapCountRef (v : nat) (r : GestureRefs) : GestureRefs :=
  {| tapCountRef := v; tapTimerRef := tapTimerRef r; pointsRef := pointsRef r; holdTimerRef := holdTimerRef r |}.
Definition set_tapTimerRef (v : option positive) (r : GestureRefs) : GestureRefs :=
  {| tapCountRef := tapCountRef r; tapTimerRef := v; pointsRef := pointsRef r; holdTimerRef := holdTimerRef r |}.
Definition set_pointsRef (v : list Point) (r : GestureRefs) : GestureRefs :=
  {| tapCountRef := tapCountRef r; tapTimerRef := tapTimerRef r; pointsRef := v; holdTimerRef := holdTimerRef r |}.
Definition set_holdTimerRef (v : option positive) (r : GestureRefs) : GestureRefs :=
  {| tapCountRef := tapCountRef r; tapTimerRef := tapTimerRef r; pointsRef := pointsRef r; holdTimerRef := v |}.

Definition set_initialOrientation (v : option Orientation) (r : CalibRefs) : CalibRefs :=
  {| initialOrientation := v; lastPromptTime := lastPromptTime r |}.
Definition set_lastPromptTime (v : Z) (r : CalibRefs) : CalibRefs :=
  {| initialOrientation := initialOrientation r; lastPromptTime := v |}.

Definition set_srcObject (v : option positive) (r : VisionRefs) : VisionRefs :=
  {| srcObject := v; frameIntervalRef := frameIntervalRef r; isCountingDownRef := isCountingDownRef r |}.
Definition set_frameIntervalRef (v : option positive) (r : VisionRefs) : VisionRefs :=
  {| srcObject := srcObject r; frameIntervalRef := v; isCountingDownRef := isCountingDownRef r |}.
Definition set_isCountingDownRef (v : bool) (r : VisionRefs) : VisionRefs :=
  {| srcObject := srcObject r; frameIntervalRef := frameIntervalRef r; isCountingDownRef := v |}.

Definition set_clock (v : Z) (r : Browser) : Browser :=
  {| clock := v; fresh := fresh r; timers := timers r; intervals := intervals r; contexts := contexts r; sources := sources r; sessions := sessions r; tracks := tracks r; speechOnEnd := speechOnEnd r; effects := effects r; env := env r |}.
Definition set_fresh (v : positive) (r : Browser) : Browser :=
  {| clock := clock r; fresh := v; timers := timers r; intervals := intervals r; contexts := contexts r; sources := sources r; sessions := sessions r; tracks := tracks r; speechOnEnd := speechOnEnd r; effects := effects r; env := env r |}.
Definition set_timers (v : list (positive * Timer)) (r : Browser) : Browser :=
  {| clock := clock r; fresh := fresh r; timers := v; intervals := intervals r; contexts := contexts r; sources := sources r; sessions := sessions r; tracks := tracks r; speechOnEnd := speechOnEnd r; effects := effects r; env := env r |}.
Definition set_intervals (v : list (positive * Interval)) (r : Browser) : Browser :=
  {| clock := clock r; fresh := fresh r; timers := timers r; intervals := v; contexts := contexts r; sources := sources r; sessions := sessions r; tracks := tracks r; speechOnEnd := speechOnEnd r; effects := effects r; env := env r |}.
Definition set_contexts (v : gmap positive AudioContext) (r : Browser) : Browser :=
  {| clock := clock r; fresh := fresh r; timers := timers r; intervals := intervals r; contexts := v; sources := sources r; sessions := sessions r; tracks := tracks r; speechOnEnd := speechOnEnd r; effects := effects r; env := env r |}.
Definition set_sources (v : gmap positive SourceNode) (r : Browser) : Browser :=
  {| clock := clock r; fresh := fresh r; timers := timers r; intervals := intervals r; contexts := contexts r; sources := v; sessions := sessions r; tracks := tracks r; speechOnEnd := speechOnEnd r; effects := effects r; env := env r |}.
Definition set_sessions (v : gmap positive LiveSession) (r : Browser) : Browser :=
  {| clock := clock r; fresh := fresh r; timers := timers r; intervals := intervals r; contexts := contexts r; sources := sources r; sessions := v; tracks := tracks r; speechOnEnd := speechOnEnd r; effects := effects r; env := env r |}.
Definition set_tracks (v : gmap positive MediaTrack) (r : Browser) : Browser :=
  {| clock := clock r; fresh := fresh r; timers := timers r; intervals := intervals r; contexts := contexts r; sources := sources r; sessions := sessions r; tracks := v; speechOnEnd := speechOnEnd r; effects := effects r; env := env r |}.
Definition set_speechOnEnd (v : option SpeechCallback) (r : Browser) : Browser :=
  {| clock := clock r; fresh := fresh r; timers := timers r; intervals := intervals r; contexts := contexts r; sources := sources r; sessions := sessions r; tracks := tracks r; speechOnEnd := v; effects := effects r; env := env r |}.
Definition set_effects (v : list Effect) (r : Browser) : Browser :=
  {| clock := clock r; fresh := fresh r; timers := timers r; intervals := intervals r; contexts := contexts r; sources := sources r; sessions := sessions r; tracks := tracks r; speechOnEnd := speechOnEnd r; effects := v; env := env r |}.
Definition set_env (v : Env) (r : Browser) : Browser :=
  {| clock := clock r; fresh := fresh r; timers := timers r; intervals := intervals r; contexts := contexts r; sources := sources r; sessions := sessions r; tracks := tracks r; speechOnEnd := speechOnEnd r; effects := effects r; env := v |}.

Definition on_modes (f : Modes -> Modes) (s : App) : App :=
  {| modes := f (modes s); status := status s; audio := audio s; gesture := gesture s; calib := calib s; vision := vision s; browser := browser s |}.
Definition on_status (f : Status -> Status) (s : App) : App :=
  {| modes := modes s; status := f (status s); audio := audio s; gesture := gesture s; calib := calib s; vision := vision s; browser := browser s |}.
Definition on_audio (f : AudioRefs -> AudioRefs) (s : App) : App :=
  {| modes := modes s; status := status s; audio := f (audio s); gesture := gesture s; calib := calib s; vision := vision s; browser := browser s |}.
Definition on_gesture (f : GestureRefs -> GestureRefs) (s : App) : App :=
  {| modes := modes s; status := status s; audio := audio s; gesture := f (gesture s); calib := calib s; vision := vision s; browser := browser s |}.
Definition on_calib (f : CalibRefs -> CalibRefs) (s : App) : App :=
  {| modes := modes s; status := status s; audio := audio s; gesture := gesture s; calib := f (calib s); vision := vision s; browser := browser s |}.
Definition on_vision (f : VisionRefs -> VisionRefs) (s : App) : App :=
  {| modes := modes s; status := status s; audio := audio s; gesture := gesture s; calib := calib s; vision := f (vision s); browser := browser s |}.
Definition on_browser (f : Browser -> Browser) (s : App) : App :=
  {| modes := modes s; status := status s; audio := audio s; gesture := gesture s; calib := calib s; vision := vision s; browser := f (browser s) |}.

(** ** Handlers as state transformers that may throw *)

Inductive Outcome (A : Type) :=
  | Returned (a : A)
  | Thrown.
Arguments Returned {A} a.
Arguments Thrown {A}.

Definition M (A : Type) : Type := App -> App * Outcome A.

Definition ret {A} (a : A) : M A := fun s => (s, Returned a).

Definition bind {A B} (m : M A) (k : A -> M B) : M B :=
  fun s =>
    match m s with
    | (s', Returned a) => k a s'
    | (s', Thrown) => (s', Thrown)
    end.

Definition throw {A} : M A := fun s => (s, Thrown).

(** [try { m } catch (e) { h }] *)
Definition try_catch (m h : M unit) : M unit :=
  fun s =>
    match m s with
    | (s', Returned _) => (s', Returned tt)
    | (s', Thrown) => h s'
    end.

Definition gets {A} (f : App -> A) : M A := fun s => (s, Returned (f s)).
Definition modify (f : App -> App) : M unit := fun s => (f s, Returned tt).

Definition exec {A} (m : M A) (s : App) : App := fst (m s).
Definition outcome {A} (m : M A) (s : App) : Outcome A := snd (m s).

Declare Scope M_scope.
Delimit Scope M_scope with M.
Notation "x <- m ;; k" := (bind m (fun x => k))
  (at level 100, m at next level, right associativity) : M_scope.
Notation "m ;; k" := (bind m (fun _ => k))
  (at level 100, right associativity) : M_scope.
Local Open Scope M_scope.

Definition skip : M unit := ret tt.
Definition when_ (b : bool) (m : M unit) : M unit := if b then m else skip.

(** A call to an async function that is not awaited: a rejection does not
    reach the caller. *)
Definition spawn (m : M unit) : M unit := try_catch m skip.

Fixpoint forEach {A} (l : list A) (f : A -> M unit) : M unit :=
  match l with
  | [] => skip
  | a :: rest => f a ;; forEach rest f
  end.

(** *** State accessors in the source's names *)

Definition setAppState v := modify (on_status (set_appState v)).
Definition setCalibrationStep v := modify (on_status (set_calibrationStep v)).
Definition setVoiceStatus v := modify (on_status (set_voiceStatus v)).
Definition setIsSpeaking v := modify (on_status (set_isSpeaking v)).
Definition setIsMicHeld v := modify (on_status (set_isMicHeld v)).
Definition setIsAnalyzing v := modify (on_status (set_isAnalyzing v)).
Definition setCountdown v := modify (on_status (set_countdown v)).
Definition setGestureTrail v := modify (on_status (set_gestureTrail v)).
Definition setVisionActive v := modify (on_modes (set_visionActive v)).
Definition setIsNavMode v := modify (on_modes (set_isNavMode v)).
Definition setIsMapsMode v := modify (on_modes (set_isMapsMode v)).
Definition setIsBlank v := modify (on_modes (set_isBlank v)).
Definition setIsGuidanceActive v := modify (on_modes (set_isGuidanceActive v)).

Definition emit (e : Effect) : M unit :=
  modify (on_browser (fun b => set_effects (effects b ++ [e]) b)).

Definition playHaptic (h : HapticType) : M unit := emit (Haptic h).

(** [speakText(text, callback)]: cancels what is being spoken, then speaks
    [text]; [callback] becomes the utterance's [onend]. *)
Definition speakText (text : Utterance) (callback : option SpeechCallback) : M unit :=
  modify (on_browser (set_speechOnEnd callback)) ;;
  emit (Speak text).

(** A new object id. *)
Definition new_id : M positive :=
  id <- gets (fun s => fresh (browser s)) ;;
  modify (on_browser (set_fresh (Pos.succ id))) ;;
  ret id.

(** [window.setTimeout(callback, delay)] and [clearTimeout(id)] *)
Definition setTimeout (cb : TimerCallback) (delay : Z) : M positive :=
  id <- new_id ;;
  now <- gets (fun s => clock (browser s)) ;;
  modify (on_browser (fun b =>
    set_timers (timers b ++ [(id, {| deadline := now + delay; callback := cb |})]) b)) ;;
  ret id.

Definition without {A} (id : positive) (l : list (positive * A)) : list (positive * A) :=
  List.filter (fun e => negb (Pos.eqb (fst e) id)) l.

Definition clearTimeout (id : positive) : M unit :=
  modify (on_browser (fun b => set_timers (without id (timers b)) b)).

Definition setInterval (cb : Interval) : M positive :=
  id <- new_id ;;
  modify (on_browser (fun b => set_intervals (intervals b ++ [(id, cb)]) b)) ;;
  ret id.

Definition clearInterval (id : positive) : M unit :=
  modify (on_browser (fun b => set_intervals (without id (intervals b)) b)).

(** ** Web API calls *)

Definition stop_node (n : SourceNode) : SourceNode :=
  {| startAt := startAt n; duration := duration n; stopped := true |}.
Definition close_context (c : AudioContext) : AudioContext :=
  {| sampleRate := sampleRate c; ctxState := closed |}.
Definition close_session (l : LiveSession) : LiveSession :=
  {| sessionMode := sessionMode l; micStream := micStream l; isOpen := false |}.
Definition end_track (t : MediaTrack) : MediaTrack :=
  {| kind := kind t; readyState := ended |}.

Definition call_throws (id : positive) : M bool :=
  gets (fun s => throws (env (browser s)) id).

(** [source.stop()] *)
Definition sourceStop (id : positive) : M unit :=
  emit (SourceStop id) ;;
  bad <- call_throws id ;;
  if bad then throw
  else modify (on_browser (fun b => set_sources (alter stop_node id (sources b)) b)).

(** [session.close()] *)
Definition sessionClose (id : positive) : M unit :=
  emit (SessionClose id) ;;
  bad <- call_throws id ;;
  if bad then throw
  else modify (on_browser (fun b => set_sessions (alter close_session id (sessions b)) b)).

(** [await ctx.close()]: rejects on a context that is already closed. *)
Definition contextClose (id : positive) : M unit :=
  emit (ContextClose id) ;;
  bad <- call_throws id ;;
  ctx <- gets (fun s => contexts (browser s) !! id) ;;
  match ctx with
  | Some c =>
      match ctxState c with
      | running =>
          if bad then throw
          else modify (on_browser (fun b =>
                 set_contexts (<[id := close_context c]> (contexts b)) b))
      | closed => throw
      end
  | None => throw
  end.

(** [track.stop()] *)
Definition trackStop (id : positive) : M unit :=
  emit (TrackStop id) ;;
  modify (on_browser (fun b => set_tracks (alter end_track id (tracks b)) b)).

(** [await navigator.mediaDevices.getUserMedia(...)]: a stream with one
    live track, or a rejection when permission is denied. *)
Definition getUserMedia (k : TrackKind) : M positive :=
  emit (GetUserMedia k) ;;
  granted <- gets (fun s =>
    match k with
    | audio_track => micGranted (env (browser s))
    | video_track => cameraGranted (env (browser s))
    end) ;;
  if granted then
    id <- new_id ;;
    modify (on_browser (fun b =>
      set_tracks (<[id := {| kind := k; readyState := live |}]> (tracks b)) b)) ;;
    ret id
  else throw.

(** [new AudioCtx({ sampleRate })] *)
Definition newAudioContext (rate : Z) : M positive :=
  id <- new_id ;;
  modify (on_browser (fun b =>
    set_contexts (<[id := {| sampleRate := rate; ctxState := running |}]> (contexts b)) b)) ;;
  emit (NewAudioContext id rate) ;;
  ret id.

(** [await ai.live.connect(...)]; on success [onopen] has run. *)
Definition liveConnect (m : SessionMode) (mic : positive) : M positive :=
  emit (LiveConnect m) ;;
  ok <- gets (fun s => connectOk (env (browser s))) ;;
  if ok then
    id <- new_id ;;
    modify (on_browser (fun b =>
      set_sessions (<[id := {| sessionMode := m; micStream := mic; isOpen := true |}]>
                      (sessions b)) b)) ;;
    setVoiceStatus listening ;;
    ret id
  else throw.

(** ** Audio session (App.tsx 95-99, 257-325) *)

Definition stopAllAudio : M unit :=
  active <- gets (fun s => activeSources (audio s)) ;;
  forEach active (fun s => try_catch (sourceStop s) skip) ;;
  modify (on_audio (set_activeSources [])).

Definition closeSession : M unit :=
  stopAllAudio ;;
  session <- gets (fun s => currentSessionRef (audio s)) ;;
  match session with
  | Some id =>
      try_catch (sessionClose id) skip ;;
      modify (on_audio (set_currentSessionRef None))
  | None => skip
  end ;;
  ctxIn <- gets (fun s => audioContextInRef (audio s)) ;;
  match ctxIn with
  | Some id =>
      try_catch (contextClose id) skip ;;
      modify (on_audio (set_audioContextInRef None))
  | None => skip
  end ;;
  ctxOut <- gets (fun s => audioContextOutRef (audio s)) ;;
  match ctxOut with
  | Some id =>
      try_catch (contextClose id) skip ;;
      modify (on_audio (set_audioContextOutRef None))
  | None => skip
  end ;;
  modify (on_audio (set_nextStartTimeRef 0)).

(** What [startVoiceSession] does once [closeSession] has completed. *)
Definition openSession (m : SessionMode) : M unit :=
  setVoiceStatus connecting ;;
  try_catch
    (micStream <- getUserMedia audio_track ;;
     ctxIn <- newAudioContext 16000 ;;
     modify (on_audio (set_audioContextInRef (Some ctxIn))) ;;
     ctxOut <- newAudioContext 24000 ;;
     modify (on_audio (set_audioContextOutRef (Some ctxOut))) ;;
     session <- liveConnect m micStream ;;
     modify (on_audio (set_currentSessionRef (Some session))))
    (setVoiceStatus idle).

Definition startVoiceSession (m : SessionMode) : M unit :=
  closeSession ;;
  openSession m.

(** An [AudioBuffer], by its frame count and sample rate. *)
Record AudioBuffer := { frameCount : nat; bufferRate : Z }.

Definition buffer_duration (b : AudioBuffer) : Q :=
  Z.of_nat (frameCount b) # Z.to_pos (bufferRate b).

(** [decodeAudioData(data, ctx, sampleRate, numChannels)]:
    [new Int16Array(data.buffer)] throws on an odd byte length. *)
Definition decodeAudioData (data : list byte) (rate : Z) (numChannels : nat)
  : M AudioBuffer :=
  if Nat.even (length data) then
    ret {| frameCount := ((length data / 2) / numChannels)%nat; bufferRate := rate |}
  else throw.

(** [activeSources.add(source)] *)
Definition add_source (id : positive) (l : list positive) : list positive :=
  if existsb (Pos.eqb id) l then l else l ++ [id].

(** [source.start(when)] on a new buffer source. *)
Definition sourceStart (buffer : AudioBuffer) (start : Q) : M positive :=
  id <- new_id ;;
  modify (on_browser (fun b =>
    set_sources (<[id := {| startAt := start; duration := buffer_duration buffer;
                            stopped := false |}]> (sources b)) b)) ;;
  emit (SourceStart id start) ;;
  ret id.

(** The session's [onmessage] callback; [audioData] is the inline data of
    the first part, if any, and [currentTime] the reading of
    [ctx.currentTime]. *)
Definition onmessage (audioData : option (list N)) (currentTime : Q) : M unit :=
  out <- gets (fun s => audioContextOutRef (audio s)) ;;
  match audioData, out with
  | Some (c :: rest), Some ctx =>
      sp <- gets (fun s => isSpeaking (status s)) ;;
      when_ (negb sp) (setIsSpeaking true) ;;
      modify (on_audio (fun a =>
        set_nextStartTimeRef (Qmax (nextStartTimeRef a) currentTime) a)) ;;
      bytes <- match decode (c :: rest) with
               | Some b => ret b
               | None => throw
               end ;;
      buffer <- decodeAudioData bytes 24000 1%nat ;;
      start <- gets (fun s => nextStartTimeRef (audio s)) ;;
      source <- sourceStart buffer start ;;
      modify (on_audio (fun a =>
        set_nextStartTimeRef (nextStartTimeRef a + buffer_duration buffer)%Q a)) ;;
      modify (on_audio (fun a => set_activeSources (add_source source (activeSources a)) a))
  | _, _ => skip
  end.

(** [source.onended] *)
Definition onended (source : positive) : M unit :=
  modify (on_audio (fun a =>
    set_activeSources (List.filter (fun i => negb (Pos.eqb i source)) (activeSources a)) a)) ;;
  active <- gets (fun s => activeSources (audio s)) ;;
  match active with
  | [] => setIsSpeaking false
  | _ => skip
  end.

(** ** Mode controller (App.tsx 246-255, 327-436) *)

(** [videoRef.current] (and [canvasRef.current]) exist while the main
    view is rendered. *)
Definition videoMounted (s : App) : bool :=
  match appState (status s) with
  | READY => negb (isBlank (modes s))
  | _ => false
  end.

Definition stopCameraStream : M unit :=
  mounted <- gets videoMounted ;;
  stream <- gets (fun s => srcObject (vision s)) ;;
  match mounted, stream with
  | true, Some id =>
      trackStop id ;;
      modify (on_vision (set_srcObject None))
  | _, _ => skip
  end ;;
  interval <- gets (fun s => frameIntervalRef (vision s)) ;;
  match interval with
  | Some id => clearInterval id
  | None => skip
  end ;;
  modify (on_vision (set_frameIntervalRef None)) ;;
  setVisionActive false.

Definition startVisionMode : M unit :=
  speakText (Literal "Vision Mode") None ;;
  setIsNavMode false ;; setIsMapsMode false ;;
  setIsGuidanceActive false ;; setIsBlank false ;;
  try_catch
    (stream <- getUserMedia video_track ;;
     mounted <- gets videoMounted ;;
     when_ mounted
       (modify (on_vision (set_srcObject (Some stream))) ;;
        setVisionActive true ;;
        playHaptic medium) ;;
     interval <- gets (fun s => frameIntervalRef (vision s)) ;;
     match interval with
     | Some id => clearInterval id
     | None => skip
     end ;;
     id <- setInterval FrameSampler ;;
     modify (on_vision (set_frameIntervalRef (Some id))) ;;
     spawn (startVoiceSession VISION))
    (playHaptic heavy ;;
     speakText (Literal "Camera access denied.") None).

Definition startNavigatorMode : M unit :=
  speakText (Literal "Navigator Mode") None ;;
  v <- gets (fun s => visionActive (modes s)) ;;
  when_ v stopCameraStream ;;
  setIsNavMode true ;; setIsMapsMode false ;;
  setIsGuidanceActive false ;; setIsBlank false ;;
  playHaptic heavy ;;
  spawn (startVoiceSession NAV).

Definition startMapsMode : M unit :=
  speakText (Literal "Maps Mode") None ;;
  v <- gets (fun s => visionActive (modes s)) ;;
  when_ v stopCameraStream ;;
  setIsMapsMode true ;; setIsNavMode false ;;
  setIsGuidanceActive false ;; setIsBlank false ;;
  playHaptic medium ;;
  spawn (startVoiceSession MAPS).

(** [describeLocation] up to the geolocation request; [isAnalyzing] is
    the value the enclosing render closed over. *)
Definition describeLocation (isAnalyzing : bool) : M unit :=
  if isAnalyzing then skip
  else
    setIsAnalyzing true ;;
    speakText (T "describe_location") None ;;
    playHaptic light ;;
    emit GetCurrentPosition.

(** The two callbacks of [getCurrentPosition]; the success callback issues
    the description request. *)
Definition onPosition (ok : bool) : M unit :=
  if ok then emit (GenerateContent false)
  else
    speakText (Literal "Location access is required for Maps Mode.") None ;;
    setIsAnalyzing false.

(** The outcome of a [generateContent] request: a rejection, or a response
    with or without text. *)
Inductive Response :=
  | Rejected
  | Resolved (text : option string).

Definition onLocationResponse (r : Response) : M unit :=
  match r with
  | Resolved (Some text) => speakText (Literal text) None
  | Resolved None => skip
  | Rejected =>
      speakText (Literal "Location details unavailable. Please check your signal.") None
  end ;;
  setIsAnalyzing false.

Definition triggerCountdownDescription : M unit :=
  counting <- gets (fun s => isCountingDownRef (vision s)) ;;
  if counting then skip
  else
    modify (on_vision (set_isCountingDownRef true)) ;;
    setCountdown (Some 3) ;;
    speakText (Literal "3") None ;;
    playHaptic light ;;
    _ <- setInterval (Countdown 3) ;;
    skip.

(** One firing of the countdown interval [id] whose [count] stands at
    [count]. *)
Definition countdownTick (id : positive) (count : Z) : M unit :=
  let count := count - 1 in
  if 0 <? count then
    modify (on_browser (fun b =>
      set_intervals (map (fun e => if Pos.eqb (fst e) id then (id, Countdown count) else e)
                         (intervals b)) b)) ;;
    setCountdown (Some count) ;;
    speakText (Num count) None ;;
    playHaptic light
  else
    clearInterval id ;;
    setCountdown None ;;
    modify (on_vision (set_isCountingDownRef false)) ;;
    speakText (Literal "Analyzing scene.") None ;;
    playHaptic success ;;
    mounted <- gets videoMounted ;;
    when_ mounted (emit (GenerateContent true)).

Definition onSceneResponse (r : Response) : M unit :=
  match r with
  | Resolved (Some text) => speakText (Literal text) None
  | Resolved None => skip
  | Rejected => speakText (Literal "Analysis failed.") None
  end.

(** One firing of the frame-sampler interval. *)
Definition frameTick : M unit :=
  mounted <- gets videoMounted ;;
  stream <- gets (fun s => srcObject (vision s)) ;;
  session <- gets (fun s => currentSessionRef (audio s)) ;;
  match mounted, stream, session with
  | true, Some _, Some id => emit (SendRealtimeInput id "image/jpeg")
  | _, _, _ => skip
  end.

(** ** Gesture engine (App.tsx 438-495) *)

(** [arr.slice(-n)] *)
Definition slice_last {A} (n : nat) (l : list A) : list A :=
  skipn (length l - n) l.

(** [Math.sqrt(dx^2 + dy^2) > r] for [r >= 0], as [dx^2 + dy^2 > r^2]. *)
Definition farther_than (r : Q) (p q : Point) : bool :=
  let dx := (x p - x q)%Q in
  let dy := (y p - y q)%Q in
  Qgtb (dx * dx + dy * dy) (r * r).

Definition handlePointerDown (p : Point) : M unit :=
  phase <- gets (fun s => appState (status s)) ;;
  blank <- gets (fun s => isBlank (modes s)) ;;
  match phase with
  | READY =>
      if blank then
        setIsBlank false ;;
        playHaptic medium
      else
        modify (on_gesture (set_pointsRef [p])) ;;
        setGestureTrail [p] ;;
        analyzing <- gets (fun s => isAnalyzing (status s)) ;;
        id <- setTimeout (HoldTimer analyzing) 450 ;;
        modify (on_gesture (set_holdTimerRef (Some id)))
  | _ => skip
  end.

(** The hold timer's callback. *)
Definition holdTimerFired (isAnalyzing : bool) : M unit :=
  speaking <- gets (fun s => isSpeaking (status s)) ;;
  counting <- gets (fun s => isCountingDownRef (vision s)) ;;
  if speaking || counting || isAnalyzing then skip
  else
    setIsMicHeld true ;;
    playHaptic double.

Definition handlePointerMove (p : Point) : M unit :=
  phase <- gets (fun s => appState (status s)) ;;
  blank <- gets (fun s => isBlank (modes s)) ;;
  points <- gets (fun s => pointsRef (gesture s)) ;;
  match phase, points, blank with
  | READY, first :: _, false =>
      modify (on_gesture (set_pointsRef (points ++ [p]))) ;;
      modify (on_status (fun st => set_gestureTrail (slice_last 30%nat (gestureTrail st ++ [p])) st)) ;;
      if farther_than 30 p first then
        timer <- gets (fun s => holdTimerRef (gesture s)) ;;
        match timer with
        | Some id =>
            clearTimeout id ;;
            modify (on_gesture (set_holdTimerRef None))
        | None => skip
        end
      else skip
  | _, _, _ => skip
  end.

(** What a double tap does, by mode; the two arguments are the values the
    tap timer's callback closed over. *)
Definition doubleTapAction (isGuidanceActive isAnalyzing : bool) : M unit :=
  nav <- gets (fun s => isNavMode (modes s)) ;;
  maps <- gets (fun s => isMapsMode (modes s)) ;;
  vis <- gets (fun s => visionActive (modes s)) ;;
  if nav then
    setIsGuidanceActive (negb isGuidanceActive) ;;
    playHaptic success ;;
    when_ isGuidanceActive (speakText (T "guidance_start") None)
  else if maps then describeLocation isAnalyzing
  else if vis then spawn triggerCountdownDescription
  else spawn startVisionMode.

(** The tap timer's callback. *)
Definition tapTimerFired (isGuidanceActive isAnalyzing : bool) : M unit :=
  taps <- gets (fun s => tapCountRef (gesture s)) ;;
  when_ (Nat.eqb taps 2%nat) (doubleTapAction isGuidanceActive isAnalyzing) ;;
  modify (on_gesture (set_tapCountRef 0%nat)).

Definition handlePointerUp : M unit :=
  phase <- gets (fun s => appState (status s)) ;;
  blank <- gets (fun s => isBlank (modes s)) ;;
  match phase, blank with
  | READY, false =>
      hold <- gets (fun s => holdTimerRef (gesture s)) ;;
      match hold with
      | Some id =>
          clearTimeout id ;;
          modify (on_gesture (set_holdTimerRef None))
      | None => skip
      end ;;
      held <- gets (fun s => isMicHeld (status s)) ;;
      (if held then
         setIsMicHeld false ;;
         playHaptic light
       else
         points <- gets (fun s => pointsRef (gesture s)) ;;
         match analyzeGesture points with
         | Some SWIPE_RIGHT =>
             nav <- gets (fun s => isNavMode (modes s)) ;;
             when_ (negb nav) startNavigatorMode
         | Some SWIPE_LEFT =>
             vis <- gets (fun s => visionActive (modes s)) ;;
             when_ (negb vis) (spawn startVisionMode)
         | Some SWIPE_DOWN =>
             maps <- gets (fun s => isMapsMode (modes s)) ;;
             when_ (negb maps) startMapsMode
         | Some SWIPE_UP =>
             stopCameraStream ;;
             setIsNavMode false ;;
             setIsMapsMode false ;;
             setIsGuidanceActive false ;;
             spawn closeSession ;;
             setIsBlank true ;;
             playHaptic heavy
         | None =>
             modify (on_gesture (fun g => set_tapCountRef (S (tapCountRef g)) g)) ;;
             old <- gets (fun s => tapTimerRef (gesture s)) ;;
             match old with
             | Some id => clearTimeout id
             | None => skip
             end ;;
             guidance <- gets (fun s => isGuidanceActive (modes s)) ;;
             analyzing <- gets (fun s => isAnalyzing (status s)) ;;
             id <- setTimeout (TapTimer guidance analyzing) 300 ;;
             modify (on_gesture (set_tapTimerRef (Some id)))
         end) ;;
      modify (on_gesture (set_pointsRef [])) ;;
      setGestureTrail []
  | _, _ => skip
  end.

(** ** Calibration sequencer (App.tsx 205-244, 497-504, 568-573) *)

(** The threshold of each step on the deltas from the baseline. *)
Definition threshold_met (step : nat) (dAlpha dBeta : Q) : bool :=
  match step with
  | 1 => Qltb dAlpha (-25) || Qgtb dAlpha 335
  | 2 => Qgtb dAlpha 25 || Qltb dAlpha (-335)
  | 3 => Qltb dBeta (-20)
  | 4 => Qgtb dBeta 20
  | _ => false
  end%nat.

Definition handleOrientation (event : OrientationEvent) : M unit :=
  match ev_alpha event, ev_beta event, ev_gamma event with
  | Some a, Some b, Some g =>
      initial <- gets (fun s => initialOrientation (calib s)) ;;
      match initial with
      | None =>
          modify (on_calib (set_initialOrientation
                              (Some {| alpha := a; beta := b; gamma := g |})))
      | Some o =>
          let dAlpha := (a - alpha o)%Q in
          let dBeta := (b - beta o)%Q in
          now <- gets (fun s => clock (browser s)) ;;
          last <- gets (fun s => lastPromptTime (calib s)) ;;
          if now - last <? 2500 then skip
          else
            let advance :=
              modify (on_calib (set_lastPromptTime now)) ;;
              modify (on_calib (set_initialOrientation
                                  (Some {| alpha := a; beta := b; gamma := g |}))) ;;
              playHaptic medium ;;
              modify (on_status (fun st => set_calibrationStep (calibrationStep st + 1)%nat st)) in
            step <- gets (fun s => calibrationStep (status s)) ;;
            when_ (threshold_met step dAlpha dBeta) advance
      end
  | _, _, _ => skip
  end.

(** The skip button's [onClick]. *)
Definition skipCalibration : M unit :=
  setAppState READY ;;
  playHaptic success ;;
  speakText (Literal "Calibration skipped.") None.

(** [requestOrientationAndSetLang], from the language picker. *)
Definition requestOrientationAndSetLang : M unit :=
  setAppState CALIBRATION ;;
  setCalibrationStep 0%nat ;;
  playHaptic medium.

Definition calibration_prompts : list string :=
  ["calibration_start"; "calibration_right"; "calibration_left";
   "calibration_up"; "calibration_down"; "calibration_done"]%string.

(** The prompt effect, run when [appState] or [calibrationStep] changed. *)
Definition calibrationPrompt : M unit :=
  phase <- gets (fun s => appState (status s)) ;;
  step <- gets (fun s => calibrationStep (status s)) ;;
  match phase with
  | CALIBRATION =>
      match nth_error calibration_prompts step with
      | Some key =>
          if Nat.eqb step 0%nat then speakText (T key) (Some ArmCalibrationIntro)
          else
            speakText (T key) None ;;
            if Nat.eqb step (length calibration_prompts - 1)%nat
            then _ <- setTimeout CalibrationDoneTimer 2500 ;; skip
            else skip
      | None => skip
      end
  | _ => skip
  end.

(** [utterance.onend] *)
Definition onSpeechEnd : M unit :=
  cb <- gets (fun s => speechOnEnd (browser s)) ;;
  modify (on_browser (set_speechOnEnd None)) ;;
  match cb with
  | Some ArmCalibrationIntro => _ <- setTimeout CalibrationIntroTimer 2000 ;; skip
  | None => skip
  end.

(** ** Event loop *)

Inductive Event :=
  | PointerDown (p : Point)
  | PointerMove (p : Point)
  | PointerUp
  | DeviceOrientation (e : OrientationEvent)
  | SkipCalibration
  | SelectLanguage
  | SpeechEnd
  | ServerMessage (audioData : option (list N)) (currentTime : Q)
  | SourceEnded (source : positive)
  | SessionClosed
  | IntervalTick (id : positive)
  | Position (ok : bool)
  | LocationResponse (r : Response)
  | SceneResponse (r : Response)
  | Tick.

Definition handler (e : Event) : M unit :=
  phase <- gets (fun s => appState (status s)) ;;
  match e with
  | PointerDown p => handlePointerDown p
  | PointerMove p => handlePointerMove p
  | PointerUp => handlePointerUp
  | DeviceOrientation ev =>
      match phase with CALIBRATION => handleOrientation ev | _ => skip end
  | SkipCalibration =>
      match phase with CALIBRATION => skipCalibration | _ => skip end
  | SelectLanguage =>
      match phase with LANGUAGE_PICKER => requestOrientationAndSetLang | _ => skip end
  | SpeechEnd => onSpeechEnd
  | ServerMessage audioData currentTime => onmessage audioData currentTime
  | SourceEnded source => onended source
  | SessionClosed => setVoiceStatus idle
  | IntervalTick id =>
      cb <- gets (fun s => List.find (fun e => Pos.eqb (fst e) id) (intervals (browser s))) ;;
      match cb with
      | Some (_, FrameSampler) => frameTick
      | Some (_, Countdown count) => countdownTick id count
      | None => skip
      end
  | Position ok => onPosition ok
  | LocationResponse r => onLocationResponse r
  | SceneResponse r => onSceneResponse r
  | Tick => skip
  end.

Definition timerFired (cb : TimerCallback) : M unit :=
  match cb with
  | HoldTimer isAnalyzing => holdTimerFired isAnalyzing
  | TapTimer isGuidanceActive isAnalyzing => tapTimerFired isGuidanceActive isAnalyzing
  | CalibrationIntroTimer => setCalibrationStep 1%nat
  | CalibrationDoneTimer => setAppState READY ;; playHaptic success
  end.

Definition phase_eqb (a b : AppPhase) : bool :=
  match a, b with
  | INIT, INIT | LANGUAGE_PICKER, LANGUAGE_PICKER
  | CALIBRATION, CALIBRATION | READY, READY => true
  | _, _ => false
  end.

(** One task of the event loop: an exception the task does not catch ends
    the task; afterwards React re-renders and runs the effects whose
    dependencies changed. *)
Definition task (m : M unit) : M unit :=
  phase <- gets (fun s => appState (status s)) ;;
  step <- gets (fun s => calibrationStep (status s)) ;;
  try_catch m skip ;;
  phase' <- gets (fun s => appState (status s)) ;;
  step' <- gets (fun s => calibrationStep (status s)) ;;
  if phase_eqb phase phase' && Nat.eqb step step' then skip
  else calibrationPrompt.

(** The pending timers that are due at [now], earliest deadline first and
    in arming order among equal deadlines. *)
Fixpoint insert_due (e : positive * Timer) (l : list (positive * Timer))
  : list (positive * Timer) :=
  match l with
  | [] => [e]
  | e' :: rest =>
      if deadline (snd e) <=? deadline (snd e') then e :: l
      else e' :: insert_due e rest
  end.

Definition due (now : Z) (pending : list (positive * Timer)) : list (positive * Timer) :=
  fold_right insert_due [] (List.filter (fun e => deadline (snd e) <=? now) pending).

(** A timer fires once, at its deadline, unless it was cleared. *)
Definition fireTimer (e : positive * Timer) : M unit :=
  pending <- gets (fun s => existsb (fun e' => Pos.eqb (fst e') (fst e)) (timers (browser s))) ;;
  if pending then
    clearTimeout (fst e) ;;
    modify (on_browser (fun b => set_clock (Z.max (clock b) (deadline (snd e))) b)) ;;
    task (timerFired (callback (snd e)))
  else skip.

(** Time passes until [now]: the timers that are due fire. *)
Definition advance (now : Z) : M unit :=
  ready <- gets (fun s => due now (timers (browser s))) ;;
  forEach ready fireTimer ;;
  modify (on_browser (fun b => set_clock (Z.max (clock b) now) b)).

(** A run: events with the times at which they are delivered. *)
Fixpoint run (events : list (Z * Event)) : M unit :=
  match events with
  | [] => skip
  | (now, e) :: rest =>
      advance now ;;
      task (handler e) ;;
      run rest
  end.

(** ** Initial state *)

(** The state at mount ([useState] and [useRef] initial values), in a
    browser whose clock reads [now]. *)
Definition initialBrowser (e : Env) (now : Z) : Browser :=
  {| clock := now; fresh := 1%positive; timers := []; intervals := [];
     contexts := ∅; sources := ∅; sessions := ∅; tracks := ∅;
     speechOnEnd := None; effects := []; env := e |}.

Definition initialApp (e : Env) (now : Z) : App :=
  {| modes := {| visionActive := false; isNavMode := false; isMapsMode := false;
                 isBlank := false; isGuidanceActive := false |};
     status := {| appState := INIT; calibrationStep := 0; voiceStatus := idle;
                  isSpeaking := false; isMicHeld := false; isAnalyzing := false;
                  countdown := None; gestureTrail := [] |};
     audio := {| currentSessionRef := None; audioContextInRef := None;
                 audioContextOutRef := None; nextStartTimeRef := 0;
                 activeSources := [] |};
     gesture := {| tapCountRef := 0; tapTimerRef := None; pointsRef := [];
                   holdTimerRef := None |};
     calib := {| initialOrientation := None; lastPromptTime := 0 |};
     vision := {| srcObject := None; frameIntervalRef := None;
                  isCountingDownRef := false |};
     browser := initialBrowser e now |}.

(** The main view with nothing active: where gestures are accepted. *)
Definition readyApp (e : Env) (now : Z) : App :=
  on_status (set_appState READY) (initialApp e now).

(** An environment that grants every request and in which no teardown
    call throws. *)
Definition friendly : Env :=
  {| throws := fun _ => false; cameraGranted := true; micGranted := true;
     connectOk := true |}.

(** ** Notions used in the statements *)



Definition cursor (s : App) : Q := nextStartTimeRef (audio s).
Definition trace (s : App) : list Effect := effects (browser s).

(** One more server message. *)
Definition deliver (s : App) (m : option (list N) * Q) : App :=
  exec (onmessage (fst m) (snd m)) s.

(** No teardown call throws. *)
Definition no_faults (s : App) : Prop :=
  forall id, throws (env (browser s)) id = false.

(** Every open remote session is the one [currentSessionRef] holds. *)
Definition one_session (s : App) : Prop :=
  forall id l, sessions (browser s) !! id = Some l -> isOpen l = true ->
    currentSessionRef (audio s) = Some id.

Definition source_stopped (s : App) (id : positive) : Prop :=
  exists n, sources (browser s) !! id = Some n /\ stopped n = true.
Definition closed_in (m : gmap positive AudioContext) (id : positive) : Prop :=
  exists c, m !! id = Some c /\ ctxState c = closed.
Definition context_closed (s : App) (id : positive) : Prop :=
  closed_in (contexts (browser s)) id.

(** The calls [closeSession] makes, in order. *)
Definition call_of {A} (f : positive -> A) (ref : option positive) : list A :=
  match ref with Some id => [f id] | None => [] end.

Definition teardown_calls (s : App) : list Effect :=
  map SourceStop (activeSources (audio s))
  ++ call_of SessionClose (currentSessionRef (audio s))
  ++ call_of ContextClose (audioContextInRef (audio s))
  ++ call_of ContextClose (audioContextOutRef (audio s)).

(** The state [closeSession] leaves, in closed form. *)
Definition stop_sources (bad : positive -> bool) (active : list positive)
    (m : gmap positive SourceNode) : gmap positive SourceNode :=
  fold_left (fun m id => if bad id then m else alter stop_node id m) active m.

Definition close_current (bad : positive -> bool) (ref : option positive)
    (m : gmap positive LiveSession) : gmap positive LiveSession :=
  match ref with
  | Some id => if bad id then m else alter close_session id m
  | None => m
  end.

Definition close_ref (bad : positive -> bool) (ref : option positive)
    (m : gmap positive AudioContext) : gmap positive AudioContext :=
  match ref with
  | Some id =>
      match m !! id with
      | Some c =>
          match ctxState c with
          | running => if bad id then m else <[id := close_context c]> m
          | closed => m
          end
      | None => m
      end
  | None => m
  end.

Definition teardown (s : App) : App :=
  let a := audio s in
  let b := browser s in
  let bad := throws (env b) in
  {| modes := modes s; status := status s;
     audio := {| currentSessionRef := None; audioContextInRef := None;
                 audioContextOutRef := None; nextStartTimeRef := 0;
                 activeSources := [] |};
     gesture := gesture s; calib := calib s; vision := vision s;
     browser :=
       {| clock := clock b; fresh := fresh b; timers := timers b;
          intervals := intervals b;
          contexts := close_ref bad (audioContextOutRef a)
                        (close_ref bad (audioContextInRef a) (contexts b));
          sources := stop_sources bad (activeSources a) (sources b);
          sessions := close_current bad (currentSessionRef a) (sessions b);
          tracks := tracks b; speechOnEnd := speechOnEnd b;
          effects := (((effects b ++ map SourceStop (activeSources a))
                       ++ call_of SessionClose (currentSessionRef a))
                       ++ call_of ContextClose (audioContextInRef a))
                       ++ call_of ContextClose (audioContextOutRef a);
          env := env b |} |}.

(** *** Taps *)

Definition pointer_moves (moves : list (Z * Point)) : list (Z * Event) :=
  map (fun m => (fst m, PointerMove (snd m))) moves.

(** A press at [down] on [p], the pointer moving through [moves], and the
    release at [up]. *)
Definition press (down : Z) (p : Point) (moves : list (Z * Point)) (up : Z)
  : list (Z * Event) :=
  (down, PointerDown p) :: pointer_moves moves ++ [(up, PointerUp)].


(** The main view accepts gestures. *)
Definition accepting (s : App) : Prop :=
  appState (status s) = READY /\ isBlank (modes s) = false.

(** No gesture is under way and no timer is pending. *)
Definition gesture_idle (s : App) : Prop :=
  accepting s /\ isMicHeld (status s) = false /\
  tapCountRef (gesture s) = 0%nat /\ timers (browser s) = [].



(** *** Notions used in the proofs *)

Definition total {A} (m : M A) : Prop := forall s, exists a, outcome m s = Returned a.

Definition preserves {X A} (proj : App -> X) (m : M A) : Prop :=
  forall s, proj (exec m s) = proj s.

(** The invariant of the audio session, and the handlers that keep it. *)
Definition session_inv (s : App) : Prop := no_faults s /\ one_session s.

Definition keeps {A} (m : M A) : Prop := forall s, session_inv s -> session_inv (exec m s).


Definition without_ref (ref : option positive) (l : list (positive * Timer))
  : list (positive * Timer) :=
  match ref with Some id => without id l | None => l end.

(** The state during a press: only the trace, the trail, the hold timer and
    the clock vary. *)
Definition pressed (points trail : list Point) (hold : option positive)
    (pending : list (positive * Timer)) (now : Z) (base : App) : App :=
  on_gesture (fun g => set_holdTimerRef hold (set_pointsRef points g))
    (on_status (set_gestureTrail trail)
       (on_browser (fun b => set_clock now (set_timers pending b)) base)).

(** The hold timer [held] is either pending or was cancelled by a
    movement. *)
Definition hold_state (held : positive) (holdTimer : Timer)
    (others : list (positive * Timer))
    (hold : option positive) (pending : list (positive * Timer)) : Prop :=
  (hold = Some held /\ pending = others ++ [(held, holdTimer)]) \/
  (hold = None /\ pending = others).



(** ** Concrete scenarios *)


(** The remote session's [close()] throws (object 4 below). *)
Definition session_close_throws : Env :=
  {| throws := fun id => Pos.eqb id 4; cameraGranted := true; micGranted := true;
     connectOk := true |}.

(** Navigator mode with its voice session open: microphone track 1,
    contexts 2 and 3, remote session 4. *)
Definition nav_session (e : Env) : App :=
  exec startNavigatorMode (readyApp e 0).

(** Four PCM bytes (two frames at 24 kHz), base64 encoded: "AAAAAA==". *)
Definition two_frames : list N := [65; 65; 65; 65; 65; 65; 61; 61]%N.

(** One chunk is scheduled for playback (source 5). *)
Definition playing_session (e : Env) : App :=
  exec (onmessage (Some two_frames) 0) (nav_session e).


Definition at_ (px py : Z) : Point := {| x := inject_Z px; y := inject_Z py |}.

(** A downward swipe from (100, 100) to (100, 300), between 0 and 50 ms. *)
Definition swipe_down : list (Z * Event) :=
  press 0 (at_ 100 100)
    [(10, at_ 100 150); (20, at_ 100 200); (30, at_ 100 250); (40, at_ 100 300)] 50.

(** Maps mode is entered, a double tap asks for the nearby places, and
    the pointer goes down again at 1200 ms, before the tap timer (due at
    1360 ms) has fired. *)
Definition hold_over_analysis : list (Z * Event) :=
  swipe_down
  ++ press 1000 (at_ 100 100) [] 1010
  ++ press 1050 (at_ 100 100) [] 1060
  ++ [(1200, PointerDown (at_ 100 100))].

(** Pointer traces: too short; to the right; to the left; downwards;
    upwards; along the diagonal. *)
Definition short_trace : list Point := [at_ 0 0; at_ 200 0].
Definition right_trace : list Point :=
  [at_ 0 0; at_ 30 2; at_ 60 4; at_ 90 6; at_ 120 8].
Definition left_trace : list Point :=
  [at_ 120 8; at_ 90 6; at_ 60 4; at_ 30 2; at_ 0 0].
Definition down_trace : list Point :=
  [at_ 0 0; at_ 2 30; at_ 4 60; at_ 6 90; at_ 8 120].
Definition up_trace : list Point :=
  [at_ 8 120; at_ 6 90; at_ 4 60; at_ 2 30; at_ 0 0].
Definition diagonal_trace : list Point :=
  [at_ 0 0; at_ 25 25; at_ 50 50; at_ 75 75; at_ 100 100].

(** Calibration at step 1, baseline (90, 0, 0), last advance at 1000 ms,
    clock at 4000 ms. *)
Definition calibrating : App :=
  on_browser (set_clock 4000)
    (on_calib (fun _ => {| initialOrientation :=
                             Some {| alpha := 90; beta := 0; gamma := 0 |};
                           lastPromptTime := 1000 |})
       (on_status (fun st => set_calibrationStep 1 (set_appState CALIBRATION st))
          (initialApp friendly 0))).


(** *** Base64, by groups *)

Local Open Scope N_scope.

(** The six-bit groups and the padding that [base64_encode] emits. *)
Fixpoint sextets (data : list N) : list N :=
  match data with
  | a :: b :: c :: rest =>
      a / 4 :: (a mod 4) * 16 + b / 16 :: (b mod 16) * 4 + c / 64 :: c mod 64
      :: sextets rest
  | [a; b] => [a / 4; (a mod 4) * 16 + b / 16; (b mod 16) * 4]
  | [a] => [a / 4; (a mod 4) * 16]
  | [] => []
  end.

Fixpoint padding (data : list N) : list N :=
  match data with
  | _ :: _ :: _ :: rest => padding rest
  | [_; _] => [pad_char]
  | [_] => [pad_char; pad_char]
  | [] => []
  end.

Definition octets (data : list N) : Prop := Forall (fun c => c < 256) data.

Local Close Scope N_scope.

(** * The rest of the application *)

(** ** Languages and UI strings (unnamed/part_000 13-24, App.tsx 8-80, 192-195) *)

Record AppLanguage := { code : string; name : string; label : string }.

Definition SUPPORTED_LANGUAGES : list AppLanguage :=
  [ {| code := "en-US"; name := "English"; label := "English" |};
    {| code := "hi-IN"; name := "Hindi"; label := "हिन्दी" |};
    {| code := "te-IN"; name := "Telugu"; label := "తెలుగు" |};
    {| code := "es-ES"; name := "Spanish"; label := "Español" |} ]%string.

(** The tables, keyed by language code and by string key.  Only the keys
    written in the source are looked up; what a JavaScript object inherits
    from its prototype is outside the model. *)
Definition UI_STRINGS : gmap string (gmap string string) :=
  list_to_map [
    ("en-US", list_to_map [
       ("camera_on", "Vision mode activated.");
       ("camera_off", "Vision mode off.");
       ("location_on", "Navigator mode activated.");
       ("location_off", "Navigator off.");
       ("ready", "System Ready");
       ("listening", "Listening...");
       ("speaking", "Vision Voice");
       ("nav_ready", "Guide Ready");
       ("hold_to_talk", "Hold to Talk");
       ("guidance_start", "Guidance started.");
       ("swipe_left_hint", "Vision");
       ("swipe_right_hint", "Navigator");
       ("swipe_down_hint", "Maps");
       ("swipe_up_hint", "Blank Screen");
       ("tap_to_start", "Tap to Initialize");
       ("describe_scene", "Scanning environment...");
       ("describe_location", "Accessing Google Maps data...");
       ("calibration_start", "Calibration started. Keep the device steady.");
       ("calibration_right", "Turn right.");
       ("calibration_left", "Turn left.");
       ("calibration_up", "Tilt up.");
       ("calibration_down", "Tilt down.");
       ("calibration_done", "All set.");
       ("move_detected", "Perfect.");
       ("skip_calibration", "Skip Calibration")]);
    ("hi-IN", list_to_map [
       ("camera_on", "दृष्टि मोड सक्रिय।");
       ("camera_off", "दृष्टि मोड बंद।");
       ("location_on", "नेविगेटर मोड सक्रिय।");
       ("location_off", "नेविगेटर बंद।");
       ("ready", "సిస్టమ్ సిద్ధంగా ఉంది");
       ("listening", "सुन रहा हूँ...");
       ("speaking", "विज़न वॉयस");
       ("calibration_start", "कैलिब्रेशन शुरू। फोन स्थिर रखें।");
       ("calibration_right", "दाईं ओर मुड़ें।");
       ("calibration_left", "बाईं ओर मुड़ें।");
       ("calibration_up", "ऊपर झुकें।");
       ("calibration_down", "नीचे झुकें।");
       ("calibration_done", "सब तैयार है।");
       ("skip_calibration", "छोड़ें")]);
    ("te-IN", list_to_map [
       ("camera_on", "విజన్ మోడ్ సక్రియం చేయబడింది.");
       ("camera_off", "విజన్ మోడ్ ఆఫ్.");
       ("ready", "సిస్టమ్ సిద్ధంగా ఉంది");
       ("listening", "వింటున్నాను...");
       ("speaking", "విజన్ వాయిస్");
       ("calibration_start", "కాలిబ్రేషన్ ప్రారంభమైంది.");
       ("calibration_right", "కుడి వైపుకు తిరగండి.");
       ("calibration_left", "ఎడమ వైపుకు తిరగండి.");
       ("calibration_up", "పైకి వంచండి.");
       ("calibration_down", "కిందికి వంచండి.");
       ("calibration_done", "అంతా సిద్ధం.");
       ("skip_calibration", "దాటవేయి")]);
    ("es-ES", list_to_map [
       ("camera_on", "Modo visión activado.");
       ("camera_off", "Modo visión apagado.");
       ("ready", "Sistema listo");
       ("listening", "Escuchando...");
       ("speaking", "Voz de Visión");
       ("calibration_start", "Calibración iniciada.");
       ("calibration_right", "Gira a la derecha.");
       ("calibration_left", "Gira a la izquierda.");
       ("calibration_up", "Inclina hacia arriba.");
       ("calibration_down", "Inclina hacia abajo.");
       ("calibration_done", "Todo listo.");
       ("skip_calibration", "Omitir")])]%string.

(** [entry || key] *)
Definition or_key (entry : option string) (key : string) : string :=
  match entry with
  | Some text => if String.eqb text "" then key else text
  | None => key
  end.

(** [UI_STRINGS['en-US']] *)
Definition english : gmap string string := default ∅ (UI_STRINGS !! "en-US"%string).

Definition t (selectedLanguage : option AppLanguage) (key : string) : string :=
  match selectedLanguage with
  | None => or_key (english !! key) key
  | Some lang => or_key (default english (UI_STRINGS !! code lang) !! key) key
  end.

(** The entry of the table of the language [code] under [key], if the
    table exists and has the key. *)
Definition entry (code key : string) : option string :=
  match UI_STRINGS !! code with
  | Some table => table !! key
  | None => None
  end.

(** The keys the application looks up: spoken ([speakText(t(...))]) and
    rendered. *)
Definition spoken_keys : list string :=
  calibration_prompts ++ ["describe_location"; "guidance_start"]%string.
Definition rendered_keys : list string :=
  ["skip_calibration"; "speaking"; "listening"; "ready"; "hold_to_talk"]%string.

(** ** PCM audio (App.tsx 114-123, 287-293) *)

(** One element of [new Int16Array(data.buffer)] (little-endian). *)
Definition int16_of_bytes (lo hi : byte) : Z :=
  let u := Z.of_N (Byte.to_N lo) + 256 * Z.of_N (Byte.to_N hi) in
  if u <? 32768 then u else u - 65536.

Fixpoint int16_array (data : list byte) : list Z :=
  match data with
  | lo :: hi :: rest => int16_of_bytes lo hi :: int16_array rest
  | _ => []
  end.

(** [buffer.getChannelData(channel)] once [decodeAudioData] has filled the
    buffer: frame [i] holds [dataInt16[i * numChannels + channel] / 32768.0]. *)
Definition channelData (data : list byte) (numChannels channel : nat) : list Q :=
  let dataInt16 := int16_array data in
  let frameCount := (length dataInt16 / numChannels)%nat in
  map (fun i => inject_Z (nth (i * numChannels + channel)%nat dataInt16 0%Z) / 32768)%Q
      (seq 0 frameCount).

(** Storing a number into an [Int16Array]: the fraction is dropped, then
    the integer wraps modulo 2^16 into [-32768, 32767]. *)
Definition toInt16 (v : Q) : Z :=
  let n := Z.quot (Qnum v) (Zpos (Qden v)) in
  (n + 32768) mod 65536 - 32768.

(** The two bytes of an [Int16Array] element seen through
    [new Uint8Array(int16.buffer)]. *)
Definition int16_bytes (v : Z) : list byte :=
  let u := v mod 65536 in
  [to_uint8 (Z.to_N (u mod 256)); to_uint8 (Z.to_N (u / 256))].

(** The microphone samples as 16-bit PCM:
    [int16[i] = inputData[i] * 32768]. *)
Definition pcm16 (inputData : list Q) : list byte :=
  flat_map (fun sample => int16_bytes (toInt16 (sample * 32768))) inputData.

(** [processor.onaudioprocess] of the session [session]. *)
Definition onaudioprocess (session : positive) (inputData : list Q) : M unit :=
  held <- gets (fun s => isMicHeld (status s)) ;;
  speaking <- gets (fun s => isSpeaking (status s)) ;;
  counting <- gets (fun s => isCountingDownRef (vision s)) ;;
  if negb held || speaking || counting then skip
  else
    match encode (pcm16 inputData) with
    | Some data => emit (SendRealtimeInput session "audio/pcm;rate=16000")
    | None => throw
    end.

(** ** The header buttons (App.tsx 609, 615) *)

(** The close button, shown while a mode is active. *)
Definition closeMode : M unit :=
  nav <- gets (fun s => isNavMode (modes s)) ;;
  vis <- gets (fun s => visionActive (modes s)) ;;
  maps <- gets (fun s => isMapsMode (modes s)) ;;
  when_ nav (setIsNavMode false) ;;
  when_ vis stopCameraStream ;;
  when_ maps (setIsMapsMode false) ;;
  spawn closeSession ;;
  playHaptic light.

(** The language button.  The main view unmounts, and with it the video
    element and its [srcObject]; the camera stream itself is not touched. *)
Definition openLanguagePicker : M unit :=
  setAppState LANGUAGE_PICKER ;;
  modify (on_vision (set_srcObject None)).

(** ** The application shell (App.tsx 144, 155, 497-527) *)

(** [isAwake], [selectedLanguage] and the [vision_voice_lang] entry of
    [localStorage], around the state of the main part. *)
Record Shell := {
  isAwake : bool;
  selectedLanguage : option AppLanguage;
  vision_voice_lang : option string;
  core : App
}.

Definition with_app (f : App -> App) (sh : Shell) : Shell :=
  {| isAwake := isAwake sh; selectedLanguage := selectedLanguage sh;
     vision_voice_lang := vision_voice_lang sh; core := f (core sh) |}.

(** [SUPPORTED_LANGUAGES.find(l => l.code === saved)] *)
Definition find_language (saved : string) : option AppLanguage :=
  List.find (fun l => String.eqb (code l) saved) SUPPORTED_LANGUAGES.

(** The render in the [INIT] phase: a saved language leads to [READY],
    none to the language picker. *)
Definition renderInit (sh : Shell) : Shell :=
  match appState (status (core sh)) with
  | INIT =>
      match vision_voice_lang sh with
      | Some saved =>
          if String.eqb saved "" then with_app (on_status (set_appState LANGUAGE_PICKER)) sh
          else
            {| isAwake := isAwake sh; selectedLanguage := find_language saved;
               vision_voice_lang := vision_voice_lang sh;
               core := on_status (set_appState READY) (core sh) |}
      | None => with_app (on_status (set_appState LANGUAGE_PICKER)) sh
      end
  | _ => sh
  end.

(** The click on the splash view. *)
Definition getStarted (sh : Shell) : Shell :=
  renderInit {| isAwake := true; selectedLanguage := selectedLanguage sh;
                vision_voice_lang := vision_voice_lang sh; core := core sh |}.

(** [requestOrientationAndSetLang(lang)], with what it stores. *)
Definition chooseLanguage (lang : AppLanguage) (sh : Shell) : Shell :=
  {| isAwake := isAwake sh; selectedLanguage := Some lang;
     vision_voice_lang := Some (code lang);
     core := exec (task requestOrientationAndSetLang) (core sh) |}.

(** The view that is rendered. *)
Inductive View :=
  | Splash | Loading | LanguageView | CalibrationView | BlankView | MainView.

Definition view (sh : Shell) : View :=
  if negb (isAwake sh) then Splash
  else
    match appState (status (core sh)) with
    | INIT => Loading
    | LANGUAGE_PICKER => LanguageView
    | CALIBRATION => CalibrationView
    | READY => if isBlank (modes (core sh)) then BlankView else MainView
    end.

(** What the user and the browser can do; a language is chosen by its
    position in the list of buttons. *)
Inductive UIEvent :=
  | GetStarted
  | ChooseLanguage (button : nat)
  | OpenLanguagePicker
  | CloseMode
  | AudioProcess (session : positive) (inputData : list Q)
  | AppEvent (e : Event).

Definition mode_active (m : Modes) : bool :=
  isNavMode m || visionActive m || isMapsMode m.

Definition ui_handler (e : UIEvent) (sh : Shell) : Shell :=
  match e with
  | GetStarted =>
      match view sh with Splash => getStarted sh | _ => sh end
  | ChooseLanguage button =>
      match view sh, nth_error SUPPORTED_LANGUAGES button with
      | LanguageView, Some lang => chooseLanguage lang sh
      | _, _ => sh
      end
  | OpenLanguagePicker =>
      match view sh with
      | MainView => with_app (exec (task openLanguagePicker)) sh
      | _ => sh
      end
  | CloseMode =>
      match view sh with
      | MainView =>
          if mode_active (modes (core sh)) then with_app (exec (task closeMode)) sh
          else sh
      | _ => sh
      end
  | AudioProcess session inputData =>
      with_app (exec (task (onaudioprocess session inputData))) sh
  | AppEvent SelectLanguage => sh
  | AppEvent e => with_app (exec (task (handler e))) sh
  end.

(** A run of the whole application: events with their delivery times.
    Each handler runs to its end, the awaited calls included, before the
    next event is handled. *)
Fixpoint ui_run (events : list (Z * UIEvent)) (sh : Shell) : Shell :=
  match events with
  | [] => sh
  | (now, e) :: rest => ui_run rest (ui_handler e (with_app (exec (advance now)) sh))
  end.

(** The application at mount, [saved] being what [localStorage] holds. *)
Definition mount (e : Env) (now : Z) (saved : option string) : Shell :=
  {| isAwake := false; selectedLanguage := None; vision_voice_lang := saved;
     core := initialApp e now |}.

(** ** Further notions used in the statements *)

(** At most one of the four mode flags is set. *)
Definition exclusive (m : Modes) : Prop :=
  (Nat.b2n (visionActive m) + Nat.b2n (isNavMode m)
   + Nat.b2n (isMapsMode m) + Nat.b2n (isBlank m) <= 1)%nat.

Definition one_mode (s : App) : Prop := exclusive (modes s).

(** The rendered trail is the last 30 points of the pointer trace. *)
Definition trail_follows (s : App) : Prop :=
  gestureTrail (status s) = slice_last 30 (pointsRef (gesture s)).

(** Playback marks the application as speaking. *)
Definition speaking_while_playing (s : App) : Prop :=
  NoDup (activeSources (audio s)) /\
  (activeSources (audio s) <> [] -> isSpeaking (status s) = true).

(** A handler keeps an invariant, however it ends. *)
Definition stable (I : App -> Prop) {A} (m : M A) : Prop :=
  forall s, I s -> I (exec m s).

(** The move has left the 30-unit circle around the first point. *)
Definition far_from (first : Point) (m : Z * Point) : bool :=
  farther_than 30 (snd m) first.

(** The opposite direction. *)
Definition opposite (g : Gesture) : Gesture :=
  match g with
  | SWIPE_RIGHT => SWIPE_LEFT
  | SWIPE_LEFT => SWIPE_RIGHT
  | SWIPE_DOWN => SWIPE_UP
  | SWIPE_UP => SWIPE_DOWN
  end.

(** A symbol of the base64 alphabet, or the padding character. *)
Definition base64_symbol (c : N) : Prop :=
  is_Some (base64_value c) \/ c = pad_char.

(** An invariant of the whole application: every handler, timer callback
    and effect keeps it, and it does not depend on the clock, the pending
    timers or the phase. *)
Definition invariant (I : App -> Prop) : Prop :=
  (forall e, stable I (handler e)) /\
  (forall cb, stable I (timerFired cb)) /\
  stable I calibrationPrompt /\
  stable I closeMode /\
  stable I openLanguagePicker /\
  (forall session inputData, stable I (onaudioprocess session inputData)) /\
  (forall f s, I s -> I (on_browser (fun b => set_timers (f b) b) s)) /\
  (forall f s, I s -> I (on_browser (fun b => set_clock (f b) b) s)) /\
  (forall p s, I s -> I (on_status (set_appState p) s)).

(** The calibration step stays within the six prompts. *)
Definition step_in_range (s : App) : Prop := (calibrationStep (status s) <= 5)%nat.

(** ** Further scenarios *)

(** Events of the main part, as events of the whole application. *)
Definition ui_events (events : list (Z * Event)) : list (Z * UIEvent) :=
  map (fun e => (fst e, AppEvent (snd e))) events.

(** A swipe to the right from (0, 0) to (120, 8), between 0 and 50 ms. *)
Definition swipe_right : list (Z * Event) :=
  press 0 (at_ 0 0)
    [(10, at_ 30 2); (20, at_ 60 4); (30, at_ 90 6); (40, at_ 120 8)] 50.

(** A launch with English saved, then the swipe to the right. *)
Definition launch_and_navigate : list (Z * UIEvent) :=
  (0, GetStarted) :: ui_events swipe_right.

(** The state while the countdown of [triggerCountdownDescription] stands
    at [count], [said] being what has been emitted since it began. *)
Definition counting_down (count : Z) (said : list Effect) (s : App) : App :=
  on_vision (set_isCountingDownRef true)
    (on_status (set_countdown (Some count))
       (on_browser (fun b =>
          set_speechOnEnd None
            (set_effects (effects b ++ said)
               (set_fresh (Pos.succ (fresh b))
                  (set_intervals (intervals b ++ [(fresh b, Countdown count)]) b)))) s)).

(** One firing of the interval [id]. *)
Definition interval_tick (id : positive) (s : App) : App :=
  exec (task (handler (IntervalTick id))) s.


(** A block of microphone samples within [-1, 1). *)
Definition microphone_block : list Q :=
  [0; 1 # 3; -(1); -(1 # 3); 32767 # 32768]%Q.

(** Three bytes, base64 encoded: "AAAA". *)
Definition three_bytes : list N := [65; 65; 65; 65]%N.

(** The pointer has been down for 450 ms on the idle main view. *)
Definition holding : App :=
  exec (run [(0, PointerDown (at_ 100 100)); (450, Tick)]) (readyApp friendly 0).

(** The blank screen. *)
Definition blank_screen : App := on_modes (set_isBlank true) (readyApp friendly 0).

(** The pointer has drawn [points]. *)
Definition drawn (points : list Point) (s : App) : App :=
  on_gesture (set_pointsRef points) s.

(** Vision mode with its camera and its voice session. *)
Definition vision_session : App := exec startVisionMode (readyApp friendly 0).


(** Calibration at its last orientation step. *)
Definition calibrating_last : App :=
  on_status (set_calibrationStep 4) calibrating.

(** The first launch, after the click on the splash view. *)
Definition first_launch : Shell := ui_handler GetStarted (mount friendly 0 None).

(** The language picker, as [requestOrientationAndSetLang] finds it. *)
Definition picking : App := on_status (set_appState LANGUAGE_PICKER) (initialApp friendly 0).

(** * Proofs *)

(** ** Proof kit *)

(** Runs a handler on a state given by its fields: unfolds the monad, the
    field accesses and the Web API calls, and nothing of the libraries. *)
Ltac run_M :=
  cbv beta iota zeta delta [
    bind ret throw try_catch gets modify skip when_ spawn exec
    outcome fst snd negb andb orb
    setAppState setCalibrationStep setVoiceStatus setIsSpeaking setIsMicHeld
    setIsAnalyzing setCountdown setGestureTrail setVisionActive setIsNavMode
    setIsMapsMode setIsBlank setIsGuidanceActive
    emit playHaptic speakText new_id setTimeout clearTimeout setInterval
    clearInterval call_throws sourceStop sessionClose contextClose trackStop
    getUserMedia newAudioContext liveConnect sourceStart decodeAudioData
    visionActive isNavMode isMapsMode isBlank isGuidanceActive appState
    calibrationStep voiceStatus isSpeaking isMicHeld isAnalyzing countdown
    gestureTrail currentSessionRef audioContextInRef audioContextOutRef
    nextStartTimeRef activeSources tapCountRef tapTimerRef pointsRef
    holdTimerRef initialOrientation lastPromptTime srcObject frameIntervalRef
    isCountingDownRef clock fresh timers intervals contexts sources sessions
    tracks speechOnEnd effects env modes status audio gesture calib vision
    browser
    throws cameraGranted micGranted connectOk sampleRate ctxState ev_alpha
    ev_beta ev_gamma
    set_visionActive set_isNavMode set_isMapsMode set_isBlank
    set_isGuidanceActive set_appState set_calibrationStep set_voiceStatus
    set_isSpeaking set_isMicHeld set_isAnalyzing set_countdown
    set_gestureTrail set_currentSessionRef set_audioContextInRef
    set_audioContextOutRef set_nextStartTimeRef set_activeSources
    set_tapCountRef set_tapTimerRef set_pointsRef set_holdTimerRef
    set_initialOrientation set_lastPromptTime set_srcObject
    set_frameIntervalRef set_isCountingDownRef set_clock set_fresh set_timers
    set_intervals set_contexts set_sources set_sessions set_tracks
    set_speechOnEnd set_effects set_env on_modes on_status on_audio
    on_gesture on_calib on_vision on_browser
  ].

(** Names every field of a state. *)
Ltac fields s :=
  destruct s as [[vis nav maps blank guid]
                 [phase step vstat speak held analyzing cdown trail]
                 [sess cin cout cur active]
                 [taps tapT pts holdT]
                 [orient lastT]
                 [src frameI counting]
                 [ck fr tms ivs cxs srcs sss trs onEnd efs [bad cam mic conn]]].

(** ** Base64 round trip *)

Local Open Scope N_scope.

Ltac euclid := zify; Z.to_euclidean_division_equations; lia.

Lemma list_ind3 {A} (P : list A -> Prop) :
  P [] -> (forall a, P [a]) -> (forall a b, P [a; b]) ->
  (forall a b c rest, P rest -> P (a :: b :: c :: rest)) ->
  forall l, P l.
Proof.
  intros H0 H1 H2 H3.
  fix IH 1. intros [|a [|b [|c rest]]];
    [apply H0 | apply H1 | apply H2 | apply H3, IH].
Qed.

Lemma base64_char_range i :
  i < 64 ->
  let c := base64_char i in
  (65 <= c <= 90 /\ c = 65 + i) \/ (97 <= c <= 122 /\ c = 71 + i) \/
  (48 <= c <= 57 /\ c + 4 = i) \/ (c = 43 /\ i = 62) \/ (c = 47 /\ i = 63).
Proof.
  intros Hi. unfold base64_char.
  destruct (N.ltb_spec i 26); [lia|].
  destruct (N.ltb_spec i 52); [lia|].
  destruct (N.ltb_spec i 62); [lia|].
  destruct (N.eqb_spec i 62); lia.
Qed.

Ltac case_compare :=
  repeat match goal with
  | |- context [N.leb ?a ?b] => destruct (N.leb_spec a b)
  | |- context [N.eqb ?a ?b] => destruct (N.eqb_spec a b)
  | _ => progress (cbn [andb orb negb])
  end.

Lemma base64_value_char i : i < 64 -> base64_value (base64_char i) = Some i.
Proof.
  intros Hi. pose proof (base64_char_range i Hi) as Hc. cbv zeta in Hc.
  unfold base64_value. case_compare; try (f_equal; lia); lia.
Qed.

Lemma base64_char_plain i :
  i < 64 ->
  is_ascii_whitespace (base64_char i) = false /\ (base64_char i =? pad_char) = false.
Proof.
  intros Hi. pose proof (base64_char_range i Hi) as Hc. cbv zeta in Hc.
  unfold is_ascii_whitespace, pad_char. case_compare; try lia; auto.
Qed.

Lemma base64_encode_split data :
  base64_encode data = map base64_char (sextets data) ++ padding data.
Proof.
  induction data as [| a | a b | a b c rest IH] using list_ind3; try reflexivity.
  cbn [base64_encode sextets padding map app]. now rewrite IH.
Qed.

Lemma sextets_range data : octets data -> Forall (fun v => v < 64) (sextets data).
Proof.
  unfold octets.
  induction data as [| a | a b | a b c rest IH] using list_ind3; intros H.
  - constructor.
  - inversion_clear H. repeat constructor; euclid.
  - inversion_clear H as [|? ? Ha H']. inversion_clear H' as [|? ? Hb _].
    repeat constructor; euclid.
  - inversion_clear H as [|? ? Ha H']. inversion_clear H' as [|? ? Hb H''].
    inversion_clear H'' as [|? ? Hc Hr].
    cbn [sextets]. repeat (constructor; [euclid|]). auto.
Qed.

Lemma base64_decode_sextets data : octets data -> base64_decode (sextets data) = data.
Proof.
  unfold octets.
  induction data as [| a | a b | a b c rest IH] using list_ind3; intros H.
  - reflexivity.
  - inversion_clear H. cbn. f_equal. euclid.
  - inversion_clear H as [|? ? Ha H']. inversion_clear H' as [|? ? Hb _].
    cbn [sextets base64_decode]. repeat f_equal; euclid.
  - inversion_clear H as [|? ? Ha H']. inversion_clear H' as [|? ? Hb H''].
    inversion_clear H'' as [|? ? Hc Hr].
    cbn [sextets base64_decode]. rewrite (IH Hr). repeat f_equal; euclid.
Qed.

Lemma base64_values_chars vs :
  Forall (fun v => v < 64) vs -> base64_values (map base64_char vs) = Some vs.
Proof.
  induction 1 as [|v vs Hv _ IH]; [reflexivity|].
  cbn [map base64_values]. now rewrite (base64_value_char v Hv), IH.
Qed.

Lemma filter_whitespace_chars vs pad :
  Forall (fun v => v < 64) vs -> Forall (fun c => c = pad_char) pad ->
  List.filter (fun c => negb (is_ascii_whitespace c)) (map base64_char vs ++ pad)
  = map base64_char vs ++ pad.
Proof.
  intros Hvs Hpad. induction Hvs as [|v vs Hv _ IH]; cbn [map app].
  - induction Hpad as [|c pad -> _ IH]; [reflexivity|].
    cbn [List.filter]. cbn. now f_equal.
  - cbn [List.filter]. destruct (base64_char_plain v Hv) as [-> _]. cbn. now rewrite IH.
Qed.

Lemma encode_shape data :
  exists k : nat,
    (padding data = [] /\ length (sextets data) = (4 * k)%nat) \/
    (padding data = [pad_char] /\ length (sextets data) = (4 * k + 3)%nat) \/
    (padding data = [pad_char; pad_char] /\ length (sextets data) = (4 * k + 2)%nat).
Proof.
  induction data as [| a | a b | a b c rest IH] using list_ind3.
  - exists 0%nat. auto.
  - exists 0%nat. auto.
  - exists 0%nat. auto.
  - destruct IH as [k IH]. exists (S k). cbn [padding sextets length].
    destruct IH as [[-> ->] | [[-> ->] | [-> ->]]]; [left | right; left | right; right];
      split; auto; lia.
Qed.

Lemma strip_padding_encode vs pad :
  Forall (fun v => v < 64) vs ->
  pad = [] \/ pad = [pad_char] \/ pad = [pad_char; pad_char] ->
  (N.of_nat (length (map base64_char vs ++ pad)) mod 4 =? 0) = true ->
  strip_padding (map base64_char vs ++ pad) = map base64_char vs.
Proof.
  intros Hvs Hpad Hlen. unfold strip_padding. rewrite Hlen.
  rewrite rev_app_distr, <- map_rev.
  assert (Hrev : Forall (fun v => v < 64) (rev vs)).
  { now apply List.Forall_rev. }
  assert (Hvs' : map base64_char vs = rev (map base64_char (rev vs))).
  { now rewrite map_rev, rev_involutive. }
  destruct Hpad as [-> | [-> | ->]]; cbn [rev app].
  - rewrite app_nil_r. destruct (rev vs) as [|v r]; [reflexivity|].
    inversion_clear Hrev as [|? ? Hv Hr]. cbn [map].
    destruct (base64_char_plain v Hv) as [_ ->]. now destruct (map base64_char r).
  - rewrite Hvs'. destruct (rev vs) as [|v r]; [reflexivity|].
    inversion_clear Hrev as [|? ? Hv Hr]. cbn [map].
    now destruct (base64_char_plain v Hv) as [_ ->].
  - rewrite Hvs'. reflexivity.
Qed.

Lemma to_uint8_to_N (b : byte) : to_uint8 (Byte.to_N b) = b.
Proof.
  unfold to_uint8. rewrite N.mod_small by (pose proof (Byte.to_N_bounded b); lia).
  now rewrite Byte.of_to_N.
Qed.

(** C10: for every byte array [bytes], [encode] returns a base64 string
    and [decode] of that string returns [bytes]. *)
Theorem encode_decode_roundtrip (bytes : list byte) :
  exists base64, encode bytes = Some base64 /\ decode base64 = Some bytes.
Proof.
  set (data := map Byte.to_N bytes).
  assert (Hoct : octets data).
  { unfold octets, data. apply List.Forall_forall. intros c Hc.
    apply in_map_iff in Hc as [b [<- _]]. pose proof (Byte.to_N_bounded b). lia. }
  exists (base64_encode data). split.
  - unfold encode, btoa. fold data.
    replace (forallb (fun c => c <=? 255) data) with true; [reflexivity|].
    symmetry. apply forallb_forall. intros c Hc. apply N.leb_le.
    unfold octets in Hoct. rewrite List.Forall_forall in Hoct.
    specialize (Hoct c Hc). lia.
  - unfold decode, atob.
    pose proof (sextets_range data Hoct) as Hsx.
    destruct (encode_shape data) as [k Hshape].
    assert (Hpad : Forall (fun c => c = pad_char) (padding data)).
    { destruct Hshape as [[-> _] | [[-> _] | [-> _]]]; repeat constructor. }
    rewrite base64_encode_split. rewrite (filter_whitespace_chars _ _ Hsx Hpad).
    rewrite strip_padding_encode; auto.
    + rewrite length_map.
      replace (N.of_nat (length (sextets data)) mod 4 =? 1) with false.
      * rewrite (base64_values_chars _ Hsx). cbn [option_map].
        rewrite (base64_decode_sextets _ Hoct). unfold data.
        rewrite map_map. f_equal. rewrite <- (map_id bytes) at 2.
        apply map_ext. intros b. apply to_uint8_to_N.
      * symmetry. apply N.eqb_neq.
        destruct Hshape as [[_ ->] | [[_ ->] | [_ ->]]]; euclid.
    + destruct Hshape as [[-> _] | [[-> _] | [-> _]]]; auto.
    + apply N.eqb_eq. rewrite length_app, length_map.
      destruct Hshape as [[-> ->] | [[-> ->] | [-> ->]]]; cbn [length]; euclid.
Qed.

Local Close Scope N_scope.

(** ** Gesture classification *)

Lemma Qgtb_true (a b : Q) : Qgtb a b = true <-> (b < a)%Q.
Proof.
  unfold Qgtb. rewrite negb_true_iff. split.
  - intros H. apply Qnot_le_lt. intros Hle.
    apply Qle_bool_iff in Hle. congruence.
  - intros H. destruct (Qle_bool a b) eqn:E; [|reflexivity].
    apply Qle_bool_iff in E. lra.
Qed.

Lemma Qgtb_false (a b : Q) : Qgtb a b = false <-> (a <= b)%Q.
Proof.
  unfold Qgtb. rewrite negb_false_iff. apply Qle_bool_iff.
Qed.

Lemma Qltb_true (a b : Q) : Qltb a b = true <-> (a < b)%Q.
Proof. apply Qgtb_true. Qed.

Lemma Qgtb_reflect (a b : Q) : reflect (b < a)%Q (Qgtb a b).
Proof.
  destruct (Qgtb a b) eqn:E; constructor.
  - now apply Qgtb_true.
  - apply Qgtb_false in E. lra.
Qed.

Lemma horizontal_swipe_true (a b : Q) :
  horizontal_swipe a b = true <-> (80 < a /\ 1.5 * b < a)%Q.
Proof.
  unfold horizontal_swipe. rewrite andb_true_iff, !Qgtb_true.
  split; intros [H1 H2]; split; lra.
Qed.

Lemma vertical_swipe_true (a b : Q) :
  vertical_swipe a b = true <-> (80 < b /\ 1.5 * a < b)%Q.
Proof.
  unfold vertical_swipe. rewrite andb_true_iff, !Qgtb_true.
  split; intros [H1 H2]; split; lra.
Qed.

Lemma swipe_conditions_disjoint (a b : Q) :
  horizontal_swipe a b = true -> vertical_swipe a b = true -> False.
Proof.
  intros Hh Hv.
  apply horizontal_swipe_true in Hh. apply vertical_swipe_true in Hv. lra.
Qed.

(** C7: for every pair of displacement magnitudes (non-negative or not)
    the horizontal and the vertical swipe condition never hold together:
    their conjunction evaluates to [false]. *)
Theorem swipe_axes_exclusive (absDx absDy : Q) :
  horizontal_swipe absDx absDy && vertical_swipe absDx absDy = false.
Proof.
  destruct (horizontal_swipe absDx absDy) eqn:Hh; [|reflexivity].
  destruct (vertical_swipe absDx absDy) eqn:Hv; [|reflexivity].
  destruct (swipe_conditions_disjoint _ _ Hh Hv).
Qed.

(** C1: a trace of fewer than 5 samples yields no swipe; with at least 5
    samples, if |dx| > 80 and |dx| > 1.5 |dy| the result is [SWIPE_RIGHT]
    when dx > 0 and [SWIPE_LEFT] otherwise; if |dy| > 80 and
    |dy| > 1.5 |dx| it is [SWIPE_DOWN] when dy > 0 and [SWIPE_UP]
    otherwise; in every remaining case the result is [None] (a tap). *)
Theorem analyzeGesture_classifies (points : list Point) :
  let dx := net_dx points in
  let dy := net_dy points in
  ((length points < 5)%nat -> analyzeGesture points = None) /\
  ((5 <= length points)%nat -> (80 < Qabs dx)%Q -> (1.5 * Qabs dy < Qabs dx)%Q ->
     ((0 < dx)%Q -> analyzeGesture points = Some SWIPE_RIGHT) /\
     (~ (0 < dx)%Q -> analyzeGesture points = Some SWIPE_LEFT)) /\
  ((5 <= length points)%nat -> (80 < Qabs dy)%Q -> (1.5 * Qabs dx < Qabs dy)%Q ->
     ((0 < dy)%Q -> analyzeGesture points = Some SWIPE_DOWN) /\
     (~ (0 < dy)%Q -> analyzeGesture points = Some SWIPE_UP)) /\
  ((5 <= length points)%nat ->
     ~ ((80 < Qabs dx)%Q /\ (1.5 * Qabs dy < Qabs dx)%Q) ->
     ~ ((80 < Qabs dy)%Q /\ (1.5 * Qabs dx < Qabs dy)%Q) ->
     analyzeGesture points = None).
Proof.
  cbv zeta. unfold analyzeGesture, net_dx, net_dy.
  set (dx := (x (last_point points) - x (first_point points))%Q).
  set (dy := (y (last_point points) - y (first_point points))%Q).
  destruct (Nat.ltb_spec (length points) 5) as [Hlt|Hge].
  { repeat split; intros; solve [reflexivity | lia]. }
  split; [lia|].
  destruct (horizontal_swipe (Qabs dx) (Qabs dy)) eqn:Hh;
  destruct (vertical_swipe (Qabs dx) (Qabs dy)) eqn:Hv.
  - destruct (swipe_conditions_disjoint _ _ Hh Hv).
  - apply horizontal_swipe_true in Hh.
    split; [|split].
    + intros _ _ _. destruct (Qgtb_reflect dx 0); split; intros; tauto.
    + intros _ H1 H2. lra.
    + intros _ Hn _. tauto.
  - apply vertical_swipe_true in Hv.
    split; [|split].
    + intros _ H1 H2. lra.
    + intros _ _ _. destruct (Qgtb_reflect dy 0); split; intros; tauto.
    + intros _ _ Hn. tauto.
  - split; [|split].
    + intros _ H1 H2.
      assert (horizontal_swipe (Qabs dx) (Qabs dy) = true)
        by (apply horizontal_swipe_true; split; assumption).
      congruence.
    + intros _ H1 H2.
      assert (vertical_swipe (Qabs dx) (Qabs dy) = true)
        by (apply vertical_swipe_true; split; assumption).
      congruence.
    + reflexivity.
Qed.

(** ** Audio session *)

Lemma forEach_sourceStop (l : list positive) (s : App) :
  forEach l (fun id => try_catch (sourceStop id) skip) s =
  (on_browser (fun b =>
     set_effects (effects b ++ map SourceStop l)
       (set_sources (stop_sources (throws (env b)) l (sources b)) b)) s,
   Returned tt).
Proof.
  revert s. induction l as [|id l IH]; intros s.
  - fields s. run_M. cbn [map]. now rewrite app_nil_r.
  - assert (Hstep : try_catch (sourceStop id) skip s =
       (on_browser (fun b =>
          set_effects (effects b ++ [SourceStop id])
            (set_sources (if throws (env b) id then sources b
                          else alter stop_node id (sources b)) b)) s,
        Returned tt)).
    { fields s. run_M. now destruct (bad id). }
    cbn [forEach]. unfold bind at 1. rewrite Hstep, IH.
    fields s. run_M. cbn [map stop_sources fold_left]. now rewrite <- app_assoc.
Qed.

Lemma stopAllAudio_closed (s : App) :
  stopAllAudio s =
  (on_audio (set_activeSources [])
     (on_browser (fun b =>
        set_effects (effects b ++ map SourceStop (activeSources (audio s)))
          (set_sources (stop_sources (throws (env b)) (activeSources (audio s)) (sources b)) b))
        s),
   Returned tt).
Proof.
  unfold stopAllAudio, bind, gets. rewrite forEach_sourceStop. reflexivity.
Qed.

Lemma closeSession_teardown (s : App) : closeSession s = (teardown s, Returned tt).
Proof.
  unfold closeSession. unfold bind at 1. rewrite stopAllAudio_closed.
  fields s. unfold teardown, close_ref, close_current, call_of.
  destruct sess as [sid|], cin as [iid|], cout as [oid|]; run_M;
    repeat match goal with
    | H : bad ?i = _ |- context [bad ?i] => rewrite H; run_M
    | |- context [bad ?i] => destruct (bad i) eqn:?; run_M
    | |- context [match ?m !! ?i with _ => _ end] =>
        destruct (m !! i) as [[? []]|] eqn:?; run_M
    end; rewrite ?app_nil_r; try reflexivity; try congruence.
Qed.

Lemma stop_node_twice (n : option SourceNode) :
  stop_node <$> (stop_node <$> n) = stop_node <$> n.
Proof. now destruct n. Qed.

Lemma stop_sources_lookup bad (l : list positive) (m : gmap positive SourceNode) id :
  stop_sources bad l m !! id =
  if existsb (Pos.eqb id) l && negb (bad id) then stop_node <$> m !! id else m !! id.
Proof.
  revert m. induction l as [|i l IH]; intros m; [reflexivity|].
  unfold stop_sources in *. cbn [fold_left existsb].
  rewrite IH. destruct (Pos.eqb_spec id i) as [->|Hne]; cbn [orb].
  - destruct (bad i) eqn:Hbad; cbn [negb andb].
    + now rewrite andb_false_r.
    + rewrite lookup_alter_eq, andb_true_r.
      destruct (existsb (Pos.eqb i) l); [apply stop_node_twice | reflexivity].
  - destruct (bad i); [reflexivity|]. now rewrite lookup_alter_ne.
Qed.

Lemma close_ref_keeps bad ref (m : gmap positive AudioContext) id :
  closed_in m id -> closed_in (close_ref bad ref m) id.
Proof.
  intros [c [Hc Hst]]. unfold close_ref.
  destruct ref as [i|]; [|now exists c].
  destruct (m !! i) as [[r []]|] eqn:Hi; cbn [ctxState]; try now exists c.
  destruct (bad i); [now exists c|].
  destruct (decide (i = id)) as [->|Hne].
  - rewrite Hc in Hi. injection Hi as ->. discriminate Hst.
  - exists c. now rewrite lookup_insert_ne.
Qed.

Lemma close_ref_closes bad (m : gmap positive AudioContext) id c :
  bad id = false -> m !! id = Some c ->
  closed_in (close_ref bad (Some id) m) id.
Proof.
  intros Hbad Hc. unfold close_ref. rewrite Hc.
  destruct c as [r []]; cbn [ctxState].
  - rewrite Hbad. eexists. rewrite lookup_insert_eq. split; reflexivity.
  - eexists. split; [exact Hc | reflexivity].
Qed.

Lemma close_ref_present bad ref (m : gmap positive AudioContext) id c :
  m !! id = Some c -> exists c', close_ref bad ref m !! id = Some c'.
Proof.
  intros Hc. unfold close_ref.
  destruct ref as [i|]; [|now exists c].
  destruct (m !! i) as [[r []]|] eqn:Hi; cbn [ctxState]; try now exists c.
  destruct (bad i); [now exists c|].
  destruct (decide (i = id)) as [->|Hne].
  - eexists. apply lookup_insert_eq.
  - exists c. now rewrite lookup_insert_ne.
Qed.

Lemma closeSession_returns (s : App) : outcome closeSession s = Returned tt.
Proof. unfold outcome. now rewrite closeSession_teardown. Qed.

Lemma closeSession_exec (s : App) : exec closeSession s = teardown s.
Proof. unfold exec. now rewrite closeSession_teardown. Qed.

Lemma teardown_twice (s : App) : teardown (teardown s) = teardown s.
Proof. fields s. unfold teardown. cbn. now rewrite !app_nil_r. Qed.

Lemma teardown_sources (s : App) (id : positive) (n : SourceNode) :
  In id (activeSources (audio s)) -> throws (env (browser s)) id = false ->
  sources (browser s) !! id = Some n ->
  sources (browser (teardown s)) !! id = Some (stop_node n).
Proof.
  intros Hin Hbad Hn. cbn [teardown browser sources].
  rewrite stop_sources_lookup, Hbad, Hn.
  replace (existsb (Pos.eqb id) (activeSources (audio s))) with true; [reflexivity|].
  symmetry. apply existsb_exists. exists id. split; [assumption | apply Pos.eqb_refl].
Qed.

Lemma teardown_session (s : App) (id : positive) (l : LiveSession) :
  currentSessionRef (audio s) = Some id -> throws (env (browser s)) id = false ->
  sessions (browser s) !! id = Some l ->
  sessions (browser (teardown s)) !! id = Some (close_session l).
Proof.
  intros Href Hbad Hl. cbn [teardown browser sessions]. rewrite Href.
  cbn [close_current]. rewrite Hbad. now rewrite lookup_alter_eq, Hl.
Qed.

Lemma teardown_contexts (s : App) (id : positive) (c : AudioContext) :
  audioContextInRef (audio s) = Some id \/ audioContextOutRef (audio s) = Some id ->
  throws (env (browser s)) id = false -> contexts (browser s) !! id = Some c ->
  context_closed (teardown s) id.
Proof.
  intros [Href|Href] Hbad Hc; unfold context_closed;
    cbn [teardown browser contexts]; rewrite Href.
  - apply close_ref_keeps. now apply close_ref_closes with c.
  - destruct (close_ref_present (throws (env (browser s)))
                (audioContextInRef (audio s)) _ _ _ Hc) as [c' Hc'].
    now apply close_ref_closes with c'.
Qed.

(** C9: [closeSession] never raises, whatever the state and whichever
    teardown calls throw; a second call changes nothing and does not raise
    either; the refs are cleared and the live set is empty; and every
    resource of the session whose own stop or close call does not throw is
    stopped or closed, whether or not the calls on other resources throw. *)
Theorem closeSession_fault_tolerant (s : App) :
  let s' := exec closeSession s in
  let bad := throws (env (browser s)) in
  outcome closeSession s = Returned tt /\
  closeSession s' = (s', Returned tt) /\
  audio s' = {| currentSessionRef := None; audioContextInRef := None;
                audioContextOutRef := None; nextStartTimeRef := 0;
                activeSources := [] |} /\
  (forall id n, In id (activeSources (audio s)) -> bad id = false ->
     sources (browser s) !! id = Some n ->
     sources (browser s') !! id = Some (stop_node n)) /\
  (forall id l, currentSessionRef (audio s) = Some id -> bad id = false ->
     sessions (browser s) !! id = Some l ->
     sessions (browser s') !! id = Some (close_session l)) /\
  (forall id c,
     audioContextInRef (audio s) = Some id \/ audioContextOutRef (audio s) = Some id ->
     bad id = false -> contexts (browser s) !! id = Some c ->
     context_closed s' id).
Proof.
  cbv zeta. rewrite closeSession_exec.
  split; [apply closeSession_returns|].
  split; [now rewrite closeSession_teardown, teardown_twice|].
  split; [reflexivity|].
  split; [intros id n; apply teardown_sources|].
  split; [intros id l; apply teardown_session|].
  intros id c. apply teardown_contexts.
Qed.

(** *** Playback scheduling *)

Lemma buffer_duration_nonneg (b : AudioBuffer) : (0 <= buffer_duration b)%Q.
Proof. unfold buffer_duration, Qle. cbn. lia. Qed.

Lemma onmessage_cases (audioData : option (list N)) (t : Q) (s : App) :
  let s' := exec (onmessage audioData t) s in
  (trace s' = trace s /\ (cursor s <= cursor s')%Q) \/
  (exists n,
     trace s' = trace s ++ [SourceStart (fresh (browser s)) (startAt n)] /\
     sources (browser s') !! fresh (browser s) = Some n /\
     startAt n = Qmax (cursor s) t /\
     cursor s' = (startAt n + duration n)%Q /\
     (0 <= duration n)%Q).
Proof.
  fields s. unfold onmessage, cursor, trace.
  destruct audioData as [[|c rest]|]; run_M; try (left; split; [reflexivity | lra]).
  destruct cout as [ctx|]; run_M; try (left; split; [reflexivity | lra]).
  assert (Hmax : (cur <= Qmax cur t)%Q) by apply Q.le_max_l.
  destruct (decode (c :: rest)) as [bytes|]; destruct speak;
    run_M; try (left; split; [reflexivity | exact Hmax]);
    destruct (Nat.even (length bytes)); run_M;
    try (left; split; [reflexivity | exact Hmax]);
    right;
    exists {| startAt := Qmax cur t;
              duration := buffer_duration
                {| frameCount := (length bytes / 2 / 1)%nat; bufferRate := 24000 |};
              stopped := false |};
    (split; [reflexivity|]); rewrite lookup_insert_eq;
    (split; [reflexivity|]); cbn [startAt duration]; repeat split;
    apply buffer_duration_nonneg.
Qed.

Lemma cursor_monotone (audioData : option (list N)) (t : Q) (s : App) :
  (cursor s <= cursor (exec (onmessage audioData t) s))%Q.
Proof.
  destruct (onmessage_cases audioData t s) as [[_ H] | [n (_ & _ & Hat & Hc & Hd)]];
    [exact H|].
  rewrite Hc, Hat. pose proof (Q.le_max_l (cursor s) t). lra.
Qed.

Lemma cursor_monotone_run (between : list (option (list N) * Q)) (s : App) :
  (cursor s <= cursor (fold_left deliver between s))%Q.
Proof.
  revert s. induction between as [|m l IH]; intros s; cbn [fold_left]; [lra|].
  specialize (IH (deliver s m)).
  pose proof (cursor_monotone (fst m) (snd m) s). unfold deliver in *. lra.
Qed.

Lemma not_scheduled {A} (l : list A) (a : A) : l ++ [a] <> l.
Proof.
  intros H. apply (f_equal (@length A)) in H. rewrite length_app in H. cbn in H. lia.
Qed.

Lemma scheduled_inv (audioData : option (list N)) (t : Q) (s : App) id at_ :
  trace (exec (onmessage audioData t) s) = trace s ++ [SourceStart id at_] ->
  exists n,
    sources (browser (exec (onmessage audioData t) s)) !! id = Some n /\
    startAt n = at_ /\
    at_ = Qmax (cursor s) t /\
    cursor (exec (onmessage audioData t) s) = (at_ + duration n)%Q /\
    (0 <= duration n)%Q.
Proof.
  intros Htrace.
  destruct (onmessage_cases audioData t s) as [[H _] | [n (H & Hn & Hat & Hc & Hd)]].
  - rewrite H in Htrace. symmetry in Htrace. now apply not_scheduled in Htrace.
  - rewrite H in Htrace. apply app_inv_head in Htrace.
    injection Htrace as <- <-. exists n. rewrite <- Hat. auto.
Qed.

(** C2: a chunk that is scheduled starts at
    max(nextStartTime, current playback clock time), and nextStartTime then
    is that start plus the chunk's duration; so for two scheduled chunks,
    whatever the clock readings at their arrival and whatever messages
    arrive between them, the second starts no earlier than the first's
    start plus the first's duration. *)
Theorem playback_no_overlap (s : App)
    (chunk1 : option (list N)) (t1 : Q)
    (between : list (option (list N) * Q))
    (chunk2 : option (list N)) (t2 : Q)
    (id1 id2 : positive) (start1 start2 : Q) :
  let s1 := exec (onmessage chunk1 t1) s in
  let s1' := fold_left deliver between s1 in
  let s2 := exec (onmessage chunk2 t2) s1' in
  trace s1 = trace s ++ [SourceStart id1 start1] ->
  trace s2 = trace s1' ++ [SourceStart id2 start2] ->
  exists n1 n2,
    sources (browser s1) !! id1 = Some n1 /\ startAt n1 = start1 /\
    sources (browser s2) !! id2 = Some n2 /\ startAt n2 = start2 /\
    start1 = Qmax (cursor s) t1 /\
    cursor s1 = (start1 + duration n1)%Q /\
    start2 = Qmax (cursor s1') t2 /\
    cursor s2 = (start2 + duration n2)%Q /\
    (start1 + duration n1 <= start2)%Q.
Proof.
  intros s1 s1' s2 H1 H2.
  apply scheduled_inv in H1 as (n1 & Hn1 & Ha1 & Hs1 & Hc1 & _).
  apply scheduled_inv in H2 as (n2 & Hn2 & Ha2 & Hs2 & Hc2 & _).
  exists n1, n2. repeat (split; [assumption|]).
  fold s1 in Hc1. rewrite <- Hc1, Hs2.
  pose proof (cursor_monotone_run between s1). fold s1' in H.
  pose proof (Q.le_max_l (cursor s1') t2). lra.
Qed.

(** *** Opening a session *)



Lemma openSession_one_session (m : SessionMode) (s : App) :
  (forall id l, sessions (browser s) !! id = Some l -> isOpen l = false) ->
  one_session (exec (openSession m) s).
Proof.
  fields s. unfold openSession, one_session. intros Hclosed. cbn in Hclosed.
  destruct mic, conn; run_M;
    try (intros id l Hl Ho; rewrite (Hclosed id l Hl) in Ho; discriminate).
  intros id l Hl Ho.
  destruct (decide (id = Pos.succ (Pos.succ (Pos.succ fr)))) as [->|Hne]; [reflexivity|].
  rewrite lookup_insert_ne in Hl by congruence.
  rewrite (Hclosed id l Hl) in Ho. discriminate.
Qed.

Lemma teardown_closes_sessions (s : App) :
  one_session s -> no_faults s ->
  forall id l, sessions (browser (exec closeSession s)) !! id = Some l -> isOpen l = false.
Proof.
  intros Hinv Hok id l. unfold exec. rewrite closeSession_teardown.
  cbn [fst teardown browser sessions]. unfold close_current.
  destruct (currentSessionRef (audio s)) as [cur|] eqn:Hcur.
  - rewrite Hok. destruct (decide (cur = id)) as [->|Hne].
    + rewrite lookup_alter_eq. destruct (sessions (browser s) !! id); [|discriminate].
      cbn. intros [= <-]. reflexivity.
    + rewrite lookup_alter_ne by assumption. intros Hl.
      destruct (isOpen l) eqn:Ho; [|reflexivity].
      specialize (Hinv id l Hl Ho). congruence.
  - intros Hl. destruct (isOpen l) eqn:Ho; [|reflexivity].
    specialize (Hinv id l Hl Ho). congruence.
Qed.

(** *** Vision mode without a camera *)


(** *** Calibration *)

(** The threshold of a step, as the claim words it. *)
Definition threshold (step : nat) (dAlpha dBeta : Q) : Prop :=
  match step with
  | 1 => (dAlpha < -25 \/ 335 < dAlpha)%Q
  | 2 => (25 < dAlpha \/ dAlpha < -335)%Q
  | 3 => (dBeta < -20)%Q
  | 4 => (20 < dBeta)%Q
  | _ => False
  end%nat.

Lemma threshold_met_iff (step : nat) (dAlpha dBeta : Q) :
  threshold_met step dAlpha dBeta = true <-> threshold step dAlpha dBeta.
Proof.
  destruct step as [|[|[|[|[|n]]]]]; cbn [threshold_met threshold];
    rewrite ?orb_true_iff, ?Qgtb_true, ?Qltb_true; try tauto.
  all: split; [discriminate | tauto].
Qed.

Lemma calibrationPrompt_step (s : App) :
  calibrationStep (status (exec calibrationPrompt s)) = calibrationStep (status s) /\
  calib (exec calibrationPrompt s) = calib s /\
  appState (status (exec calibrationPrompt s)) = appState (status s).
Proof.
  fields s. unfold calibrationPrompt. run_M.
  destruct phase; run_M; try (repeat split; reflexivity).
  destruct (nth_error calibration_prompts step); run_M; [|repeat split; reflexivity].
  destruct (Nat.eqb step 0); run_M; [repeat split; reflexivity|].
  destruct (Nat.eqb step (length calibration_prompts - 1)); run_M; repeat split; reflexivity.
Qed.

Lemma task_exec (m : M unit) (s : App) :
  exec (task m) s =
  let s1 := exec m s in
  if phase_eqb (appState (status s)) (appState (status s1))
     && Nat.eqb (calibrationStep (status s)) (calibrationStep (status s1))
  then s1 else exec calibrationPrompt s1.
Proof.
  unfold task, exec, bind, gets, try_catch, skip, ret.
  destruct (m s) as [s1 [[]|]]; cbn [fst snd];
    destruct (phase_eqb _ _ && Nat.eqb _ _); reflexivity.
Qed.

Lemma task_step (m : M unit) (s : App) :
  calibrationStep (status (exec (task m) s)) = calibrationStep (status (exec m s)) /\
  calib (exec (task m) s) = calib (exec m s) /\
  appState (status (exec (task m) s)) = appState (status (exec m s)).
Proof.
  rewrite task_exec. cbv zeta.
  destruct (phase_eqb _ _ && Nat.eqb _ _); [repeat split; reflexivity|].
  apply calibrationPrompt_step.
Qed.

Lemma handleOrientation_cases (e : OrientationEvent) (s : App) :
  let s' := exec (handleOrientation e) s in
  calibrationStep (status s') = calibrationStep (status s) \/
  exists a b g o,
    ev_alpha e = Some a /\ ev_beta e = Some b /\ ev_gamma e = Some g /\
    initialOrientation (calib s) = Some o /\
    2500 <= clock (browser s) - lastPromptTime (calib s) /\
    threshold_met (calibrationStep (status s)) (a - alpha o) (b - beta o) = true /\
    calibrationStep (status s') = S (calibrationStep (status s)) /\
    initialOrientation (calib s') = Some {| alpha := a; beta := b; gamma := g |} /\
    lastPromptTime (calib s') = clock (browser s).
Proof.
  fields s. destruct e as [[a|] [b|] [g|]]; unfold handleOrientation; run_M;
    try (left; reflexivity).
  destruct orient as [o|]; run_M; [|left; reflexivity].
  destruct (ck - lastT <? 2500) eqn:Hlt; run_M; [left; reflexivity|].
  apply Z.ltb_ge in Hlt.
  destruct (threshold_met step (a - alpha o) (b - beta o)) eqn:Hth.
  2:{ left. run_M. reflexivity. }
  right. exists a, b, g, o. run_M.
  repeat (split; [reflexivity || assumption|]).
  split; [f_equal; lia | split; reflexivity].
Qed.


(** Conversely, a qualifying reading does advance the step. *)
Lemma calibration_advances (s : App) (a b g : Q) (o : Orientation) :
  appState (status s) = CALIBRATION ->
  initialOrientation (calib s) = Some o ->
  2500 <= clock (browser s) - lastPromptTime (calib s) ->
  threshold (calibrationStep (status s)) (a - alpha o) (b - beta o) ->
  calibrationStep (status (exec (task (handler (DeviceOrientation
      {| ev_alpha := Some a; ev_beta := Some b; ev_gamma := Some g |}))) s))
  = S (calibrationStep (status s)).
Proof.
  intros Hphase Ho Hdue Hth.
  destruct (task_step (handler (DeviceOrientation
      {| ev_alpha := Some a; ev_beta := Some b; ev_gamma := Some g |})) s) as (-> & _).
  apply threshold_met_iff in Hth.
  fields s. cbn in Hphase, Ho, Hdue, Hth. subst.
  unfold handler, handleOrientation. run_M.
  destruct (Z.ltb_spec (ck - lastT) 2500); [lia|]. run_M. rewrite Hth.
  cbn. lia.
Qed.

(** ** Event loop *)

(** *** The event loop never stops *)

Lemma total_ret {A} (a : A) : total (ret a).
Proof. intros s. now exists a. Qed.

Lemma total_gets {A} (f : App -> A) : total (gets f).
Proof. intros s. now exists (f s). Qed.

Lemma total_modify (f : App -> App) : total (modify f).
Proof. intros s. now exists tt. Qed.

Lemma total_bind {A B} (m : M A) (k : A -> M B) :
  total m -> (forall a, total (k a)) -> total (bind m k).
Proof.
  intros Hm Hk s. unfold outcome, bind. destruct (Hm s) as [a Ha].
  unfold outcome in Ha. destruct (m s) as [s1 o]. cbn in Ha. subst o. apply Hk.
Qed.

Lemma total_try_catch (m h : M unit) : total h -> total (try_catch m h).
Proof.
  intros Hh s. unfold outcome, try_catch. destruct (m s) as [s1 [[]|]].
  - now exists tt.
  - apply Hh.
Qed.

Lemma total_if {A} (b : bool) (m1 m2 : M A) : total m1 -> total m2 -> total (if b then m1 else m2).
Proof. now destruct b. Qed.

Lemma total_forEach {A} (l : list A) (f : A -> M unit) :
  (forall a, total (f a)) -> total (forEach l f).
Proof.
  intros Hf. induction l as [|a l IH]; cbn [forEach].
  - apply total_ret.
  - apply total_bind; [apply Hf | intros _; exact IH].
Qed.

Create HintDb total discriminated.
#[local] Hint Resolve total_ret total_gets total_modify total_try_catch
  total_if total_forEach : total.
#[local] Hint Extern 2 (total (bind _ _)) => apply total_bind; [|intros ?] : total.
#[local] Hint Extern 1 (total (match ?x with _ => _ end)) => destruct x : total.
#[local] Hint Extern 3 (total _) => progress unfold skip, when_, spawn, emit,
  playHaptic, speakText, new_id, setTimeout, setAppState, setCalibrationStep : total.

Lemma total_calibrationPrompt : total calibrationPrompt.
Proof. unfold calibrationPrompt. auto 20 with total. Qed.

Lemma total_task (m : M unit) : total (task m).
Proof.
  pose proof total_calibrationPrompt. unfold task. auto 20 with total.
Qed.

Lemma total_advance (now : Z) : total (advance now).
Proof.
  unfold advance. apply total_bind; [auto with total|]. intros ready.
  apply total_bind; [|auto with total].
  apply total_forEach. intros e. unfold fireTimer.
  pose proof (total_task (timerFired (callback (snd e)))).
  unfold clearTimeout. auto 20 with total.
Qed.

Lemma exec_bind {A B} (m : M A) (k : A -> M B) (s : App) (a : A) :
  outcome m s = Returned a -> exec (bind m k) s = exec (k a) (exec m s).
Proof.
  unfold outcome, exec, bind. destruct (m s) as [s1 o]. cbn. now intros ->.
Qed.

Lemma run_cons (now : Z) (e : Event) (rest : list (Z * Event)) (s : App) :
  exec (run ((now, e) :: rest)) s =
  exec (run rest) (exec (task (handler e)) (exec (advance now) s)).
Proof.
  cbn [run].
  destruct (total_advance now s) as [[] Ha]. rewrite (exec_bind _ _ _ _ Ha).
  destruct (total_task (handler e) (exec (advance now) s)) as [[] Ht].
  now rewrite (exec_bind _ _ _ _ Ht).
Qed.

Lemma run_nil (s : App) : exec (run []) s = s.
Proof. reflexivity. Qed.

Lemma run_app (evs1 evs2 : list (Z * Event)) (s : App) :
  exec (run (evs1 ++ evs2)) s = exec (run evs2) (exec (run evs1) s).
Proof.
  revert s. induction evs1 as [|[now e] evs1 IH]; intros s; [reflexivity|].
  cbn [app]. now rewrite !run_cons, IH.
Qed.

(** *** What a handler leaves alone *)

Section Frame.
Context {X : Type} (proj : App -> X).

Lemma preserves_ret {A} (a : A) : preserves proj (ret a).
Proof. now intros s. Qed.

Lemma preserves_throw {A} : preserves proj (@throw A).
Proof. now intros s. Qed.

Lemma preserves_gets {A} (f : App -> A) : preserves proj (gets f).
Proof. now intros s. Qed.

Lemma preserves_modify (f : App -> App) :
  (forall s, proj (f s) = proj s) -> preserves proj (modify f).
Proof. intros H s. apply H. Qed.

Lemma preserves_bind {A B} (m : M A) (k : A -> M B) :
  preserves proj m -> (forall a, preserves proj (k a)) -> preserves proj (bind m k).
Proof.
  intros Hm Hk s. specialize (Hm s). unfold exec, bind in *.
  destruct (m s) as [s1 [a|]]; cbn [fst] in *; [|exact Hm].
  rewrite <- Hm. apply Hk.
Qed.

Lemma preserves_try_catch (m h : M unit) :
  preserves proj m -> preserves proj h -> preserves proj (try_catch m h).
Proof.
  intros Hm Hh s. specialize (Hm s). unfold exec, try_catch in *.
  destruct (m s) as [s1 [a|]]; cbn [fst] in *; [exact Hm|].
  rewrite <- Hm. apply Hh.
Qed.

Lemma preserves_forEach {A} (l : list A) (f : A -> M unit) :
  (forall a, preserves proj (f a)) -> preserves proj (forEach l f).
Proof.
  intros Hf. induction l as [|a l IH]; cbn [forEach].
  - apply preserves_ret.
  - apply preserves_bind; [apply Hf | intros _; exact IH].
Qed.
End Frame.

(** Splits a handler along its structure; what remains are the [modify]
    steps that touch the projection. *)
Ltac frame :=
  repeat first
    [ apply preserves_ret | apply preserves_throw | apply preserves_gets
    | apply preserves_modify; intros ?; reflexivity
    | apply preserves_bind; [|intros ?]
    | apply preserves_try_catch
    | apply preserves_forEach; intros ?
    | match goal with
      | |- preserves _ (match ?x with _ => _ end) => destruct x
      | |- preserves _ (if ?b then _ else _) => destruct b
      end
    | progress unfold skip, when_, spawn, emit, playHaptic, speakText, new_id,
        setTimeout, clearTimeout, setInterval, clearInterval, call_throws,
        setVoiceStatus, setIsSpeaking, setIsMicHeld, setIsAnalyzing,
        setCountdown, setGestureTrail, setVisionActive, setIsNavMode,
        setIsMapsMode, setIsBlank, setIsGuidanceActive,
        sourceStop, sessionClose, contextClose, trackStop, getUserMedia,
        newAudioContext, liveConnect, sourceStart, decodeAudioData ].







Lemma tick_exec (s : App) : exec (task (handler Tick)) s = s.
Proof.
  rewrite task_exec. cbv zeta.
  change (exec (handler Tick) s) with s.
  replace (phase_eqb (appState (status s)) (appState (status s))) with true
    by now destruct (appState (status s)).
  now rewrite Nat.eqb_refl.
Qed.

(** *** At most one session, along every run *)

Lemma keeps_ret {A} (a : A) : keeps (ret a).
Proof. now intros s. Qed.

Lemma keeps_throw {A} : keeps (@throw A).
Proof. now intros s. Qed.

Lemma keeps_gets {A} (f : App -> A) : keeps (gets f).
Proof. now intros s. Qed.

Lemma keeps_modify (f : App -> App) :
  (forall s, session_inv s -> session_inv (f s)) -> keeps (modify f).
Proof. intros H s. apply H. Qed.

Lemma keeps_bind {A B} (m : M A) (k : A -> M B) :
  keeps m -> (forall a, keeps (k a)) -> keeps (bind m k).
Proof.
  intros Hm Hk s Hs. specialize (Hm s Hs). unfold exec, bind in *.
  destruct (m s) as [s1 [a|]]; cbn [fst] in *; [|exact Hm].
  now apply Hk.
Qed.

Lemma keeps_try_catch (m h : M unit) : keeps m -> keeps h -> keeps (try_catch m h).
Proof.
  intros Hm Hh s Hs. specialize (Hm s Hs). unfold exec, try_catch in *.
  destruct (m s) as [s1 [a|]]; cbn [fst] in *; [exact Hm|].
  now apply Hh.
Qed.

Lemma keeps_forEach {A} (l : list A) (f : A -> M unit) :
  (forall a, keeps (f a)) -> keeps (forEach l f).
Proof.
  intros Hf. induction l as [|a l IH]; cbn [forEach].
  - apply keeps_ret.
  - apply keeps_bind; [apply Hf | intros _; exact IH].
Qed.

Lemma keeps_closeSession : keeps closeSession.
Proof.
  intros s [Hok Hone]. rewrite closeSession_exec. split.
  - exact Hok.
  - intros id l Hl Ho. pose proof (teardown_closes_sessions s Hone Hok id l) as H.
    rewrite closeSession_exec in H. rewrite (H Hl) in Ho. discriminate Ho.
Qed.

Lemma keeps_startVoiceSession (m : SessionMode) : keeps (startVoiceSession m).
Proof.
  intros s [Hok Hone].
  assert (Hseq : exec (startVoiceSession m) s = exec (openSession m) (exec closeSession s)).
  { unfold startVoiceSession, exec, bind. now rewrite closeSession_teardown. }
  rewrite Hseq. split.
  - assert (Henv : preserves (fun s => env (browser s)) (openSession m))
      by (unfold openSession; frame).
    unfold no_faults. rewrite Henv, closeSession_exec. exact Hok.
  - apply openSession_one_session. now apply teardown_closes_sessions.
Qed.

(** Splits a handler along its structure; a [modify] step keeps the
    invariant when it leaves the sessions, the session ref and the
    environment alone. *)
Ltac keep :=
  repeat first
    [ apply keeps_ret | apply keeps_throw | apply keeps_gets
    | apply keeps_closeSession | apply keeps_startVoiceSession
    | apply keeps_modify; intros ? [? ?]; split; assumption
    | apply keeps_bind; [|intros ?]
    | apply keeps_try_catch
    | apply keeps_forEach; intros ?
    | match goal with
      | |- keeps (match ?x with _ => _ end) => destruct x
      | |- keeps (if ?b then _ else _) => destruct b
      end
    | progress unfold skip, when_, spawn, emit, playHaptic, speakText, new_id,
        setTimeout, clearTimeout, setInterval, clearInterval,
        setAppState, setCalibrationStep,
        setVoiceStatus, setIsSpeaking, setIsMicHeld, setIsAnalyzing,
        setCountdown, setGestureTrail, setVisionActive, setIsNavMode,
        setIsMapsMode, setIsBlank, setIsGuidanceActive,
        trackStop, getUserMedia, sourceStart, decodeAudioData ].

Lemma keeps_startVisionMode : keeps startVisionMode.
Proof. unfold startVisionMode. keep. Qed.

Lemma keeps_stopCameraStream : keeps stopCameraStream.
Proof. unfold stopCameraStream. keep. Qed.

Lemma keeps_doubleTapAction (g a : bool) : keeps (doubleTapAction g a).
Proof.
  pose proof keeps_startVisionMode.
  unfold doubleTapAction, describeLocation, triggerCountdownDescription.
  repeat first [assumption | progress keep].
Qed.

Lemma keeps_handlePointerUp : keeps handlePointerUp.
Proof.
  pose proof keeps_startVisionMode. pose proof keeps_stopCameraStream.
  unfold handlePointerUp, startNavigatorMode, startMapsMode.
  repeat first [assumption | progress keep].
Qed.

Lemma keeps_handler (e : Event) : keeps (handler e).
Proof.
  pose proof keeps_handlePointerUp.
  unfold handler. apply keeps_bind; [keep|]. intros phase.
  destruct e; try assumption;
    unfold handlePointerDown, handlePointerMove, handleOrientation, skipCalibration,
      requestOrientationAndSetLang, onSpeechEnd, onmessage, onended, frameTick,
      countdownTick, onPosition, onLocationResponse, onSceneResponse;
    cbv zeta; keep.
Qed.


Lemma keeps_timerFired (cb : TimerCallback) : keeps (timerFired cb).
Proof.
  destruct cb; cbn [timerFired]; unfold holdTimerFired, tapTimerFired; keep.
  unfold describeLocation. keep.
Qed.




Lemma one_session_at_most_one (s : App) i j li lj :
  one_session s ->
  sessions (browser s) !! i = Some li -> isOpen li = true ->
  sessions (browser s) !! j = Some lj -> isOpen lj = true -> i = j.
Proof.
  intros Hinv Hi Hoi Hj Hoj.
  pose proof (Hinv i li Hi Hoi). pose proof (Hinv j lj Hj Hoj). congruence.
Qed.


(** ** Taps and holds *)

Lemma due_none (now : Z) (pending : list (positive * Timer)) :
  Forall (fun e => now < deadline (snd e)) pending -> due now pending = [].
Proof.
  intros H. unfold due. induction H as [|e l He _ IH]; [reflexivity|].
  cbn [List.filter]. destruct (Z.leb_spec (deadline (snd e)) now); [lia | exact IH].
Qed.

Lemma advance_idle (now : Z) (s : App) :
  Forall (fun e => now < deadline (snd e)) (timers (browser s)) ->
  exec (advance now) s = on_browser (fun b => set_clock (Z.max (clock b) now) b) s.
Proof.
  intros H. unfold advance, exec, bind, gets. rewrite (due_none _ _ H). reflexivity.
Qed.

Lemma advance_single (now : Z) (s : App) (id : positive) (tm : Timer) :
  timers (browser s) = [(id, tm)] -> deadline tm <= now ->
  exec (advance now) s =
  on_browser (fun b => set_clock (Z.max (clock b) now) b)
    (exec (task (timerFired (callback tm)))
       (on_browser (fun b => set_clock (Z.max (clock b) (deadline tm)) (set_timers [] b)) s)).
Proof.
  intros Htm Hdue. unfold advance.
  destruct (total_task (timerFired (callback tm))
    (on_browser (fun b => set_clock (Z.max (clock b) (deadline tm)) (set_timers [] b)) s))
    as [[] Ht].
  unfold outcome in Ht. unfold exec in *.
  fields s. cbn in Htm. subst tms. run_M.
  unfold due. cbn [List.filter snd fold_right insert_due].
  destruct (Z.leb_spec (deadline tm) now); [|lia].
  cbn [fold_right insert_due forEach]. unfold fireTimer. run_M.
  cbn [existsb]. rewrite Pos.eqb_refl. run_M. unfold without. cbn [List.filter].
  run_M. rewrite Pos.eqb_refl. run_M.
  revert Ht. run_M.
  match goal with |- context [task ?m ?st] => destruct (task m st) as [s1 o] end.
  cbn. intros ->. reflexivity.
Qed.

(** *** Pointer handlers in closed form *)

Ltac run_H :=
  unfold handler, task, handlePointerDown, handlePointerUp, handlePointerMove,
    calibrationPrompt; run_M.

Lemma pointerDown_exec (p : Point) (s : App) :
  accepting s ->
  exec (task (handler (PointerDown p))) s =
  on_gesture (fun g => set_holdTimerRef (Some (fresh (browser s))) (set_pointsRef [p] g))
    (on_status (set_gestureTrail [p])
       (on_browser (fun b =>
          set_timers (timers b ++ [(fresh b, {| deadline := clock b + 450;
                                                callback := HoldTimer (isAnalyzing (status s)) |})])
            (set_fresh (Pos.succ (fresh b)) b)) s)).
Proof.
  intros [Hphase Hblank]. fields s. cbn in Hphase, Hblank. subst phase blank.
  run_H. cbn [phase_eqb]. rewrite Nat.eqb_refl. run_M. reflexivity.
Qed.

Lemma pointerUp_tap_exec (s : App) :
  accepting s -> isMicHeld (status s) = false ->
  analyzeGesture (pointsRef (gesture s)) = None ->
  exec (task (handler PointerUp)) s =
  on_gesture (fun g =>
      {| tapCountRef := S (tapCountRef g); tapTimerRef := Some (fresh (browser s));
         pointsRef := []; holdTimerRef := None |})
    (on_status (set_gestureTrail [])
       (on_browser (fun b =>
          set_timers
            (without_ref (tapTimerRef (gesture s))
               (without_ref (holdTimerRef (gesture s)) (timers b))
             ++ [(fresh b, {| deadline := clock b + 300;
                              callback := TapTimer (isGuidanceActive (modes s))
                                                   (isAnalyzing (status s)) |})])
            (set_fresh (Pos.succ (fresh b)) b)) s)).
Proof.
  intros [Hphase Hblank] Hheld Hnone. fields s.
  cbn in Hphase, Hblank, Hheld, Hnone. subst phase blank held.
  destruct holdT as [h|], tapT as [t|]; run_H; rewrite Hnone; run_M;
    cbn [phase_eqb]; rewrite Nat.eqb_refl; run_M; reflexivity.
Qed.

Lemma pointerMove_exec (p first : Point) (rest : list Point) (s : App) :
  accepting s -> pointsRef (gesture s) = first :: rest ->
  exec (task (handler (PointerMove p))) s =
  let moved :=
    on_gesture (set_pointsRef (first :: rest ++ [p]))
      (on_status (fun st => set_gestureTrail (slice_last 30 (gestureTrail st ++ [p])) st) s) in
  if farther_than 30 p first then
    on_gesture (set_holdTimerRef None)
      (on_browser (fun b => set_timers (without_ref (holdTimerRef (gesture s)) (timers b)) b)
         moved)
  else moved.
Proof.
  intros [Hphase Hblank] Hpts. fields s. cbn in Hphase, Hblank, Hpts. subst phase blank pts.
  destruct (farther_than 30 p first) eqn:Hfar; [destruct holdT as [h|]|];
    run_H; rewrite Hfar; run_M; cbn [phase_eqb]; rewrite Nat.eqb_refl; run_M;
    reflexivity.
Qed.

(** *** A press that ends as a tap *)

Lemma without_fresh (id : positive) (t : Timer) (l : list (positive * Timer)) :
  Forall (fun e => (fst e < id)%positive) l -> without id (l ++ [(id, t)]) = l.
Proof.
  intros H. unfold without. rewrite List.filter_app. cbn [List.filter fst].
  rewrite Pos.eqb_refl. cbn [negb]. rewrite app_nil_r.
  induction H as [|e l He _ IH]; [reflexivity|].
  cbn [List.filter]. destruct (Pos.eqb_spec (fst e) id); [lia|]. cbn [negb]. now f_equal.
Qed.

Lemma without_absent {A} (id : positive) (l : list (positive * A)) :
  Forall (fun e => (fst e < id)%positive) l -> without id l = l.
Proof.
  intros H. unfold without. induction H as [|e l He _ IH]; [reflexivity|].
  cbn [List.filter]. destruct (Pos.eqb_spec (fst e) id); [lia|]. cbn [negb]. now f_equal.
Qed.

Section Press.
Variable base : App.
Variable first : Point.
Variable held : positive.
Variable holdTimer : Timer.
Variable others : list (positive * Timer).
Variable up : Z.

Hypothesis base_accepting : accepting base.
Hypothesis others_later : Forall (fun e => up < deadline (snd e)) others.
Hypothesis hold_later : up < deadline holdTimer.
Hypothesis held_fresh : Forall (fun e => (fst e < held)%positive) others.

Lemma hold_state_later hold pending :
  hold_state held holdTimer others hold pending -> Forall (fun e => up < deadline (snd e)) pending.
Proof.
  intros [[_ ->] | [_ ->]]; [|assumption].
  apply Forall_app. split; [assumption|]. now constructor.
Qed.

Lemma hold_state_without hold pending :
  hold_state held holdTimer others hold pending -> without_ref hold pending = others.
Proof.
  intros [[-> ->] | [-> ->]]; cbn [without_ref]; [|reflexivity].
  now apply without_fresh.
Qed.

End Press.


(** *** Collating taps *)










(** ** Concrete runs *)

Lemma analyzeGesture_classifies_witness :
  analyzeGesture short_trace = None /\
  analyzeGesture right_trace = Some SWIPE_RIGHT /\
  analyzeGesture left_trace = Some SWIPE_LEFT /\
  analyzeGesture down_trace = Some SWIPE_DOWN /\
  analyzeGesture up_trace = Some SWIPE_UP /\
  analyzeGesture diagonal_trace = None.
Proof.
  split.
  { apply (proj1 (analyzeGesture_classifies short_trace)). vm_compute. lia. }
  split.
  { apply (proj1 (proj2 (analyzeGesture_classifies right_trace)));
      vm_compute; solve [lia | reflexivity]. }
  split.
  { apply (proj1 (proj2 (analyzeGesture_classifies left_trace)));
      vm_compute; solve [lia | reflexivity | discriminate]. }
  split.
  { apply (proj1 (proj2 (proj2 (analyzeGesture_classifies down_trace))));
      vm_compute; solve [lia | reflexivity]. }
  split.
  { apply (proj1 (proj2 (proj2 (analyzeGesture_classifies up_trace))));
      vm_compute; solve [lia | reflexivity | discriminate]. }
  apply (proj2 (proj2 (proj2 (analyzeGesture_classifies diagonal_trace))));
    vm_compute; solve [lia | intros [_ H]; discriminate H].
Defined.

Lemma playback_no_overlap_witness :
  let s := nav_session friendly in
  let s1 := exec (onmessage (Some two_frames) (1 # 2)) s in
  let s1' := fold_left deliver [(None, 3 # 4)] s1 in
  let s2 := exec (onmessage (Some two_frames) 0) s1' in
  let start1 := 1 # 2 in
  let start2 := ((1 # 2) + (2 # 24000))%Q in
  trace s1 = trace s ++ [SourceStart 5 start1] /\
  trace s2 = trace s1' ++ [SourceStart 6 start2] /\
  exists n1 n2,
    sources (browser s1) !! 5%positive = Some n1 /\ startAt n1 = start1 /\
    sources (browser s2) !! 6%positive = Some n2 /\ startAt n2 = start2 /\
    start1 = Qmax (cursor s) (1 # 2) /\
    cursor s1 = (start1 + duration n1)%Q /\
    start2 = Qmax (cursor s1') 0 /\
    cursor s2 = (start2 + duration n2)%Q /\
    (start1 + duration n1 <= start2)%Q.
Proof.
  intros s s1 s1' s2 start1 start2.
  assert (H1 : trace s1 = trace s ++ [SourceStart 5 start1])
    by (vm_compute; reflexivity).
  assert (H2 : trace s2 = trace s1' ++ [SourceStart 6 start2])
    by (vm_compute; reflexivity).
  split; [exact H1|]. split; [exact H2|].
  exact (playback_no_overlap s (Some two_frames) (1 # 2) [(None, 3 # 4)]
           (Some two_frames) 0 5%positive 6%positive start1 start2 H1 H2).
Defined.




(** What gates the hold: with nothing active the callback holds the
    microphone; speech or a countdown at the time it fires, or an analysis
    at the time of the pointer-down, leave the state as it is. *)
Lemma holdTimerFired_gate (isAnalyzing : bool) (s : App) :
  exec (holdTimerFired isAnalyzing) s =
  if isSpeaking (status s) || isCountingDownRef (vision s) || isAnalyzing
  then s
  else on_browser (fun b => set_effects (effects b ++ [Haptic double]) b)
         (on_status (set_isMicHeld true) s).
Proof.
  fields s. unfold holdTimerFired. run_M.
  destruct speak, counting, isAnalyzing; reflexivity.
Qed.


(** C6, at the failing input: the pointer goes down at 1200 ms; the tap
    timer fires at 1360 ms and starts the nearby-places analysis; at
    1649 ms the analysis is running, the microphone is not held and the
    hold timer is pending with the [isAnalyzing = false] it closed over;
    at 1650 ms it has fired and the microphone is held, the analysis still
    running. *)
Theorem hold_fires_during_analysis :
  let before := exec (run (hold_over_analysis ++ [(1649, Tick)])) (readyApp friendly 0) in
  let after := exec (run (hold_over_analysis ++ [(1650, Tick)])) (readyApp friendly 0) in
  isMapsMode (modes before) = true /\
  isAnalyzing (status before) = true /\
  isMicHeld (status before) = false /\
  timers (browser before) = [(10%positive, {| deadline := 1650; callback := HoldTimer false |})] /\
  isAnalyzing (status after) = true /\
  isMicHeld (status after) = true /\
  trace after = trace before ++ [Haptic double].
Proof. vm_compute. repeat split. Qed.



Lemma closeSession_fault_tolerant_witness :
  let s := playing_session session_close_throws in
  let s' := exec closeSession s in
  outcome closeSession s = Returned tt /\
  closeSession s' = (s', Returned tt) /\
  throws (env (browser s)) 4 = true /\
  source_stopped s' 5 /\ context_closed s' 2 /\ context_closed s' 3.
Proof.
  intros s s'.
  destruct (closeSession_fault_tolerant s) as (Hout & Hagain & _ & Hsrc & _ & Hctx).
  split; [exact Hout|]. split; [exact Hagain|]. split; [reflexivity|].
  split.
  { eexists. split; [apply Hsrc; [vm_compute; auto | reflexivity | vm_compute; reflexivity]
                    | reflexivity]. }
  split.
  - apply (Hctx 2%positive {| sampleRate := 16000; ctxState := running |});
      [left; vm_compute; reflexivity | reflexivity | vm_compute; reflexivity].
  - apply (Hctx 3%positive {| sampleRate := 24000; ctxState := running |});
      [right; vm_compute; reflexivity | reflexivity | vm_compute; reflexivity].
Defined.

(** * The rest of the application: proofs *)

(** ** Gestures, mirrored *)

Lemma first_point_rev (points : list Point) :
  first_point (rev points) = last_point points.
Proof.
  unfold first_point, last_point.
  destruct points as [|p l] using rev_ind; [reflexivity|].
  now rewrite rev_app_distr, last_last.
Qed.

Lemma last_point_rev (points : list Point) :
  last_point (rev points) = first_point points.
Proof.
  unfold first_point, last_point. destruct points as [|p l]; [reflexivity|].
  cbn [rev hd]. apply last_last.
Qed.

Lemma Qabs_large_nonzero (d : Q) : (80 < Qabs d)%Q -> (0 < d)%Q \/ (d < 0)%Q.
Proof.
  apply Qabs_case; intros H1 H2; [left | right]; lra.
Qed.

(** X1: the gesture of a trace traversed backwards is the opposite gesture,
    and a trace that is no swipe backwards is no swipe forwards. *)
Theorem analyzeGesture_reverse (points : list Point) :
  analyzeGesture (rev points) = option_map opposite (analyzeGesture points).
Proof.
  unfold analyzeGesture. rewrite length_rev, first_point_rev, last_point_rev.
  destruct (length points <? 5)%nat; [reflexivity|]. cbv zeta.
  set (px := x (first_point points)). set (qx := x (last_point points)).
  set (py := y (first_point points)). set (qy := y (last_point points)).
  rewrite (Qabs_Qminus px qx), (Qabs_Qminus py qy).
  destruct (horizontal_swipe (Qabs (qx - px)) (Qabs (qy - py))) eqn:Hh.
  - apply horizontal_swipe_true in Hh as [Hbig _].
    apply Qabs_large_nonzero in Hbig.
    destruct (Qgtb_reflect (px - qx) 0), (Qgtb_reflect (qx - px) 0);
      cbn [option_map opposite]; try reflexivity; lra.
  - destruct (vertical_swipe (Qabs (qx - px)) (Qabs (qy - py))) eqn:Hv; [|reflexivity].
    apply vertical_swipe_true in Hv as [Hbig _].
    apply Qabs_large_nonzero in Hbig.
    destruct (Qgtb_reflect (py - qy) 0), (Qgtb_reflect (qy - py) 0);
      cbn [option_map opposite]; try reflexivity; lra.
Qed.

(** ** Base64: the shape of what [encode] returns *)

Local Open Scope N_scope.

Lemma encode_returns (bytes : list byte) :
  encode bytes = Some (base64_encode (map Byte.to_N bytes)).
Proof.
  unfold encode, btoa.
  replace (forallb (fun c => c <=? 255) (map Byte.to_N bytes)) with true; [reflexivity|].
  symmetry. apply forallb_forall. intros c Hc. apply N.leb_le.
  apply in_map_iff in Hc as [b [<- _]]. pose proof (Byte.to_N_bounded b). lia.
Qed.

Lemma bytes_octets (bytes : list byte) : octets (map Byte.to_N bytes).
Proof.
  unfold octets. apply List.Forall_forall. intros c Hc.
  apply in_map_iff in Hc as [b [<- _]]. pose proof (Byte.to_N_bounded b). lia.
Qed.

Lemma decode_base64_encode (bytes : list byte) :
  decode (base64_encode (map Byte.to_N bytes)) = Some bytes.
Proof.
  set (data := map Byte.to_N bytes).
  pose proof (bytes_octets bytes) as Hoct. fold data in Hoct.
  unfold decode, atob.
  pose proof (sextets_range data Hoct) as Hsx.
  destruct (encode_shape data) as [k Hshape].
  assert (Hpad : Forall (fun c => c = pad_char) (padding data)).
  { destruct Hshape as [[-> _] | [[-> _] | [-> _]]]; repeat constructor. }
  rewrite base64_encode_split. rewrite (filter_whitespace_chars _ _ Hsx Hpad).
  rewrite strip_padding_encode; auto.
  - rewrite length_map.
    replace (N.of_nat (length (sextets data)) mod 4 =? 1) with false.
    + rewrite (base64_values_chars _ Hsx). cbn [option_map].
      rewrite (base64_decode_sextets _ Hoct). unfold data.
      rewrite map_map. f_equal. rewrite <- (map_id bytes) at 2.
      apply map_ext. intros b. apply to_uint8_to_N.
    + symmetry. apply N.eqb_neq.
      destruct Hshape as [[_ ->] | [[_ ->] | [_ ->]]]; euclid.
  - destruct Hshape as [[-> _] | [[-> _] | [-> _]]]; auto.
  - apply N.eqb_eq. rewrite length_app, length_map.
    destruct Hshape as [[-> ->] | [[-> ->] | [-> ->]]]; cbn [length]; euclid.
Qed.

Lemma base64_encode_length (data : list N) :
  length (base64_encode data) = (4 * ((length data + 2) / 3))%nat.
Proof.
  induction data as [| a | a b | a b c rest IH] using list_ind3; try reflexivity.
  cbn [base64_encode length]. rewrite IH.
  replace (S (S (S (length rest))) + 2)%nat with ((length rest + 2) + 1 * 3)%nat by lia.
  rewrite Nat.div_add by lia. lia.
Qed.

Lemma base64_char_symbol (i : N) : i < 64 -> base64_symbol (base64_char i).
Proof. intros Hi. left. rewrite (base64_value_char i Hi). now eexists. Qed.

Lemma base64_encode_symbols (data : list N) :
  octets data -> Forall base64_symbol (base64_encode data).
Proof.
  intros Hoct. rewrite base64_encode_split. apply Forall_app. split.
  - pose proof (sextets_range data Hoct) as Hsx.
    induction Hsx as [|v vs Hv _ IH]; cbn [map]; constructor; auto.
    now apply base64_char_symbol.
  - destruct (encode_shape data) as [k [[-> _] | [[-> _] | [-> _]]]];
      repeat constructor; now right.
Qed.

(** X2: [encode] turns [n] bytes into [4 * ceil(n / 3)] characters, each a
    symbol of the base64 alphabet or the padding character. *)
Theorem encode_length_alphabet (bytes : list byte) :
  exists base64,
    encode bytes = Some base64 /\
    length base64 = (4 * ((length bytes + 2) / 3))%nat /\
    Forall base64_symbol base64.
Proof.
  exists (base64_encode (map Byte.to_N bytes)). split; [apply encode_returns|]. split.
  - now rewrite base64_encode_length, length_map.
  - apply base64_encode_symbols, bytes_octets.
Qed.

Local Close Scope N_scope.

(** ** PCM audio *)







(** *** The microphone path *)

Lemma to_N_to_uint8 (n : N) : (n < 256)%N -> Byte.to_N (to_uint8 n) = n.
Proof.
  intros Hn. unfold to_uint8. rewrite N.mod_small by assumption.
  destruct (Byte.of_N n) as [b|] eqn:Hb.
  - now apply Byte.to_of_N.
  - apply Byte.of_N_None_iff in Hb. lia.
Qed.

Lemma toInt16_range (v : Q) : -32768 <= toInt16 v < 32768.
Proof.
  unfold toInt16. cbv zeta.
  pose proof (Z.mod_pos_bound (Qnum v ÷ Z.pos (Qden v) + 32768) 65536). lia.
Qed.

Lemma int16_array_bytes (v : Z) (rest : list byte) :
  -32768 <= v < 32768 ->
  int16_array (int16_bytes v ++ rest) = v :: int16_array rest.
Proof.
  intros Hv. unfold int16_bytes. cbv zeta.
  change (int16_of_bytes (to_uint8 (Z.to_N ((v mod 65536) mod 256)))
            (to_uint8 (Z.to_N ((v mod 65536) / 256))) :: int16_array rest
          = v :: int16_array rest).
  f_equal. unfold int16_of_bytes.
  pose proof (Z.mod_pos_bound v 65536 ltac:(lia)) as Hu.
  set (u := v mod 65536) in *.
  rewrite !to_N_to_uint8 by (zify; Z.to_euclidean_division_equations; lia).
  rewrite !Z2N.id by (Z.to_euclidean_division_equations; lia).
  cbv zeta.
  replace (u mod 256 + 256 * (u / 256)) with u
    by (Z.to_euclidean_division_equations; lia).
  unfold u. destruct (Z.ltb_spec (v mod 65536) 32768);
    Z.to_euclidean_division_equations; lia.
Qed.

Lemma int16_array_pcm16 (inputData : list Q) :
  int16_array (pcm16 inputData) = map (fun sample => toInt16 (sample * 32768)) inputData.
Proof.
  induction inputData as [|sample rest IH]; [reflexivity|].
  unfold pcm16 in *. cbn [flat_map map].
  rewrite int16_array_bytes by apply toInt16_range. now rewrite IH.
Qed.

Lemma pcm16_length (inputData : list Q) :
  length (pcm16 inputData) = (2 * length inputData)%nat.
Proof.
  induction inputData as [|sample rest IH]; [reflexivity|].
  unfold pcm16 in *. cbn [flat_map]. rewrite length_app, IH. cbn. lia.
Qed.

(** X4: the microphone samples survive the way to the server: what
    [onaudioprocess] encodes decodes to the same bytes, two per sample,
    which read as 16-bit integers are the samples scaled by 32768 and
    stored into an [Int16Array]. *)
Theorem microphone_payload_roundtrip (inputData : list Q) :
  exists data,
    encode (pcm16 inputData) = Some data /\
    decode data = Some (pcm16 inputData) /\
    length (pcm16 inputData) = (2 * length inputData)%nat /\
    int16_array (pcm16 inputData)
    = map (fun sample => toInt16 (sample * 32768)) inputData.
Proof.
  exists (base64_encode (map Byte.to_N (pcm16 inputData))).
  split; [apply encode_returns|]. split; [apply decode_base64_encode|].
  split; [apply pcm16_length | apply int16_array_pcm16].
Qed.

Lemma map_nth_seq {A B} (f : A -> B) (l : list A) (d : A) :
  map (fun i => f (nth i l d)) (seq 0 (length l)) = map f l.
Proof.
  induction l as [|a l IH]; [reflexivity|].
  cbn [length seq map nth]. f_equal.
  rewrite <- seq_shift, map_map. exact IH.
Qed.

Lemma channelData_mono (data : list byte) :
  channelData data 1 0 = map (fun v => inject_Z v / 32768)%Q (int16_array data).
Proof.
  unfold channelData. cbv zeta. rewrite Nat.div_1_r.
  rewrite <- (map_nth_seq (fun v => inject_Z v / 32768)%Q (int16_array data) 0).
  apply map_ext. intros i. now rewrite Nat.mul_1_r, Nat.add_0_r.
Qed.

Lemma truncated (n : Z) (d : positive) :
  let q := n * 32768 ÷ Z.pos d in
  Z.abs (q * Z.pos d - n * 32768) < Z.pos d /\
  (0 <= n -> 0 <= q /\ q * Z.pos d <= n * 32768) /\
  (n <= 0 -> q <= 0 /\ n * 32768 <= q * Z.pos d).
Proof.
  cbv zeta.
  pose proof (Z.quot_rem (n * 32768) (Z.pos d) ltac:(lia)) as Hqr.
  pose proof (Z.rem_bound_abs (n * 32768) (Z.pos d) ltac:(lia)) as Hr.
  split; [lia|]. split; intros Hn.
  - pose proof (Z.rem_nonneg (n * 32768) (Z.pos d) ltac:(lia) ltac:(lia)).
    pose proof (Z.quot_pos (n * 32768) (Z.pos d) ltac:(lia) ltac:(lia)). lia.
  - pose proof (Z.rem_nonpos (n * 32768) (Z.pos d) ltac:(lia) ltac:(lia)).
    pose proof (Z.quot_opp_l (n * 32768) (Z.pos d) ltac:(lia)) as Ho.
    pose proof (Z.quot_pos (- (n * 32768)) (Z.pos d) ltac:(lia) ltac:(lia)). lia.
Qed.

Lemma toInt16_scaled (sample : Q) :
  toInt16 (sample * 32768)
  = (Qnum sample * 32768 ÷ Z.pos (Qden sample) + 32768) mod 65536 - 32768.
Proof.
  unfold toInt16. destruct sample as [n d]. cbn [Qmult Qnum Qden].
  now rewrite Pos.mul_1_r.
Qed.

Lemma quantised (sample : Q) :
  (-1 <= sample < 1)%Q ->
  (Qabs (inject_Z (toInt16 (sample * 32768)) / 32768 - sample) < 1 # 32768)%Q.
Proof.
  intros [Hlo Hhi]. rewrite toInt16_scaled. destruct sample as [n d].
  unfold Qle, Qlt in Hlo, Hhi. cbn in Hlo, Hhi. cbn [Qnum Qden].
  destruct (truncated n d) as (Hrem & Hpos & Hneg). cbv zeta in *.
  set (q := n * 32768 ÷ Z.pos d) in *.
  assert (Hq : -32768 <= q < 32768) by nia.
  replace ((q + 32768) mod 65536) with (q + 32768) by (rewrite Z.mod_small; lia).
  apply Qabs_Qlt_condition.
  unfold Qlt, Qdiv, Qmult, Qinv, Qminus, Qplus, Qopp, inject_Z. cbn.
  rewrite ?Pos2Z.inj_mul. split; nia.
Qed.

(** X5: a microphone sample in [-1, 1) reaches the server within 2^-15 of
    its value. *)
Theorem microphone_quantisation (inputData : list Q) :
  Forall (fun sample => (-1 <= sample < 1)%Q) inputData ->
  Forall2 (fun sample sent => (Qabs (sent - sample) < 1 # 32768)%Q)
    inputData (channelData (pcm16 inputData) 1 0).
Proof.
  intros Hrange. rewrite channelData_mono, int16_array_pcm16, map_map.
  induction Hrange as [|sample rest Hs _ IH]; cbn [map]; constructor; [|exact IH].
  now apply quantised.
Qed.

(** X6: a sample at or above full scale wraps: in [1, 2) it reaches the
    server as a negative sample, 2 below its value (up to 2^-15). *)
Theorem microphone_full_scale_wraps (sample : Q) :
  (1 <= sample < 2)%Q ->
  exists sent,
    channelData (pcm16 [sample]) 1 0 = [sent] /\
    (sample - 2 - (1 # 32768) < sent <= sample - 2)%Q /\ (sent < 0)%Q.
Proof.
  intros [Hlo Hhi]. rewrite channelData_mono, int16_array_pcm16. cbn [map].
  eexists. split; [reflexivity|].
  rewrite toInt16_scaled. destruct sample as [n d].
  unfold Qle, Qlt in Hlo, Hhi. cbn in Hlo, Hhi. cbn [Qnum Qden].
  destruct (truncated n d) as (Hrem & Hpos & Hneg). cbv zeta in *.
  set (q := n * 32768 ÷ Z.pos d) in *.
  assert (Hq : 32768 <= q < 65536) by nia.
  replace ((q + 32768) mod 65536) with (q - 32768)
    by (Z.to_euclidean_division_equations; lia).
  unfold Qlt, Qle, Qdiv, Qmult, Qinv, Qminus, Qplus, Qopp, inject_Z. cbn.
  rewrite ?Pos2Z.inj_mul. repeat split; nia.
Qed.

(** ** Invariants of the whole application *)

(** *** The shell around the handlers *)

Lemma getStarted_app (sh : Shell) :
  core (getStarted sh) = core sh \/
  exists p, core (getStarted sh) = on_status (set_appState p) (core sh).
Proof.
  unfold getStarted, renderInit. cbn [core vision_voice_lang].
  destruct (appState (status (core sh))); try (left; reflexivity).
  destruct (vision_voice_lang sh) as [saved|]; [destruct (String.eqb saved "")|];
    right; eexists; reflexivity.
Qed.

Lemma languageView_phase (sh : Shell) :
  view sh = LanguageView -> appState (status (core sh)) = LANGUAGE_PICKER.
Proof.
  unfold view. destruct (isAwake sh); cbn [negb]; [|discriminate].
  destruct (appState (status (core sh))); try discriminate; [reflexivity|].
  now destruct (isBlank (modes (core sh))).
Qed.

Lemma selectLanguage_exec (s : App) :
  appState (status s) = LANGUAGE_PICKER ->
  exec (task (handler SelectLanguage)) s = exec (task requestOrientationAndSetLang) s.
Proof.
  intros Hphase.
  assert (H : handler SelectLanguage s = requestOrientationAndSetLang s).
  { unfold handler, bind, gets. now rewrite Hphase. }
  unfold task, exec, bind, gets, try_catch. now rewrite H.
Qed.

Section Stable.
Variable I : App -> Prop.

Lemma stable_ret {A} (a : A) : stable I (ret a).
Proof. now intros s. Qed.

Lemma stable_throw {A} : stable I (@throw A).
Proof. now intros s. Qed.

Lemma stable_gets {A} (f : App -> A) : stable I (gets f).
Proof. now intros s. Qed.

Lemma stable_modify (f : App -> App) : (forall s, I s -> I (f s)) -> stable I (modify f).
Proof. intros H s. apply H. Qed.

Lemma stable_bind {A B} (m : M A) (k : A -> M B) :
  stable I m -> (forall a, stable I (k a)) -> stable I (bind m k).
Proof.
  intros Hm Hk s Hs. specialize (Hm s Hs). unfold exec, bind in *.
  destruct (m s) as [s1 [a|]]; cbn [fst] in *; [|exact Hm].
  now apply Hk.
Qed.

Lemma stable_try_catch (m h : M unit) : stable I m -> stable I h -> stable I (try_catch m h).
Proof.
  intros Hm Hh s Hs. specialize (Hm s Hs). unfold exec, try_catch in *.
  destruct (m s) as [s1 [a|]]; cbn [fst] in *; [exact Hm|].
  now apply Hh.
Qed.

Lemma stable_forEach {A} (l : list A) (f : A -> M unit) :
  (forall a, stable I (f a)) -> stable I (forEach l f).
Proof.
  intros Hf. induction l as [|a l IH]; cbn [forEach].
  - apply stable_ret.
  - apply stable_bind; [apply Hf | intros _; exact IH].
Qed.

Lemma stable_task (m : M unit) : stable I calibrationPrompt -> stable I m -> stable I (task m).
Proof.
  intros Hp Hm. unfold task.
  repeat (apply stable_bind; [apply stable_gets|intros ?]).
  apply stable_bind; [apply stable_try_catch; [exact Hm | apply stable_ret]|intros _].
  repeat (apply stable_bind; [apply stable_gets|intros ?]).
  destruct (_ && _); [apply stable_ret | exact Hp].
Qed.

Hypothesis I_invariant : invariant I.

Lemma stable_advance (now : Z) : stable I (advance now).
Proof.
  destruct I_invariant as (_ & Htimer & Hprompt & _ & _ & _ & Htimers & Hclock & _).
  unfold advance.
  apply stable_bind; [apply stable_gets|intros ready].
  apply stable_bind.
  - apply stable_forEach. intros e. unfold fireTimer.
    apply stable_bind; [apply stable_gets|intros pending].
    destruct pending; [|apply stable_ret].
    apply stable_bind; [apply stable_modify, Htimers|intros _].
    apply stable_bind; [apply stable_modify, Hclock|intros _].
    apply stable_task; [exact Hprompt | apply Htimer].
  - intros _. apply stable_modify, Hclock.
Qed.

Lemma ui_handler_invariant (e : UIEvent) (sh : Shell) :
  I (core sh) -> I (core (ui_handler e sh)).
Proof.
  destruct I_invariant
    as (Hhandler & _ & Hprompt & Hclose & Hpicker & Haudio & _ & _ & Hphase).
  intros Hs. destruct e as [| button | | | session inputData | e]; cbn [ui_handler].
  - destruct (view sh); try exact Hs.
    destruct (getStarted_app sh) as [-> | [p ->]]; [exact Hs | now apply Hphase].
  - destruct (view sh) eqn:Hview; try exact Hs.
    destruct (nth_error SUPPORTED_LANGUAGES button) as [lang|]; [|exact Hs].
    cbn [chooseLanguage core].
    rewrite <- (selectLanguage_exec (core sh)) by now apply languageView_phase.
    apply stable_task; [exact Hprompt|apply Hhandler|exact Hs].
  - destruct (view sh); exact Hs || (cbn [with_app core]; now apply stable_task).
  - destruct (view sh); try exact Hs.
    destruct (mode_active _); [|exact Hs]. cbn [with_app core]. now apply stable_task.
  - cbn [with_app core]. apply stable_task; [exact Hprompt|apply Haudio|exact Hs].
  - destruct e; try exact Hs; cbn [with_app core];
      (apply stable_task; [exact Hprompt|apply Hhandler|exact Hs]).
Qed.

Lemma ui_run_invariant (events : list (Z * UIEvent)) (sh : Shell) :
  I (core sh) -> I (core (ui_run events sh)).
Proof.
  revert sh. induction events as [|[now e] rest IH]; intros sh Hs; [exact Hs|].
  cbn [ui_run]. apply IH, ui_handler_invariant. cbn [with_app core].
  now apply stable_advance.
Qed.
End Stable.

(** Splits a handler along its structure; [leaf] settles the [modify]
    steps and [known] the handlers dealt with on their own. *)
Ltac stab leaf known :=
  repeat first
    [ known
    | apply stable_ret | apply stable_throw | apply stable_gets
    | apply stable_modify; solve [leaf]
    | apply stable_bind; [|intros ?]
    | apply stable_try_catch
    | apply stable_forEach; intros ?
    | match goal with
      | |- stable _ (match ?x with _ => _ end) => destruct x
      | |- stable _ (if ?b then _ else _) => destruct b
      end
    | progress unfold skip, when_, spawn, emit, playHaptic, speakText, new_id,
        setTimeout, clearTimeout, setInterval, clearInterval, call_throws,
        setAppState, setCalibrationStep,
        setVoiceStatus, setIsSpeaking, setIsMicHeld, setIsAnalyzing,
        setCountdown, setGestureTrail, setVisionActive, setIsNavMode,
        setIsMapsMode, setIsBlank, setIsGuidanceActive,
        sourceStop, sessionClose, contextClose, trackStop, getUserMedia,
        newAudioContext, liveConnect, sourceStart, decodeAudioData
    | progress unfold handler, timerFired, holdTimerFired, tapTimerFired,
        doubleTapAction, describeLocation, onPosition, onLocationResponse,
        triggerCountdownDescription, countdownTick, onSceneResponse, frameTick,
        skipCalibration, requestOrientationAndSetLang, calibrationPrompt,
        onSpeechEnd, closeMode, openLanguagePicker, onaudioprocess
    | lazymatch goal with
      | |- stable _ (handlePointerDown _) => unfold handlePointerDown
      | |- stable _ (handlePointerMove _) => unfold handlePointerMove
      | |- stable _ handlePointerUp => unfold handlePointerUp
      | |- stable _ startNavigatorMode => unfold startNavigatorMode
      | |- stable _ startMapsMode => unfold startMapsMode
      | |- stable _ startVisionMode => unfold startVisionMode
      | |- stable _ stopCameraStream => unfold stopCameraStream
      | |- stable _ (startVoiceSession _) => unfold startVoiceSession
      | |- stable _ (openSession _) => unfold openSession
      | |- stable _ closeSession => unfold closeSession
      | |- stable _ stopAllAudio => unfold stopAllAudio
      | |- stable _ (onmessage _ _) => unfold onmessage
      | |- stable _ (onended _) => unfold onended
      | |- stable _ (handleOrientation _) => unfold handleOrientation
      end ].

(** *** The calibration step stays in range *)

Ltac step_leaf :=
  idtac; let s := fresh "s" in let Hs := fresh "Hs" in
  intros s Hs; first [exact Hs | unfold step_in_range in *; cbn; lia].

Lemma handleOrientation_step (ev : OrientationEvent) :
  stable step_in_range (handleOrientation ev).
Proof.
  intros s Hs. unfold step_in_range in *.
  destruct (handleOrientation_cases ev s) as [-> | (a & b & g & o & H)]; [exact Hs|].
  destruct H as (_ & _ & _ & _ & _ & Hth & -> & _).
  destruct (calibrationStep (status s)) as [|[|[|[|[|n]]]]]; cbn in Hth; try lia;
    discriminate Hth.
Qed.

(** The nine parts of [invariant]. *)
Ltac invariant_parts :=
  unfold invariant;
  refine (conj _ (conj _ (conj _ (conj _ (conj _ (conj _ (conj _ (conj _ _)))))))).

Ltac step_known :=
  idtac;
  lazymatch goal with
  | |- stable _ (handleOrientation _) => apply handleOrientation_step
  end.

Lemma step_in_range_invariant : invariant step_in_range.
Proof.
  invariant_parts;
    try (intros; stab step_leaf step_known); try (intros; assumption).
Qed.

(** Runs a handler symbolically, through the voice session's teardown and
    opening. *)
Ltac sym :=
  repeat first
    [ progress run_M
    | rewrite closeSession_teardown
    | progress cbv beta iota zeta delta
        [teardown startVoiceSession openSession stopCameraStream videoMounted
         startNavigatorMode startMapsMode startVisionMode call_of] ].

(** Splits on the variables the run is stuck on. *)
Ltac sym_cases :=
  sym;
  repeat (match goal with
          | |- context [match ?x with _ => _ end] => is_var x; destruct x
          | |- context [if ?b then _ else _] => is_var b; destruct b
          end; sym).

(** *** One mode at a time *)


Ltac mode_leaf :=
  idtac; let s := fresh "s" in let Hs := fresh "Hs" in
  intros s Hs;
  first [exact Hs
        | destruct s as [[vis nav maps blank guid] ? ? ? ? ? ?];
          unfold one_mode, exclusive in *; cbn in *;
          destruct vis, nav, maps, blank; cbn in *; lia].

Ltac count_modes :=
  cbn; repeat match goal with |- context [Nat.b2n ?b] => is_var b; destruct b end;
  cbn in *; lia.

Lemma startNavigatorMode_one_mode : stable one_mode startNavigatorMode.
Proof.
  intros s _. fields s. unfold one_mode, exclusive. sym_cases; count_modes.
Qed.

Lemma startMapsMode_one_mode : stable one_mode startMapsMode.
Proof.
  intros s _. fields s. unfold one_mode, exclusive. sym_cases; count_modes.
Qed.

Lemma startVisionMode_one_mode : stable one_mode startVisionMode.
Proof.
  intros s _. fields s. unfold one_mode, exclusive. sym_cases; count_modes.
Qed.

Lemma swipeUp_one_mode :
  stable one_mode
    (stopCameraStream ;;
     setIsNavMode false ;;
     setIsMapsMode false ;;
     setIsGuidanceActive false ;;
     spawn closeSession ;;
     setIsBlank true ;;
     playHaptic heavy).
Proof.
  intros s _. fields s. unfold one_mode, exclusive. sym_cases; count_modes.
Qed.

Ltac mode_known :=
  idtac;
  lazymatch goal with
  | |- stable _ startNavigatorMode => apply startNavigatorMode_one_mode
  | |- stable _ startMapsMode => apply startMapsMode_one_mode
  | |- stable _ startVisionMode => apply startVisionMode_one_mode
  | |- stable _ (bind stopCameraStream (fun _ => bind (setIsNavMode false) _)) =>
      apply swipeUp_one_mode
  end.

Lemma one_mode_invariant : invariant one_mode.
Proof.
  invariant_parts;
    try (intros; stab mode_leaf mode_known); try (intros; assumption).
Qed.

(** *** The rendered trail follows the pointer *)

Lemma slice_last_short {A} (n : nat) (l : list A) :
  (length l <= n)%nat -> slice_last n l = l.
Proof.
  intros H. unfold slice_last. now replace (length l - n)%nat with 0%nat by lia.
Qed.

Lemma slice_last_length {A} (n : nat) (l : list A) : (length (slice_last n l) <= n)%nat.
Proof. unfold slice_last. rewrite length_skipn. lia. Qed.

Lemma slice_last_snoc {A} (n : nat) (l : list A) (a : A) :
  (0 < n)%nat -> slice_last n (slice_last n l ++ [a]) = slice_last n (l ++ [a]).
Proof.
  intros Hn. destruct (Nat.le_gt_cases (length l) n) as [Hshort|Hlong].
  - now rewrite (slice_last_short n l).
  - unfold slice_last. rewrite !length_app, length_skipn. cbn [length].
    replace (length l - (length l - n) + 1 - n)%nat with 1%nat by lia.
    replace (length l + 1 - n)%nat with (1 + (length l - n))%nat by lia.
    rewrite <- List.skipn_skipn. f_equal.
    rewrite List.skipn_app.
    replace (length l - n - length l)%nat with 0%nat by lia. reflexivity.
Qed.

Ltac trail_leaf :=
  idtac; let s := fresh "s" in let Hs := fresh "Hs" in
  intros s Hs; exact Hs.

Lemma handlePointerDown_trail (p : Point) : stable trail_follows (handlePointerDown p).
Proof.
  intros s Hs. fields s. unfold trail_follows in *.
  cbn [gestureTrail status pointsRef gesture] in Hs.
  unfold handlePointerDown. sym_cases; try exact Hs.
  reflexivity.
Qed.

Lemma handlePointerMove_trail (p : Point) : stable trail_follows (handlePointerMove p).
Proof.
  intros s Hs. fields s. unfold trail_follows in *.
  cbn [gestureTrail status pointsRef gesture] in Hs. subst trail.
  unfold handlePointerMove. sym.
  destruct phase, pts as [|first rest], blank; sym; try reflexivity;
    destruct (farther_than 30 p first); sym; try destruct holdT; sym;
    apply slice_last_snoc; lia.
Qed.

Lemma stable_reset (m : M unit) :
  stable trail_follows m ->
  stable trail_follows
    (m ;; modify (on_gesture (set_pointsRef [])) ;; setGestureTrail []).
Proof.
  intros Hm s Hs. specialize (Hm s Hs). unfold exec, bind in *.
  destruct (m s) as [s1 [[]|]]; cbn [fst] in *; [|exact Hm].
  fields s1. reflexivity.
Qed.

Ltac trail_known :=
  idtac;
  lazymatch goal with
  | |- stable _ (handlePointerDown _) => apply handlePointerDown_trail
  | |- stable _ (handlePointerMove _) => apply handlePointerMove_trail
  | |- stable _ (bind _ (fun _ => bind (modify (on_gesture (set_pointsRef []))) _)) =>
      apply stable_reset
  end.

Lemma trail_follows_invariant : invariant trail_follows.
Proof.
  invariant_parts;
    try (intros; stab trail_leaf trail_known); try (intros; assumption).
Qed.

(** *** Playing marks the application as speaking *)

Lemma add_source_NoDup (id : positive) (l : list positive) :
  NoDup l -> NoDup (add_source id l).
Proof.
  intros Hl. unfold add_source. destruct (existsb (Pos.eqb id) l) eqn:Hex; [exact Hl|].
  apply NoDup_app. split; [exact Hl|]. split; [|apply NoDup_singleton].
  intros x Hx Hid. apply list_elem_of_singleton in Hid. subst x.
  assert (existsb (Pos.eqb id) l = true); [|congruence].
  apply existsb_exists. exists id. split; [now apply list_elem_of_In | apply Pos.eqb_refl].
Qed.

Lemma NoDup_List_filter {A} (f : A -> bool) (l : list A) :
  NoDup l -> NoDup (List.filter f l).
Proof.
  induction 1 as [|a l Ha Hl IH]; cbn [List.filter]; [constructor|].
  destruct (f a); [|exact IH]. constructor; [|exact IH].
  intros Hin. apply Ha. apply list_elem_of_In in Hin. apply filter_In in Hin as [Hin _].
  now apply list_elem_of_In.
Qed.

Lemma add_source_nonempty (id : positive) (l : list positive) : add_source id l <> [].
Proof.
  unfold add_source. destruct (existsb (Pos.eqb id) l) eqn:Hex.
  - destruct l; [discriminate Hex | discriminate].
  - now destruct l.
Qed.

Ltac speaking_leaf :=
  idtac; let s := fresh "s" in let Hs := fresh "Hs" in
  intros s Hs;
  first [exact Hs
        | destruct Hs; split; [constructor | intros []; reflexivity]].

Lemma onmessage_speaking (audioData : option (list N)) (currentTime : Q) :
  stable speaking_while_playing (onmessage audioData currentTime).
Proof.
  intros s [Hnd Hsp]. fields s. unfold speaking_while_playing in *. cbn in Hnd, Hsp.
  unfold onmessage.
  destruct audioData as [[|c rest]|], cout as [ctx|]; sym; try (split; assumption).
  destruct speak; sym;
    (destruct (decode (c :: rest)) as [bytes|]; sym; [|split; auto]);
    (destruct (Nat.even (length bytes)); sym; [|split; auto]);
    (split; [now apply add_source_NoDup | reflexivity]).
Qed.

Lemma onended_speaking (source : positive) :
  stable speaking_while_playing (onended source).
Proof.
  intros s [Hnd Hsp]. fields s. unfold speaking_while_playing in *. cbn in Hnd, Hsp.
  unfold onended. sym.
  match goal with
  | |- context [match ?f with [] => _ | _ :: _ => _ end] => destruct f as [|a l] eqn:Hf
  end; sym.
  - split; [constructor | intros []; reflexivity].
  - rewrite <- Hf. split; [now apply NoDup_List_filter|].
    intros _. apply Hsp. intros ->. discriminate Hf.
Qed.

Ltac speaking_known :=
  idtac;
  lazymatch goal with
  | |- stable _ (onmessage _ _) => apply onmessage_speaking
  | |- stable _ (onended _) => apply onended_speaking
  end.

Lemma speaking_invariant : invariant speaking_while_playing.
Proof.
  invariant_parts;
    try (intros; stab speaking_leaf speaking_known); try (intros; assumption).
Qed.

(** *** At most one session *)

Ltac session_leaf :=
  idtac; let s := fresh "s" in let Hs := fresh "Hs" in
  intros s Hs; destruct Hs; split; assumption.

Ltac session_known :=
  idtac;
  lazymatch goal with
  | |- stable _ closeSession => apply keeps_closeSession
  | |- stable _ (startVoiceSession _) => apply keeps_startVoiceSession
  | |- stable _ (handler _) => apply keeps_handler
  | |- stable _ (timerFired _) => apply keeps_timerFired
  end.

Lemma session_invariant : invariant session_inv.
Proof.
  invariant_parts;
    try (intros; stab session_leaf session_known);
    try match goal with H : session_inv _ |- _ => destruct H; split; assumption end.
Qed.

(** *** The invariants at mount *)

Lemma mount_step_in_range e now : step_in_range (initialApp e now).
Proof. unfold step_in_range. cbn. lia. Qed.

Lemma mount_one_mode e now : one_mode (initialApp e now).
Proof. unfold one_mode, exclusive. cbn. lia. Qed.

Lemma mount_trail_follows e now : trail_follows (initialApp e now).
Proof. reflexivity. Qed.

Lemma mount_speaking e now : speaking_while_playing (initialApp e now).
Proof. split; [constructor | intros []; reflexivity]. Qed.

Lemma mount_session_inv e now :
  (forall id, throws e id = false) -> session_inv (initialApp e now).
Proof.
  intros Hok. split; [exact Hok|].
  intros id l Hl. cbn in Hl. rewrite lookup_empty in Hl. discriminate Hl.
Qed.

(** X7: along every run of the whole application (events handled one at a
    time, each handler running to its end) the calibration step stays
    between 0 and 5, so the prompt looked up for it always exists. *)
Theorem calibration_step_bounded (e : Env) (now : Z) (saved : option string)
    (events : list (Z * UIEvent)) :
  let s := core (ui_run events (mount e now saved)) in
  (calibrationStep (status s) <= 5)%nat /\
  exists key, nth_error calibration_prompts (calibrationStep (status s)) = Some key.
Proof.
  cbv zeta.
  pose proof (ui_run_invariant _ step_in_range_invariant events (mount e now saved)
                (mount_step_in_range e now)) as H.
  unfold step_in_range in H. split; [exact H|].
  destruct (nth_error calibration_prompts _) as [key|] eqn:Hkey; [now exists key|].
  apply nth_error_None in Hkey. cbn in Hkey. lia.
Qed.

(** X8: along every run of the whole application (events handled one at a
    time, each handler running to its end) at most one of the Vision,
    Navigator, Maps and blank-screen flags is set. *)
Theorem one_mode_always (e : Env) (now : Z) (saved : option string)
    (events : list (Z * UIEvent)) :
  exclusive (modes (core (ui_run events (mount e now saved)))).
Proof.
  exact (ui_run_invariant _ one_mode_invariant events (mount e now saved)
           (mount_one_mode e now)).
Qed.

(** X9: along every run of the whole application (events handled one at a
    time, each handler running to its end) the rendered gesture trail is
    the last 30 points of the pointer trace, so it never holds more than
    30 points. *)
Theorem trail_follows_always (e : Env) (now : Z) (saved : option string)
    (events : list (Z * UIEvent)) :
  let s := core (ui_run events (mount e now saved)) in
  gestureTrail (status s) = slice_last 30 (pointsRef (gesture s)) /\
  (length (gestureTrail (status s)) <= 30)%nat.
Proof.
  cbv zeta.
  pose proof (ui_run_invariant _ trail_follows_invariant events (mount e now saved)
                (mount_trail_follows e now)) as H.
  unfold trail_follows in H. split; [exact H|].
  rewrite H. apply slice_last_length.
Qed.

(** X10: along every run of the whole application (events handled one at a
    time, each handler running to its end) no playback source is
    registered twice, and while a source is registered the application
    counts as speaking. *)
Theorem speaking_while_playing_always (e : Env) (now : Z) (saved : option string)
    (events : list (Z * UIEvent)) :
  let s := core (ui_run events (mount e now saved)) in
  NoDup (activeSources (audio s)) /\
  (activeSources (audio s) = [] \/ isSpeaking (status s) = true).
Proof.
  cbv zeta.
  destruct (ui_run_invariant _ speaking_invariant events (mount e now saved)
              (mount_speaking e now)) as [Hnd Hsp].
  split; [exact Hnd|].
  destruct (activeSources _) as [|a l]; [now left|]. right. now apply Hsp.
Qed.

(** X11: along every run of the whole application, handlers running one at
    a time and no teardown call throwing, two open remote sessions are the
    same session. *)
Theorem one_session_everywhere (e : Env) (now : Z) (saved : option string)
    (events : list (Z * UIEvent)) (i j : positive) (li lj : LiveSession) :
  (forall id, throws e id = false) ->
  let s := core (ui_run events (mount e now saved)) in
  sessions (browser s) !! i = Some li -> isOpen li = true ->
  sessions (browser s) !! j = Some lj -> isOpen lj = true ->
  i = j.
Proof.
  intros Hok s Hi Hoi Hj Hoj.
  destruct (ui_run_invariant _ session_invariant events (mount e now saved)
              (mount_session_inv e now Hok)) as [_ Hone].
  exact (one_session_at_most_one _ i j li lj Hone Hi Hoi Hj Hoj).
Qed.

(** ** Gestures on the main view *)

Ltac sym_H :=
  unfold handler, task, handlePointerDown, handlePointerUp, handlePointerMove,
    calibrationPrompt, closeMode; sym.

(** X12: releasing the pointer after a hold only stops the listening: the
    microphone flag is cleared with a light haptic, the pending hold timer
    is cancelled and the trace is emptied; whatever the pointer drew, no
    swipe is carried out and no tap is counted. *)
Theorem release_after_hold (s : App) :
  accepting s -> isMicHeld (status s) = true ->
  let s' := exec (task (handler PointerUp)) s in
  isMicHeld (status s') = false /\
  trace s' = trace s ++ [Haptic light] /\
  modes s' = modes s /\ audio s' = audio s /\ vision s' = vision s /\
  tapCountRef (gesture s') = tapCountRef (gesture s) /\
  tapTimerRef (gesture s') = tapTimerRef (gesture s) /\
  pointsRef (gesture s') = [] /\ gestureTrail (status s') = [] /\
  holdTimerRef (gesture s') = None /\
  timers (browser s') = without_ref (holdTimerRef (gesture s)) (timers (browser s)).
Proof.
  intros [Hphase Hblank] Hheld. fields s. cbn in Hphase, Hblank, Hheld. subst.
  unfold trace. destruct holdT; sym_H; cbn [phase_eqb]; rewrite Nat.eqb_refl; sym;
    repeat split; reflexivity.
Qed.

(** X13: a press on the blank screen, no gesture being under way, only
    wakes the main view (medium haptic): no trace is started and no hold
    timer is armed; its release,
    the trace being empty, is counted as a tap, with a tap timer due
    300 ms after the release. *)
Theorem blank_screen_wake (s : App) (p : Point) :
  appState (status s) = READY -> isBlank (modes s) = true ->
  isMicHeld (status s) = false -> pointsRef (gesture s) = [] ->
  holdTimerRef (gesture s) = None ->
  let s1 := exec (task (handler (PointerDown p))) s in
  let s2 := exec (task (handler PointerUp)) s1 in
  s1 = on_browser (fun b => set_effects (effects b ++ [Haptic medium]) b)
         (on_modes (set_isBlank false) s) /\
  tapCountRef (gesture s2) = S (tapCountRef (gesture s)) /\
  tapTimerRef (gesture s2) = Some (fresh (browser s)) /\
  timers (browser s2) =
    without_ref (tapTimerRef (gesture s)) (timers (browser s))
    ++ [(fresh (browser s),
         {| deadline := clock (browser s) + 300;
            callback := TapTimer (isGuidanceActive (modes s)) (isAnalyzing (status s)) |})] /\
  modes s2 = modes s1 /\ trace s2 = trace s1.
Proof.
  intros Hphase Hblank Hheld Hpts Hhold. cbv zeta.
  assert (H1 : exec (task (handler (PointerDown p))) s =
               on_browser (fun b => set_effects (effects b ++ [Haptic medium]) b)
                 (on_modes (set_isBlank false) s)).
  { fields s. cbn in Hphase, Hblank. subst. sym_H. cbn [phase_eqb].
    rewrite Nat.eqb_refl. sym. reflexivity. }
  rewrite H1. split; [reflexivity|].
  rewrite pointerUp_tap_exec.
  - fields s. cbn in Hhold. subst holdT. unfold trace. cbn. repeat split; reflexivity.
  - split; [exact Hphase | reflexivity].
  - exact Hheld.
  - cbn [on_browser on_modes gesture]. now rewrite Hpts.
Qed.

(** X14: a swipe towards the mode that is already active changes nothing
    but the bookkeeping of the gesture: the mode flags, the audio session,
    the camera and the trace of effects are what they were, and no tap is
    counted. *)
Theorem swipe_to_current_mode_ignored (s : App) (g : Gesture) :
  accepting s -> isMicHeld (status s) = false ->
  analyzeGesture (pointsRef (gesture s)) = Some g ->
  (g = SWIPE_RIGHT /\ isNavMode (modes s) = true) \/
  (g = SWIPE_LEFT /\ visionActive (modes s) = true) \/
  (g = SWIPE_DOWN /\ isMapsMode (modes s) = true) ->
  let s' := exec (task (handler PointerUp)) s in
  modes s' = modes s /\ audio s' = audio s /\ vision s' = vision s /\
  calib s' = calib s /\ status s' = set_gestureTrail [] (status s) /\
  trace s' = trace s /\
  sessions (browser s') = sessions (browser s) /\
  tracks (browser s') = tracks (browser s) /\
  tapCountRef (gesture s') = tapCountRef (gesture s) /\
  tapTimerRef (gesture s') = tapTimerRef (gesture s) /\
  pointsRef (gesture s') = [] /\
  timers (browser s') = without_ref (holdTimerRef (gesture s)) (timers (browser s)).
Proof.
  intros [Hphase Hblank] Hheld Hg Hmode. fields s.
  cbn in Hphase, Hblank, Hheld, Hg, Hmode. subst. unfold trace.
  destruct Hmode as [[-> ->] | [[-> ->] | [-> ->]]];
    destruct holdT; sym_H; rewrite Hg; sym; cbn [phase_eqb]; rewrite Nat.eqb_refl; sym;
    repeat split; reflexivity.
Qed.



(** X16: a swipe to the right outside Navigator mode enters it: Navigator is
    the one mode flag set, an active camera is released, the previous voice
    session is torn down and a new one is requested; if the microphone and
    the connection are granted the stored session is open in NAV mode and
    the status is listening, otherwise no session is stored and the status
    is idle, the mode staying Navigator. *)
Theorem swipe_right_enters_navigator (s : App) :
  accepting s -> isMicHeld (status s) = false ->
  analyzeGesture (pointsRef (gesture s)) = Some SWIPE_RIGHT ->
  isNavMode (modes s) = false ->
  let s' := exec (task (handler PointerUp)) s in
  let granted := micGranted (env (browser s)) && connectOk (env (browser s)) in
  modes s' = {| visionActive := false; isNavMode := true; isMapsMode := false;
                isBlank := false; isGuidanceActive := false |} /\
  (visionActive (modes s) = true ->
     srcObject (vision s') = None /\ frameIntervalRef (vision s') = None) /\
  voiceStatus (status s') = (if granted then listening else idle) /\
  (if granted
   then exists id l,
          currentSessionRef (audio s') = Some id /\
          sessions (browser s') !! id = Some l /\
          sessionMode l = NAV /\ isOpen l = true
   else currentSessionRef (audio s') = None) /\
  exists rest,
    trace s' = trace s ++ [Speak (Literal "Navigator Mode")]
               ++ (if visionActive (modes s)
                   then call_of TrackStop (srcObject (vision s)) else [])
               ++ [Haptic heavy] ++ teardown_calls s
               ++ GetUserMedia audio_track :: rest.
Proof.
  intros [Hphase Hblank] Hheld Hg Hnav. cbv zeta.
  fields s. cbn in Hphase, Hblank, Hheld, Hg, Hnav. subst. unfold trace, teardown_calls.
  destruct holdT; (destruct vis; [destruct src, frameI|]);
    (destruct mic; [destruct conn|]);
    sym_H; rewrite Hg; sym; cbn [phase_eqb]; rewrite Nat.eqb_refl; sym.
  all: repeat match goal with
              | |- _ /\ _ => split
              | |- _ -> _ => let H := fresh in intros H; try discriminate H
              | |- exists _ : list Effect, _ =>
                  eexists; rewrite <- !app_assoc; cbn [app]; reflexivity
              | |- exists _ : positive, _ =>
                  eexists; eexists; split; [reflexivity|]; split;
                  [apply lookup_insert_eq | split; reflexivity]
              | |- _ = _ => reflexivity
              end.
Qed.



(** ** Playback *)

(** X18: a chunk that cannot be played (its text is no base64, or it decodes
    to an odd number of bytes) makes [onmessage] throw after it has marked
    the application as speaking and moved the cursor: no source is created
    or registered for it, nothing is emitted, and a hold timer that fires
    then does not start the listening. *)
Theorem onmessage_unplayable_chunk (s : App) (ctx : positive) (chunk : list N)
    (currentTime : Q) (isAnalyzing : bool) :
  audioContextOutRef (audio s) = Some ctx -> chunk <> [] ->
  (decode chunk = None \/
   exists bytes, decode chunk = Some bytes /\ Nat.even (length bytes) = false) ->
  let s' := exec (onmessage (Some chunk) currentTime) s in
  outcome (onmessage (Some chunk) currentTime) s = Thrown /\
  isSpeaking (status s') = true /\
  cursor s' = Qmax (cursor s) currentTime /\
  activeSources (audio s') = activeSources (audio s) /\
  sources (browser s') = sources (browser s) /\
  trace s' = trace s /\
  exec (holdTimerFired isAnalyzing) s' = s'.
Proof.
  intros Hout Hne Hbad. cbv zeta. fields s. cbn in Hout. subst cout.
  destruct chunk as [|c rest]; [congruence|]. unfold cursor, trace, onmessage, holdTimerFired.
  destruct Hbad as [Hd | [bytes [Hd Hodd]]]; destruct speak; sym; rewrite Hd; sym;
    rewrite ?Hodd; sym; repeat split; reflexivity.
Qed.

Lemma onended_active (source : positive) (s : App) :
  activeSources (audio (exec (onended source) s))
  = List.filter (fun i => negb (Pos.eqb i source)) (activeSources (audio s)).
Proof.
  fields s. unfold onended. sym.
  match goal with
  | |- context [match ?f with [] => _ | _ :: _ => _ end] => destruct f eqn:Hf
  end; sym; rewrite <- Hf; reflexivity.
Qed.

Lemma onended_last (source : positive) (s : App) :
  activeSources (audio (exec (onended source) s)) = [] ->
  isSpeaking (status (exec (onended source) s)) = false.
Proof.
  fields s. unfold onended. sym.
  match goal with
  | |- context [match ?f with [] => _ | _ :: _ => _ end] => destruct f eqn:Hf
  end; sym; [reflexivity | discriminate].
Qed.

Lemma ended_all (ended : list positive) (s : App) :
  activeSources (audio (fold_left (fun s id => exec (onended id) s) ended s))
  = List.filter (fun i => negb (existsb (Pos.eqb i) ended)) (activeSources (audio s)).
Proof.
  revert s. induction ended as [|id ended IH]; intros s; cbn [fold_left existsb].
  - cbn [negb]. induction (activeSources (audio s)) as [|a l IHl]; [reflexivity|].
    cbn [List.filter]. now f_equal.
  - rewrite IH, onended_active.
    induction (activeSources (audio s)) as [|a l IHl]; [reflexivity|].
    cbn [List.filter]. destruct (Pos.eqb a id); cbn [negb orb List.filter]; [exact IHl|].
    destruct (existsb (Pos.eqb a) ended); cbn [negb]; [exact IHl | now f_equal].
Qed.

(** X19: once every registered playback source has ended, in whatever order
    and among whatever other [ended] events, no source is registered and
    the application no longer counts as speaking. *)
Theorem playback_drains (s : App) (ended : list positive) :
  ended <> [] ->
  (forall id, In id (activeSources (audio s)) -> In id ended) ->
  let s' := fold_left (fun s id => exec (onended id) s) ended s in
  activeSources (audio s') = [] /\ isSpeaking (status s') = false.
Proof.
  intros Hne Hall. cbv zeta.
  assert (Hempty : activeSources (audio (fold_left (fun s id => exec (onended id) s) ended s)) = []).
  { rewrite ended_all.
    induction (activeSources (audio s)) as [|a l IH]; [reflexivity|].
    cbn [List.filter].
    replace (existsb (Pos.eqb a) ended) with true.
    - cbn [negb]. apply IH. intros id Hid. apply Hall. now right.
    - symmetry. apply existsb_exists. exists a. split; [apply Hall; now left | apply Pos.eqb_refl]. }
  split; [exact Hempty|].
  destruct ended as [|last front] using rev_ind; [congruence|].
  rewrite fold_left_app in *. cbn [fold_left] in *. now apply onended_last.
Qed.

(** ** Holding *)

Lemma moves_track (base : App) (first : Point) (held : positive) (holdTimer : Timer)
    (moves : list (Z * Point)) :
  accepting base ->
  Forall (fun m => fst m < deadline holdTimer) moves ->
  forall rest trail hold pending now,
    hold_state held holdTimer [] hold pending ->
    exists trail' now',
      exec (run (pointer_moves moves)) (pressed (first :: rest) trail hold pending now base)
      = pressed (first :: rest ++ map snd moves) trail'
          (if existsb (far_from first) moves then None else hold)
          (if existsb (far_from first) moves then [] else pending) now' base.
Proof.
  intros Hacc. induction 1 as [|[t q] moves Ht _ IH]; intros rest trail hold pending now Hhold.
  - exists trail, now. cbn [map existsb]. now rewrite app_nil_r.
  - cbn [pointer_moves map fst snd existsb] in *. rewrite run_cons.
    rewrite advance_idle.
    2:{ change (timers (browser (pressed (first :: rest) trail hold pending now base)))
          with pending.
        apply (hold_state_later held holdTimer [] t ltac:(constructor) Ht hold pending Hhold). }
    rewrite (pointerMove_exec q first rest); [|exact Hacc|reflexivity].
    cbv zeta. unfold far_from at 1 3. cbn [snd].
    destruct (farther_than 30 q first); cbn [orb].
    + destruct (IH (rest ++ [q]) (slice_last 30 (trail ++ [q])) None [] (Z.max now t))
        as (trail' & now' & Hrun).
      { right. now split. }
      exists trail', now'. rewrite <- app_assoc in Hrun.
      change ([q] ++ map snd moves) with (q :: map snd moves) in Hrun.
      assert (Hnone : forall b : bool, (if b then @None positive else None) = None)
        by now intros [].
      assert (Hnil : forall b : bool,
                (if b then @nil (positive * Timer) else []) = []) by now intros [].
      rewrite Hnone, Hnil in Hrun. rewrite <- Hrun. f_equal.
      rewrite <- (hold_state_without held holdTimer [] ltac:(constructor) hold pending Hhold).
      reflexivity.
    + destruct (IH (rest ++ [q]) (slice_last 30 (trail ++ [q])) hold pending (Z.max now t))
        as (trail' & now' & Hrun); [exact Hhold|].
      exists trail', now'. rewrite <- app_assoc in Hrun.
      change ([q] ++ map snd moves) with (q :: map snd moves) in Hrun.
      rewrite <- Hrun. reflexivity.
Qed.

Lemma pressed_down (s : App) (down : Z) (p : Point) :
  accepting s -> timers (browser s) = [] -> clock (browser s) <= down ->
  exec (run [(down, PointerDown p)]) s
  = pressed [p] [p] (Some (fresh (browser s)))
      [(fresh (browser s),
        {| deadline := down + 450; callback := HoldTimer (isAnalyzing (status s)) |})]
      down (on_browser (set_fresh (Pos.succ (fresh (browser s)))) s).
Proof.
  intros Hacc Htimers Hck. rewrite run_cons, run_nil, advance_idle.
  2:{ rewrite Htimers. constructor. }
  rewrite pointerDown_exec by exact Hacc.
  fields s. cbn in Htimers, Hck. subst tms. unfold pressed. run_M.
  now rewrite Z.max_r by lia.
Qed.

(** X20: a press during which the pointer, before 450 ms have passed, moves
    farther than 30 units from where it began produces no hold, wherever
    the pointer goes in the rest of those 450 ms and however long it then
    stays down: the hold timer is cancelled and nothing is emitted. *)
Theorem movement_cancels_hold (s : App) (down now : Z) (p : Point)
    (moves : list (Z * Point)) :
  gesture_idle s -> clock (browser s) <= down ->
  Forall (fun m => fst m < down + 450) moves ->
  Exists (fun m => farther_than 30 (snd m) p = true) moves ->
  let s' := exec (run ((down, PointerDown p) :: pointer_moves moves ++ [(now, Tick)])) s in
  isMicHeld (status s') = false /\
  holdTimerRef (gesture s') = None /\
  timers (browser s') = [] /\
  trace s' = trace s.
Proof.
  intros (Hacc & Hheld & _ & Htimers) Hck Hbefore Hfar. cbv zeta.
  change ((down, PointerDown p) :: pointer_moves moves ++ [(now, Tick)])
    with ([(down, PointerDown p)] ++ pointer_moves moves ++ [(now, Tick)]).
  rewrite run_app, pressed_down by assumption. rewrite run_app.
  set (holdTimer := {| deadline := down + 450;
                       callback := HoldTimer (isAnalyzing (status s)) |}).
  set (base := on_browser (set_fresh (Pos.succ (fresh (browser s)))) s).
  destruct (moves_track base p (fresh (browser s)) holdTimer moves)
    with (rest := @nil Point) (trail := [p]) (hold := Some (fresh (browser s)))
         (pending := [(fresh (browser s), holdTimer)]) (now := down)
    as (trail' & now' & Hrun); try assumption.
  { left. now split. }
  rewrite Hrun.
  replace (existsb (far_from p) moves) with true.
  2:{ symmetry. apply existsb_exists. apply List.Exists_exists in Hfar as [m [Hin Hm]].
      now exists m. }
  rewrite run_cons, run_nil, tick_exec, advance_idle by constructor.
  unfold base, pressed, trace. fields s. cbn in Hheld. subst held. repeat split.
Qed.

(** X21: a press that stays within 30 units of where it began, while
    nothing is speaking, counting down or being analysed, starts the
    listening when its hold timer fires, 450 ms after the press: the
    microphone flag is set and the double haptic is emitted. *)
Theorem hold_starts_listening (s : App) (down now : Z) (p : Point)
    (moves : list (Z * Point)) :
  gesture_idle s -> clock (browser s) <= down ->
  isSpeaking (status s) = false -> isCountingDownRef (vision s) = false ->
  isAnalyzing (status s) = false ->
  Forall (fun m => fst m < down + 450) moves ->
  Forall (fun m => farther_than 30 (snd m) p = false) moves ->
  down + 450 <= now ->
  let s' := exec (run ((down, PointerDown p) :: pointer_moves moves ++ [(now, Tick)])) s in
  isMicHeld (status s') = true /\
  trace s' = trace s ++ [Haptic double] /\
  modes s' = modes s /\
  pointsRef (gesture s') = p :: map snd moves.
Proof.
  intros (Hacc & Hheld & _ & Htimers) Hck Hspeak Hcount Han Hbefore Hnear Hnow. cbv zeta.
  change ((down, PointerDown p) :: pointer_moves moves ++ [(now, Tick)])
    with ([(down, PointerDown p)] ++ pointer_moves moves ++ [(now, Tick)]).
  rewrite run_app, pressed_down by assumption. rewrite run_app.
  set (holdTimer := {| deadline := down + 450;
                       callback := HoldTimer (isAnalyzing (status s)) |}).
  set (base := on_browser (set_fresh (Pos.succ (fresh (browser s)))) s).
  destruct (moves_track base p (fresh (browser s)) holdTimer moves)
    with (rest := @nil Point) (trail := [p]) (hold := Some (fresh (browser s)))
         (pending := [(fresh (browser s), holdTimer)]) (now := down)
    as (trail' & now' & Hrun); try assumption.
  { left. now split. }
  rewrite Hrun.
  replace (existsb (far_from p) moves) with false.
  2:{ symmetry. apply not_true_is_false. intros Hex. apply existsb_exists in Hex as [m [Hin Hm]].
      rewrite List.Forall_forall in Hnear. unfold far_from in Hm. rewrite (Hnear m Hin) in Hm.
      discriminate Hm. }
  rewrite run_cons, run_nil, tick_exec.
  rewrite (advance_single now _ (fresh (browser s)) holdTimer) by (reflexivity || (cbn; lia)).
  destruct Hacc as [Hphase Hblank].
  unfold base, pressed, trace, holdTimer. fields s.
  cbn in Hheld, Hphase, Hblank, Hspeak, Hcount, Han. subst.
  cbn [callback timerFired isAnalyzing status]. unfold task, holdTimerFired, calibrationPrompt.
  sym. cbn [phase_eqb]. rewrite Nat.eqb_refl. sym. repeat split.
Qed.

(** ** The countdown before a scene description *)

Lemma find_fresh {A} (id : positive) (a : A) (l : list (positive * A)) :
  Forall (fun e => (fst e < id)%positive) l ->
  List.find (fun e => Pos.eqb (fst e) id) (l ++ [(id, a)]) = Some (id, a).
Proof.
  induction 1 as [|e l He _ IH].
  - rewrite app_nil_l. cbn [List.find fst]. now rewrite Pos.eqb_refl.
  - rewrite <- app_comm_cons. cbn [List.find].
    destruct (Pos.eqb_spec (fst e) id); [lia | exact IH].
Qed.

Lemma find_absent {A} (id : positive) (l : list (positive * A)) :
  Forall (fun e => (fst e < id)%positive) l ->
  List.find (fun e => Pos.eqb (fst e) id) l = None.
Proof.
  induction 1 as [|e l He _ IH]; cbn [List.find]; [reflexivity|].
  destruct (Pos.eqb_spec (fst e) id); [lia | exact IH].
Qed.

Lemma retarget_fresh {A} (id : positive) (a b : A) (l : list (positive * A)) :
  Forall (fun e => (fst e < id)%positive) l ->
  map (fun e => if Pos.eqb (fst e) id then (id, b) else e) (l ++ [(id, a)])
  = l ++ [(id, b)].
Proof.
  induction 1 as [|e l He _ IH].
  - rewrite !app_nil_l. cbn [map fst]. now rewrite Pos.eqb_refl.
  - rewrite <- !app_comm_cons. cbn [map].
    destruct (Pos.eqb_spec (fst e) id); [lia | now rewrite IH].
Qed.

Lemma without_last {A} (id : positive) (a : A) (l : list (positive * A)) :
  Forall (fun e => (fst e < id)%positive) l -> without id (l ++ [(id, a)]) = l.
Proof.
  intros H. unfold without. rewrite List.filter_app. cbn [List.filter fst].
  rewrite Pos.eqb_refl. cbn [negb]. rewrite app_nil_r.
  now apply (without_absent id l).
Qed.

Lemma task_quiet (m : M unit) (s : App) :
  appState (status (exec m s)) = appState (status s) ->
  calibrationStep (status (exec m s)) = calibrationStep (status s) ->
  exec (task m) s = exec m s.
Proof.
  intros Hphase Hstep. rewrite task_exec. cbv zeta. rewrite Hphase, Hstep, Nat.eqb_refl.
  now destruct (appState (status s)).
Qed.

Lemma interval_tick_quiet (id : positive) :
  preserves (fun s => (appState (status s), calibrationStep (status s)))
    (handler (IntervalTick id)).
Proof. unfold handler, frameTick, countdownTick. cbv zeta. frame. Qed.

Lemma interval_tick_exec (id : positive) (s : App) :
  exec (task (handler (IntervalTick id))) s =
  match List.find (fun e => Pos.eqb (fst e) id) (intervals (browser s)) with
  | Some (_, FrameSampler) => exec frameTick s
  | Some (_, Countdown count) => exec (countdownTick id count) s
  | None => s
  end.
Proof.
  pose proof (interval_tick_quiet id s) as Hq. injection Hq as Hphase Hstep.
  rewrite task_quiet by assumption.
  unfold handler, exec, bind, gets. cbn [fst].
  now destruct (List.find _ (intervals (browser s))) as [[i []]|].
Qed.

Lemma countdown_begins (s : App) :
  isCountingDownRef (vision s) = false ->
  exec triggerCountdownDescription s
  = counting_down 3 [Speak (Literal "3"); Haptic light] s.
Proof.
  intros Hc. fields s. cbn in Hc. subst counting.
  unfold triggerCountdownDescription, counting_down. sym.
  now rewrite <- app_assoc.
Qed.

Lemma countdown_continues (s : App) (count : Z) (said : list Effect) :
  Forall (fun e => (fst e < fresh (browser s))%positive) (intervals (browser s)) ->
  1 < count ->
  interval_tick (fresh (browser s)) (counting_down count said s)
  = counting_down (count - 1) (said ++ [Speak (Num (count - 1)); Haptic light]) s.
Proof.
  intros Hfresh Hcount. unfold interval_tick. rewrite interval_tick_exec.
  change (intervals (browser (counting_down count said s)))
    with (intervals (browser s) ++ [(fresh (browser s), Countdown count)]).
  rewrite (find_fresh _ _ _ Hfresh).
  fields s. cbn [fresh browser intervals] in Hfresh.
  unfold countdownTick, counting_down. cbv zeta.
  destruct (Z.ltb_spec 0 (count - 1)); [|lia].
  pose proof (retarget_fresh fr (Countdown count) (Countdown (count - 1)) ivs Hfresh) as Hr.
  cbv beta iota delta [fst] in Hr. sym. rewrite Hr.
  now rewrite <- !app_assoc.
Qed.

Lemma countdown_ends (s : App) (said : list Effect) :
  Forall (fun e => (fst e < fresh (browser s))%positive) (intervals (browser s)) ->
  interval_tick (fresh (browser s)) (counting_down 1 said s)
  = on_vision (set_isCountingDownRef false)
      (on_status (set_countdown None)
         (on_browser (fun b =>
            set_speechOnEnd None
              (set_effects
                 (effects b ++ said
                  ++ [Speak (Literal "Analyzing scene."); Haptic success]
                  ++ (if videoMounted s then [GenerateContent true] else []))
                 (set_fresh (Pos.succ (fresh b)) b))) s)).
Proof.
  intros Hfresh. unfold interval_tick. rewrite interval_tick_exec.
  change (intervals (browser (counting_down 1 said s)))
    with (intervals (browser s) ++ [(fresh (browser s), Countdown 1)]).
  rewrite (find_fresh _ _ _ Hfresh).
  fields s. cbn [fresh browser intervals] in Hfresh.
  unfold countdownTick, counting_down, videoMounted. cbv zeta.
  change (0 <? 1 - 1) with false.
  pose proof (without_last fr (Countdown 1) ivs Hfresh) as Hr.
  destruct phase; try destruct blank; sym; rewrite Hr; rewrite <- ?app_assoc;
    rewrite ?app_nil_r; reflexivity.
Qed.

(** X22: a countdown, once begun, speaks 3, 2, 1 at the firings of its
    interval and then announces the analysis, clears its interval and its
    flag and, the main view being mounted, issues the scene request; a
    second trigger while it runs does nothing, and neither does a firing
    after the last. *)
Theorem countdown_runs_to_analysis (s : App) :
  isCountingDownRef (vision s) = false ->
  Forall (fun e => (fst e < fresh (browser s))%positive) (intervals (browser s)) ->
  let tick := interval_tick (fresh (browser s)) in
  let s0 := exec triggerCountdownDescription s in
  let s1 := tick s0 in
  let s2 := tick s1 in
  let s3 := tick s2 in
  exec triggerCountdownDescription s0 = s0 /\
  countdown (status s0) = Some 3 /\ countdown (status s1) = Some 2 /\
  countdown (status s2) = Some 1 /\ countdown (status s3) = None /\
  isCountingDownRef (vision s2) = true /\ isCountingDownRef (vision s3) = false /\
  intervals (browser s3) = intervals (browser s) /\
  trace s3 = trace s
             ++ [Speak (Literal "3"); Haptic light; Speak (Num 2); Haptic light;
                 Speak (Num 1); Haptic light;
                 Speak (Literal "Analyzing scene."); Haptic success]
             ++ (if videoMounted s then [GenerateContent true] else []) /\
  tick s3 = s3.
Proof.
  intros Hc Hfresh. cbv zeta.
  rewrite (countdown_begins s Hc).
  rewrite (countdown_continues s 3 _ Hfresh) by lia.
  rewrite (countdown_continues s (3 - 1) _ Hfresh) by lia.
  change (3 - 1 - 1) with 1. change (3 - 1) with 2.
  rewrite (countdown_ends s _ Hfresh).
  split; [|repeat split].
  - fields s. unfold triggerCountdownDescription, counting_down. sym. reflexivity.
  - unfold interval_tick. rewrite interval_tick_exec.
    match goal with
    | |- match List.find ?f ?l with _ => _ end = _ =>
        change l with (intervals (browser s))
    end.
    now rewrite (find_absent _ _ Hfresh).
Qed.

(** ** The calibration sequence *)

Ltac sym_C :=
  unfold handler, task, handleOrientation, skipCalibration, requestOrientationAndSetLang,
    onSpeechEnd, calibrationPrompt, timerFired, calibration_prompts;
  repeat (sym; progress cbn [phase_eqb andb nth_error Nat.eqb Nat.add length Nat.sub callback deadline]);
  sym.

(** X23: choosing a language starts the calibration at step 0 and speaks
    the first prompt; orientation events do not advance step 0; only when
    the prompt has been spoken to its end is the timer armed that, 2000 ms
    later, moves to step 1 and speaks the second prompt. *)
Theorem calibration_begins (s : App) (now : Z) :
  appState (status s) = LANGUAGE_PICKER -> timers (browser s) = [] ->
  clock (browser s) + 2000 <= now ->
  let s1 := exec (task (handler SelectLanguage)) s in
  let s2 := exec (task (handler SpeechEnd)) s1 in
  let s3 := exec (run [(now, Tick)]) s2 in
  appState (status s1) = CALIBRATION /\ calibrationStep (status s1) = 0%nat /\
  trace s1 = trace s ++ [Haptic medium; Speak (T "calibration_start")] /\
  timers (browser s1) = [] /\
  (forall ev,
     calibrationStep (status (exec (task (handler (DeviceOrientation ev))) s1)) = 0%nat) /\
  timers (browser s2) =
    [(fresh (browser s),
      {| deadline := clock (browser s) + 2000; callback := CalibrationIntroTimer |})] /\
  appState (status s3) = CALIBRATION /\ calibrationStep (status s3) = 1%nat /\
  trace s3 = trace s1 ++ [Speak (T "calibration_right")].
Proof.
  intros Hphase Htimers Hnow. cbv zeta.
  assert (H1 : exec (task (handler SelectLanguage)) s
               = on_browser (fun b =>
                   set_effects (effects b ++ [Haptic medium; Speak (T "calibration_start")])
                     (set_speechOnEnd (Some ArmCalibrationIntro) b))
                   (on_status (fun st => set_calibrationStep 0 (set_appState CALIBRATION st))
                      s)).
  { fields s. cbn in Hphase. subst. sym_C. now rewrite <- app_assoc. }
  rewrite H1. clear H1.
  fields s. cbn in Hphase, Htimers, Hnow. subst. unfold trace.
  split; [reflexivity|]. split; [reflexivity|].
  split; [reflexivity|]. split; [reflexivity|]. split.
  { intros ev.
    match goal with |- calibrationStep (status (exec _ ?st)) = _ =>
      destruct (task_step (handler (DeviceOrientation ev)) st) as (-> & _);
      assert (Hh : exec (handler (DeviceOrientation ev)) st = exec (handleOrientation ev) st)
        by reflexivity;
      rewrite Hh;
      destruct (handleOrientation_cases ev st) as [-> | (a & b & g & o & H)];
        [reflexivity|]
    end.
    destruct H as (_ & _ & _ & _ & _ & Hth & _). discriminate Hth. }
  split.
  { sym_C. reflexivity. }
  rewrite run_cons, run_nil, tick_exec.
  erewrite advance_single; [| sym_C; reflexivity | cbn [deadline]; lia].
  sym_C. rewrite <- !app_assoc. repeat split.
Qed.

(** X24: the last orientation step (step 4, a tilt of more than 20 degrees
    down from the baseline, at least 2500 ms after the previous advance)
    leads to step 5: the closing prompt is spoken and a timer armed that,
    2500 ms later, makes the application ready with the success haptic;
    from step 5 no orientation event advances any further. *)
Theorem calibration_finishes (s : App) (a b g : Q) (o : Orientation) (now : Z) :
  appState (status s) = CALIBRATION -> calibrationStep (status s) = 4%nat ->
  initialOrientation (calib s) = Some o ->
  2500 <= clock (browser s) - lastPromptTime (calib s) ->
  (20 < b - beta o)%Q ->
  timers (browser s) = [] -> clock (browser s) + 2500 <= now ->
  let s1 := exec (task (handler (DeviceOrientation
                  {| ev_alpha := Some a; ev_beta := Some b; ev_gamma := Some g |}))) s in
  let s2 := exec (run [(now, Tick)]) s1 in
  calibrationStep (status s1) = 5%nat /\ appState (status s1) = CALIBRATION /\
  trace s1 = trace s ++ [Haptic medium; Speak (T "calibration_done")] /\
  timers (browser s1) =
    [(fresh (browser s),
      {| deadline := clock (browser s) + 2500; callback := CalibrationDoneTimer |})] /\
  (forall ev,
     calibrationStep (status (exec (task (handler (DeviceOrientation ev))) s1)) = 5%nat) /\
  appState (status s2) = READY /\ trace s2 = trace s1 ++ [Haptic success].
Proof.
  intros Hphase Hstep Ho Hdue Hth Htimers Hnow. cbv zeta.
  assert (Hmet : threshold_met 4 (a - alpha o) (b - beta o) = true).
  { apply threshold_met_iff. exact Hth. }
  assert (H1 : exec (task (handler (DeviceOrientation
                 {| ev_alpha := Some a; ev_beta := Some b; ev_gamma := Some g |}))) s
               = on_browser (fun b0 =>
                   set_effects (effects b0 ++ [Haptic medium; Speak (T "calibration_done")])
                     (set_speechOnEnd None
                        (set_fresh (Pos.succ (fresh b0))
                           (set_timers [(fresh b0, {| deadline := clock b0 + 2500;
                                                      callback := CalibrationDoneTimer |})]
                              b0))))
                   (on_calib (fun _ => {| initialOrientation :=
                                            Some {| alpha := a; beta := b; gamma := g |};
                                          lastPromptTime := clock (browser s) |})
                      (on_status (set_calibrationStep 5) s))).
  { fields s. cbn in Hphase, Hstep, Ho, Hdue, Htimers. subst.
    unfold handler, task, handleOrientation. sym.
    destruct (Z.ltb_spec (ck - lastT) 2500); [lia|]. sym. rewrite Hmet. sym_C.
    now rewrite <- !app_assoc. }
  rewrite H1. clear H1.
  fields s. cbn in Hphase, Hstep, Ho, Hdue, Htimers, Hnow. subst. unfold trace.
  split; [reflexivity|]. split; [reflexivity|].
  split; [reflexivity|]. split; [reflexivity|]. split.
  { intros ev.
    match goal with |- calibrationStep (status (exec _ ?st)) = _ =>
      destruct (task_step (handler (DeviceOrientation ev)) st) as (-> & _);
      assert (Hh : exec (handler (DeviceOrientation ev)) st = exec (handleOrientation ev) st)
        by reflexivity;
      rewrite Hh;
      destruct (handleOrientation_cases ev st) as [-> | (a' & b' & g' & o' & H)];
        [reflexivity|]
    end.
    destruct H as (_ & _ & _ & _ & _ & Hth' & _). discriminate Hth'. }
  rewrite run_cons, run_nil, tick_exec.
  erewrite advance_single; [| sym_C; reflexivity | cbn [deadline]; lia].
  sym_C. rewrite <- !app_assoc. repeat split.
Qed.

(** ** The microphone gate *)

(** X25: [onaudioprocess] never throws; it sends the samples to its
    session exactly when the microphone is held and nothing is speaking or
    counting down, and otherwise does nothing. *)
Theorem onaudioprocess_gate (session : positive) (inputData : list Q) (s : App) :
  onaudioprocess session inputData s =
  (if isMicHeld (status s) && negb (isSpeaking (status s))
      && negb (isCountingDownRef (vision s))
   then on_browser (fun b =>
          set_effects (effects b ++ [SendRealtimeInput session "audio/pcm;rate=16000"]) b) s
   else s,
   Returned tt).
Proof.
  fields s. unfold onaudioprocess. rewrite encode_returns.
  destruct held, speak, counting; sym; reflexivity.
Qed.

(** ** Languages *)

Lemma task_step_phase (m : M unit) (s : App) :
  appState (status (exec (task m) s)) = appState (status (exec m s)).
Proof. now destruct (task_step m s) as (_ & _ & ->). Qed.

(** X26: choosing a language on the language view selects it, stores its
    code and starts the calibration at step 0; at the next launch, with
    that code in the storage, the first click leads straight to the main
    view, the language selected again and no calibration run. *)
Theorem language_remembered (sh : Shell) (button : nat) (lang : AppLanguage)
    (e : Env) (now : Z) :
  view sh = LanguageView -> nth_error SUPPORTED_LANGUAGES button = Some lang ->
  let chosen := ui_handler (ChooseLanguage button) sh in
  let relaunched := ui_handler GetStarted (mount e now (vision_voice_lang chosen)) in
  selectedLanguage chosen = Some lang /\
  vision_voice_lang chosen = Some (code lang) /\
  view chosen = CalibrationView /\
  calibrationStep (status (core chosen)) = 0%nat /\
  selectedLanguage relaunched = Some lang /\
  view relaunched = MainView /\
  trace (core relaunched) = [].
Proof.
  intros Hview Hlang. cbv zeta. cbn [ui_handler]. rewrite Hview, Hlang.
  unfold chooseLanguage. cbn [selectedLanguage vision_voice_lang core].
  assert (Hawake : isAwake sh = true).
  { unfold view in Hview. now destruct (isAwake sh). }
  split; [reflexivity|]. split; [reflexivity|]. split; [|split].
  - unfold view. cbn [isAwake core]. rewrite Hawake. cbn [negb].
    rewrite task_step_phase. destruct (core sh) as [? [] ? ? ? ? ?]; reflexivity.
  - destruct (task_step requestOrientationAndSetLang (core sh)) as (-> & _).
    destruct (core sh) as [? [] ? ? ? ? ?]; reflexivity.
  - apply nth_error_In in Hlang.
    destruct Hlang as [<-|[<-|[<-|[<-|[]]]]]; repeat split; reflexivity.
Qed.

(** X27: a stored code that is no supported language (left over, say, from
    another version) still leads straight to the main view, but with no
    language selected, so that every string comes from the English
    table. *)
Theorem unknown_saved_language (e : Env) (now : Z) (saved key : string) :
  saved <> ""%string -> find_language saved = None ->
  let sh := ui_handler GetStarted (mount e now (Some saved)) in
  view sh = MainView /\ selectedLanguage sh = None /\
  t (selectedLanguage sh) key = or_key (english !! key) key.
Proof.
  intros Hne Hfind. cbv zeta. cbn [ui_handler]. unfold mount, view at 1. cbn [isAwake negb].
  unfold getStarted, renderInit. cbn [core vision_voice_lang initialApp status appState].
  destruct (String.eqb_spec saved ""); [contradiction|].
  unfold view. cbn [isAwake negb core selectedLanguage]. rewrite Hfind. repeat split.
Qed.

(** ** UI strings *)

(** X28: in each of the four supported languages the six calibration
    prompts and the label of the skip button are translated: [t] returns
    the non-empty entry of the language's own table. *)
Theorem calibration_strings_translated (lang : AppLanguage) (key : string) :
  In lang SUPPORTED_LANGUAGES ->
  In key ("skip_calibration"%string :: calibration_prompts) ->
  exists text,
    entry (code lang) key = Some text /\ text <> ""%string /\ text <> key /\
    t (Some lang) key = text.
Proof.
  intros Hlang Hkey.
  destruct Hlang as [<-|[<-|[<-|[<-|[]]]]];
    destruct Hkey as [<-|[<-|[<-|[<-|[<-|[<-|[<-|[]]]]]]]];
    (match goal with
     | |- exists text, entry (code ?l) ?k = _ /\ _ => exists (t (Some l) k)
     end;
     split; [vm_compute; reflexivity|];
     split; [vm_compute; discriminate|];
     split; [vm_compute; discriminate | reflexivity]).
Qed.

(** X29: a key that the selected language's table lacks comes back as the
    key itself, not as the English string: in Hindi, Telugu and Spanish
    this is what [t] returns for the two spoken keys [describe_location]
    and [guidance_start] and for the rendered [hold_to_talk], all three
    present in the English table. *)
Theorem untranslated_keys_come_back_raw (lang : AppLanguage) (key : string) :
  In lang SUPPORTED_LANGUAGES -> code lang <> "en-US"%string ->
  In key ["describe_location"; "guidance_start"; "hold_to_talk"]%string ->
  entry (code lang) "calibration_start" <> None /\ entry (code lang) key = None /\
  t (Some lang) key = key /\
  entry "en-US" key = Some (t None key) /\ t None key <> key.
Proof.
  intros Hlang Hcode Hkey.
  destruct Hlang as [<-|[<-|[<-|[<-|[]]]]];
    try (exfalso; apply Hcode; reflexivity);
    destruct Hkey as [<-|[<-|[<-|[]]]];
    (split; [vm_compute; discriminate|];
     split; [vm_compute; reflexivity|]; split; [vm_compute; reflexivity|];
     split; [vm_compute; reflexivity | vm_compute; discriminate]).
Qed.

(** ** Concrete runs, continued *)


Lemma microphone_quantisation_witness :
  Forall (fun sample => (-1 <= sample < 1)%Q) microphone_block /\
  Forall2 (fun sample sent => (Qabs (sent - sample) < 1 # 32768)%Q)
    microphone_block (channelData (pcm16 microphone_block) 1 0).
Proof.
  assert (H : Forall (fun sample => (-1 <= sample < 1)%Q) microphone_block).
  { repeat constructor; unfold Qle, Qlt; cbn; lia. }
  split; [exact H|]. exact (microphone_quantisation microphone_block H).
Defined.

Lemma microphone_full_scale_wraps_witness :
  exists sent,
    channelData (pcm16 [3 # 2]) 1 0 = [sent] /\
    ((3 # 2) - 2 - (1 # 32768) < sent <= (3 # 2) - 2)%Q /\ (sent < 0)%Q.
Proof.
  apply (microphone_full_scale_wraps (3 # 2)).
  split; unfold Qle, Qlt; cbn; lia.
Defined.

Lemma one_session_everywhere_witness :
  let s := core (ui_run launch_and_navigate (mount friendly 0 (Some "en-US"%string))) in
  exists li,
    sessions (browser s) !! 5%positive = Some li /\ isOpen li = true /\
    forall j lj, sessions (browser s) !! j = Some lj -> isOpen lj = true -> 5%positive = j.
Proof.
  intros s.
  exists {| sessionMode := NAV; micStream := 2; isOpen := true |}.
  assert (Hi : sessions (browser s) !! 5%positive
               = Some {| sessionMode := NAV; micStream := 2; isOpen := true |})
    by (vm_compute; reflexivity).
  split; [exact Hi|]. split; [reflexivity|].
  intros j lj Hj Ho.
  exact (one_session_everywhere friendly 0 (Some "en-US"%string) launch_and_navigate
           5%positive j _ lj (fun _ => eq_refl) Hi eq_refl Hj Ho).
Defined.

Lemma release_after_hold_witness :
  let s' := exec (task (handler PointerUp)) holding in
  accepting holding /\ isMicHeld (status holding) = true /\
  isMicHeld (status s') = false /\
  trace s' = trace holding ++ [Haptic light] /\
  tapCountRef (gesture s') = tapCountRef (gesture holding) /\
  pointsRef (gesture s') = [].
Proof.
  intros s'.
  assert (Hacc : accepting holding) by (split; reflexivity).
  assert (Hheld : isMicHeld (status holding) = true) by reflexivity.
  destruct (release_after_hold holding Hacc Hheld)
    as (H1 & H2 & _ & _ & _ & H3 & _ & H4 & _).
  exact (conj Hacc (conj Hheld (conj H1 (conj H2 (conj H3 H4))))).
Defined.

Lemma blank_screen_wake_witness :
  let s1 := exec (task (handler (PointerDown (at_ 100 100)))) blank_screen in
  let s2 := exec (task (handler PointerUp)) s1 in
  isBlank (modes blank_screen) = true /\
  s1 = on_browser (fun b => set_effects (effects b ++ [Haptic medium]) b)
         (on_modes (set_isBlank false) blank_screen) /\
  tapCountRef (gesture s2) = S (tapCountRef (gesture blank_screen)) /\
  modes s2 = modes s1 /\ trace s2 = trace s1.
Proof.
  intros s1 s2.
  destruct (blank_screen_wake blank_screen (at_ 100 100)
              eq_refl eq_refl eq_refl eq_refl eq_refl)
    as (H1 & H2 & _ & _ & H3 & H4).
  split; [reflexivity|]. exact (conj H1 (conj H2 (conj H3 H4))).
Defined.

Lemma swipe_to_current_mode_ignored_witness :
  let s := drawn right_trace (nav_session friendly) in
  let s' := exec (task (handler PointerUp)) s in
  analyzeGesture (pointsRef (gesture s)) = Some SWIPE_RIGHT /\
  isNavMode (modes s) = true /\
  modes s' = modes s /\ audio s' = audio s /\ trace s' = trace s /\
  sessions (browser s') = sessions (browser s).
Proof.
  intros s s'.
  assert (Hacc : accepting s) by (split; vm_compute; reflexivity).
  assert (Hmic : isMicHeld (status s) = false) by (vm_compute; reflexivity).
  assert (Hg : analyzeGesture (pointsRef (gesture s)) = Some SWIPE_RIGHT)
    by (vm_compute; reflexivity).
  assert (Hnav : isNavMode (modes s) = true) by (vm_compute; reflexivity).
  destruct (swipe_to_current_mode_ignored s SWIPE_RIGHT Hacc Hmic Hg
              (or_introl (conj eq_refl Hnav)))
    as (H1 & H2 & _ & _ & _ & H3 & H4 & _).
  exact (conj Hg (conj Hnav (conj H1 (conj H2 (conj H3 H4))))).
Defined.


Lemma swipe_right_enters_navigator_witness :
  let s := drawn right_trace (readyApp friendly 0) in
  let s' := exec (task (handler PointerUp)) s in
  analyzeGesture (pointsRef (gesture s)) = Some SWIPE_RIGHT /\
  isNavMode (modes s) = false /\
  modes s' = {| visionActive := false; isNavMode := true; isMapsMode := false;
                isBlank := false; isGuidanceActive := false |} /\
  voiceStatus (status s') = listening.
Proof.
  intros s s'.
  assert (Hacc : accepting s) by (split; reflexivity).
  assert (Hg : analyzeGesture (pointsRef (gesture s)) = Some SWIPE_RIGHT)
    by (vm_compute; reflexivity).
  destruct (swipe_right_enters_navigator s Hacc eq_refl Hg eq_refl)
    as (H1 & _ & H2 & _).
  split; [exact Hg|]. split; [reflexivity|]. split; [exact H1 | exact H2].
Defined.


Lemma onmessage_unplayable_chunk_witness :
  let s := nav_session friendly in
  let s' := exec (onmessage (Some three_bytes) 0) s in
  decode three_bytes = Some [x00; x00; x00] /\
  outcome (onmessage (Some three_bytes) 0) s = Thrown /\
  isSpeaking (status s') = true /\
  activeSources (audio s') = activeSources (audio s) /\
  exec (holdTimerFired false) s' = s'.
Proof.
  intros s s'.
  assert (Hd : decode three_bytes = Some [x00; x00; x00]) by (vm_compute; reflexivity).
  assert (Hne : three_bytes <> []) by discriminate.
  assert (Hctx : audioContextOutRef (audio s) = Some 3%positive)
    by (vm_compute; reflexivity).
  destruct (onmessage_unplayable_chunk s 3%positive three_bytes 0 false Hctx Hne
              (or_intror (ex_intro _ [x00; x00; x00] (conj Hd eq_refl))))
    as (H1 & H2 & _ & H3 & _ & _ & H4).
  split; [exact Hd|]. exact (conj H1 (conj H2 (conj H3 H4))).
Defined.

Lemma playback_drains_witness :
  let s := playing_session friendly in
  let s' := fold_left (fun s id => exec (onended id) s) [5%positive] s in
  activeSources (audio s) = [5%positive] /\ isSpeaking (status s) = true /\
  activeSources (audio s') = [] /\ isSpeaking (status s') = false.
Proof.
  intros s s'.
  assert (Hne : [5%positive] <> []) by discriminate.
  assert (Hall : forall id, In id (activeSources (audio s)) -> In id [5%positive])
    by (intros id Hin; exact Hin).
  destruct (playback_drains s [5%positive] Hne Hall) as (H1 & H2).
  split; [reflexivity|]. split; [reflexivity|]. split; [exact H1 | exact H2].
Defined.

Lemma movement_cancels_hold_witness :
  let s := readyApp friendly 0 in
  let moves := [(10, at_ 30 2); (20, at_ 60 4); (30, at_ 30 2)] in
  let s' := exec (run ((0, PointerDown (at_ 0 0)) :: pointer_moves moves
                       ++ [(1000, Tick)])) s in
  isMicHeld (status s') = false /\ holdTimerRef (gesture s') = None /\
  timers (browser s') = [] /\ trace s' = trace s.
Proof.
  intros s moves s'.
  assert (Hidle : gesture_idle s) by (repeat split; reflexivity).
  assert (Hck : clock (browser s) <= 0) by (cbn; lia).
  assert (Hearly : Forall (fun m => fst m < 0 + 450) moves)
    by (repeat constructor; cbn; lia).
  assert (Hfar : Exists (fun m => farther_than 30 (snd m) (at_ 0 0) = true) moves)
    by (apply Exists_cons_tl, Exists_cons_hd; vm_compute; reflexivity).
  exact (movement_cancels_hold s 0 1000 (at_ 0 0) moves Hidle Hck Hearly Hfar).
Defined.

Lemma hold_starts_listening_witness :
  let s := readyApp friendly 0 in
  let moves := [(5, at_ 101 100); (200, at_ 110 90)] in
  let s' := exec (run ((0, PointerDown (at_ 100 100)) :: pointer_moves moves
                       ++ [(450, Tick)])) s in
  isMicHeld (status s') = true /\
  trace s' = trace s ++ [Haptic double] /\
  modes s' = modes s /\
  pointsRef (gesture s') = at_ 100 100 :: map snd moves.
Proof.
  intros s moves s'.
  assert (Hidle : gesture_idle s) by (repeat split; reflexivity).
  assert (Hck : clock (browser s) <= 0) by (cbn; lia).
  assert (Hearly : Forall (fun m => fst m < 0 + 450) moves)
    by (repeat constructor; cbn; lia).
  assert (Hnear : Forall (fun m => farther_than 30 (snd m) (at_ 100 100) = false) moves)
    by (repeat constructor; vm_compute; reflexivity).
  assert (Hnow : 0 + 450 <= 450) by lia.
  exact (hold_starts_listening s 0 450 (at_ 100 100) moves Hidle Hck
           eq_refl eq_refl eq_refl Hearly Hnear Hnow).
Defined.

Lemma countdown_runs_to_analysis_witness :
  let s := vision_session in
  let tick := interval_tick (fresh (browser s)) in
  let s0 := exec triggerCountdownDescription s in
  let s3 := tick (tick (tick s0)) in
  isCountingDownRef (vision s) = false /\
  countdown (status s0) = Some 3 /\ countdown (status s3) = None /\
  isCountingDownRef (vision s3) = false /\
  intervals (browser s3) = intervals (browser s) /\
  tick s3 = s3.
Proof.
  intros s tick s0 s3.
  assert (Hfresh : Forall (fun e => (fst e < fresh (browser s))%positive)
                     (intervals (browser s)))
    by (vm_compute; repeat constructor).
  assert (Hidle : isCountingDownRef (vision s) = false) by (vm_compute; reflexivity).
  destruct (countdown_runs_to_analysis s Hidle Hfresh)
    as (_ & H1 & _ & _ & H2 & _ & H3 & H4 & _ & H5).
  split; [exact Hidle|]. exact (conj H1 (conj H2 (conj H3 (conj H4 H5)))).
Defined.

Lemma calibration_begins_witness :
  let s1 := exec (task (handler SelectLanguage)) picking in
  let s2 := exec (task (handler SpeechEnd)) s1 in
  let s3 := exec (run [(2000, Tick)]) s2 in
  appState (status picking) = LANGUAGE_PICKER /\
  appState (status s1) = CALIBRATION /\ calibrationStep (status s1) = 0%nat /\
  trace s1 = trace picking ++ [Haptic medium; Speak (T "calibration_start")] /\
  calibrationStep (status s3) = 1%nat /\
  trace s3 = trace s1 ++ [Speak (T "calibration_right")].
Proof.
  intros s1 s2 s3.
  assert (Hnow : clock (browser picking) + 2000 <= 2000) by (cbn; lia).
  destruct (calibration_begins picking 2000 eq_refl eq_refl Hnow)
    as (H1 & H2 & H3 & _ & _ & _ & _ & H4 & H5).
  split; [reflexivity|]. exact (conj H1 (conj H2 (conj H3 (conj H4 H5)))).
Defined.

Lemma calibration_finishes_witness :
  let s1 := exec (task (handler (DeviceOrientation
                  {| ev_alpha := Some 90%Q; ev_beta := Some 30%Q;
                     ev_gamma := Some 0%Q |}))) calibrating_last in
  let s2 := exec (run [(6500, Tick)]) s1 in
  calibrationStep (status calibrating_last) = 4%nat /\
  calibrationStep (status s1) = 5%nat /\
  trace s1 = trace calibrating_last ++ [Haptic medium; Speak (T "calibration_done")] /\
  appState (status s2) = READY /\ trace s2 = trace s1 ++ [Haptic success].
Proof.
  intros s1 s2.
  assert (Hwait : 2500 <= clock (browser calibrating_last)
                          - lastPromptTime (calib calibrating_last)) by (cbn; lia).
  assert (Htilt : (20 < 30 - beta {| alpha := 90; beta := 0; gamma := 0 |})%Q)
    by (unfold Qlt; cbn; lia).
  assert (Hnow : clock (browser calibrating_last) + 2500 <= 6500) by (cbn; lia).
  destruct (calibration_finishes calibrating_last 90 30 0
              {| alpha := 90; beta := 0; gamma := 0 |} 6500
              eq_refl eq_refl eq_refl Hwait Htilt eq_refl Hnow)
    as (H1 & _ & H2 & _ & _ & H3 & H4).
  split; [reflexivity|]. exact (conj H1 (conj H2 (conj H3 H4))).
Defined.

Lemma language_remembered_witness :
  let hindi := {| code := "hi-IN"; name := "Hindi"; label := "हिन्दी" |}%string in
  let chosen := ui_handler (ChooseLanguage 1) first_launch in
  let relaunched := ui_handler GetStarted (mount friendly 5000 (vision_voice_lang chosen)) in
  view first_launch = LanguageView /\
  selectedLanguage chosen = Some hindi /\
  vision_voice_lang chosen = Some "hi-IN"%string /\
  view chosen = CalibrationView /\
  selectedLanguage relaunched = Some hindi /\
  view relaunched = MainView.
Proof.
  intros hindi chosen relaunched.
  destruct (language_remembered first_launch 1 hindi friendly 5000 eq_refl eq_refl)
    as (H1 & H2 & H3 & _ & H4 & H5 & _).
  split; [reflexivity|]. exact (conj H1 (conj H2 (conj H3 (conj H4 H5)))).
Defined.

Lemma unknown_saved_language_witness :
  let sh := ui_handler GetStarted (mount friendly 0 (Some "fr-FR"%string)) in
  find_language "fr-FR" = None /\
  view sh = MainView /\ selectedLanguage sh = None /\
  t (selectedLanguage sh) "ready" = or_key (english !! "ready"%string) "ready".
Proof.
  intros sh.
  assert (Hne : "fr-FR"%string <> ""%string) by discriminate.
  split; [reflexivity|].
  exact (unknown_saved_language friendly 0 "fr-FR" "ready" Hne eq_refl).
Defined.

Lemma calibration_strings_translated_witness :
  let telugu := {| code := "te-IN"; name := "Telugu"; label := "తెలుగు" |}%string in
  exists text,
    entry (code telugu) "calibration_up" = Some text /\ text <> ""%string /\
    text <> "calibration_up"%string /\
    t (Some telugu) "calibration_up" = text.
Proof.
  intros telugu.
  apply (calibration_strings_translated telugu "calibration_up").
  - right. right. left. reflexivity.
  - right. vm_compute. tauto.
Defined.

Lemma untranslated_keys_come_back_raw_witness :
  let hindi := {| code := "hi-IN"; name := "Hindi"; label := "हिन्दी" |}%string in
  entry (code hindi) "hold_to_talk" = None /\
  t (Some hindi) "hold_to_talk" = "hold_to_talk"%string /\
  entry "en-US" "hold_to_talk" = Some (t None "hold_to_talk") /\
  t None "hold_to_talk" <> "hold_to_talk"%string.
Proof.
  intros hindi.
  assert (Hin : In hindi SUPPORTED_LANGUAGES) by (right; left; reflexivity).
  assert (Hne : code hindi <> "en-US"%string) by discriminate.
  assert (Hkey : In "hold_to_talk"%string
                   ["describe_location"; "guidance_start"; "hold_to_talk"]%string)
    by (right; right; left; reflexivity).
  destruct (untranslated_keys_come_back_raw hindi "hold_to_talk" Hin Hne Hkey)
    as (_ & H1 & H2 & H3 & H4).
  exact (conj H1 (conj H2 (conj H3 H4))).
Defined.
